(** * go-template: authentication core

    A shallow embedding of the authentication subsystem of the
    go-template REST API (pkg/jwt, pkg/crypto, the user entity, the
    Postgres user repository, the user use case and the gin middleware)
    and of the helpers around it (internal/shared/utils, the custom
    validators of pkg/validator and the page data of pkg/response, with
    the runes and regular expressions of Go they are written with),
    followed by the properties proved about it.

    Conventions.
    - A Go [string] is a Rocq [string]; a [time.Time] is a number of
      seconds ([Z]); a [*time.Time] is an [option Z].
    - A Go [(T, error)] result is a [Result T]; a Go [error] is an [error]
      tree whose leaves are the sentinel values created with [errors.New]
      and whose nodes are what [fmt.Errorf] and the JWT library's joined
      errors wrap.
    - [time.Now()], [uuid.New()] and the salt of the password hash are
      inputs of the functions that read them.
    - Calls to the logger are left out: they return nothing and change
      nothing that the code reads. *)

From Stdlib Require Import ZArith Ascii String List Bool Lia.
From stdpp Require Import base option strings list gmap sorting.

Local Open Scope string_scope.
Local Open Scope Z_scope.
Set Warnings "-register-all".

(* ===================================================================== *)
(** ** Go errors *)
(* ===================================================================== *)

Module GoErrors.

(** The sentinel errors of the program and of the libraries it tests
    errors against. *)
Inductive sentinel : Type :=
  (* pkg/jwt/jwt.go, lines 12-16 *)
  | jwt_ErrInvalidToken
  | jwt_ErrExpiredToken
  | jwt_ErrInvalidSigningMethod
  (* github.com/golang-jwt/jwt/v5 *)
  | lib_ErrTokenMalformed
  | lib_ErrTokenUnverifiable
  | lib_ErrTokenSignatureInvalid
  | lib_ErrTokenInvalidClaims
  | lib_ErrTokenExpired
  | lib_ErrTokenNotValidYet
  (* internal/shared/errors, as the use case and the handlers name them *)
  | shared_ErrInternal
  | shared_ErrUserNotFound
  | shared_ErrEmailAlreadyExists
  | shared_ErrUsernameAlreadyExists
  | shared_ErrInvalidCredentials
  | shared_ErrUnauthorized
  | shared_ErrInvalidToken
  | shared_ErrInvalidPassword
  (* golang.org/x/crypto/bcrypt *)
  | bcrypt_ErrMismatchedHashAndPassword
  | bcrypt_ErrHashTooShort
  | bcrypt_ErrPasswordTooLong
  (* github.com/jackc/pgx/v5 *)
  | pgx_ErrNoRows
  (* a *pgconn.PgError, by its SQLSTATE *)
  | pg_Error (sqlstate : string)
  (* the connection pool failing before a statement runs *)
  | pg_ConnError.

#[global] Instance sentinel_eq_dec : EqDecision sentinel.
Proof. solve_decision. Defined.

(** [Sentinel s] is the value itself; [Errorf text ws] is an error that
    wraps the errors [ws] ([fmt.Errorf] with [%w] verbs, or a joined error
    of the JWT library); arguments formatted with [%v] are text only and
    are not wrapped. *)
Inductive error : Type :=
  | Sentinel (s : sentinel)
  | Errorf (text : string) (wrapped : list error).

(** [errors.Is(err, target)] for a sentinel target: the target is found
    somewhere in the tree [Unwrap] exposes. *)
Fixpoint Is (err : error) (target : sentinel) : bool :=
  match err with
  | Sentinel s => bool_decide (s = target)
  | Errorf _ ws => existsb (fun w => Is w target) ws
  end.

Inductive Result (A : Type) : Type :=
  | Ok (a : A)
  | Err (e : error).
Arguments Ok {A} a.
Arguments Err {A} e.

Definition is_ok {A} (r : Result A) : bool :=
  match r with Ok _ => true | Err _ => false end.

Definition failed_with {A} (r : Result A) (target : sentinel) : bool :=
  match r with Ok _ => false | Err e => Is e target end.

End GoErrors.
Import GoErrors.

(* ===================================================================== *)
(** ** pkg/jwt: the token manager *)
(* ===================================================================== *)

Module Jwt.

(** *** JSON values of the claim sets *)

Inductive JSON : Type :=
  | JString (s : string)
  | JNumber (n : Z).

#[global] Instance JSON_eq_dec : EqDecision JSON.
Proof. solve_decision. Defined.

(** A JSON object in the order its members were written. *)
Definition JObject : Type := list (string * JSON).

(** The member named [k]; when a name is repeated the decoder keeps the
    last one. Names are compared exactly. *)
Fixpoint member (k : string) (o : JObject) : option JSON :=
  match o with
  | [] => None
  | (k', v) :: rest =>
      match member k rest with
      | Some v' => Some v'
      | None => if String.eqb k' k then Some v else None
      end
  end.

(** Decoding a member into a Go [string] field: absent leaves the zero
    value, a non-string value is a decoding error. *)
Definition string_field (k : string) (o : JObject) : option string :=
  match member k o with
  | None => Some ""
  | Some (JString s) => Some s
  | Some (JNumber _) => None
  end.

(** Decoding a member into a [*NumericDate] field. *)
Definition date_field (k : string) (o : JObject) : option (option Z) :=
  match member k o with
  | None => Some None
  | Some (JNumber n) => Some (Some n)
  | Some (JString _) => None
  end.

(** *** Claim sets *)

(** [jwt.RegisteredClaims], the fields this program writes and the
    library checks by default ([iss] and [aud] are never set and never
    expected). *)
Record RegisteredClaims : Type := mkRegisteredClaims {
  Subject : string;
  ExpiresAt : option Z;
  NotBefore : option Z;
  IssuedAt : option Z;
  ID : string
}.

(** [Claims], jwt.go lines 18-23. *)
Record Claims : Type := mkClaims {
  UserID : string;
  Email : string;
  Role : string;
  Registered : RegisteredClaims
}.

(** [omitempty]: a zero-valued field writes no member. *)
Definition omit_string (k s : string) : JObject :=
  if String.eqb s "" then [] else [(k, JString s)].

Definition omit_date (k : string) (d : option Z) : JObject :=
  match d with None => [] | Some t => [(k, JNumber t)] end.

(** [json.Marshal] of a [RegisteredClaims]: every tag is [omitempty]. *)
Definition marshal_RegisteredClaims (r : RegisteredClaims) : JObject :=
  (omit_string "sub" (Subject r) ++ omit_date "exp" (ExpiresAt r) ++
   omit_date "nbf" (NotBefore r) ++ omit_date "iat" (IssuedAt r) ++
   omit_string "jti" (ID r))%list.

(** [json.Marshal] of a [Claims]: the three tagged fields, then the
    members of the embedded struct. *)
Definition marshal_Claims (c : Claims) : JObject :=
  ([("user_id", JString (UserID c)); ("email", JString (Email c));
   ("role", JString (Role c))] ++ marshal_RegisteredClaims (Registered c))%list.

(** [json.Unmarshal] into a [&jwt.RegisteredClaims{}]: members the struct
    has no field for are skipped. The decoding is that of the library on
    the JSON the program writes, and the properties below rest on it for
    such payloads only: on other payloads the library also matches a name
    without regard to case, reads a quoted number as a date and checks the
    types of [iss] and [aud]. *)
Definition unmarshal_RegisteredClaims (o : JObject) : option RegisteredClaims :=
  sub ← string_field "sub" o;
  exp ← date_field "exp" o;
  nbf ← date_field "nbf" o;
  iat ← date_field "iat" o;
  jti ← string_field "jti" o;
  Some (mkRegisteredClaims sub exp nbf iat jti).

(** [json.Unmarshal] into a [&Claims{}]. *)
Definition unmarshal_Claims (o : JObject) : option Claims :=
  uid ← string_field "user_id" o;
  email ← string_field "email" o;
  role ← string_field "role" o;
  reg ← unmarshal_RegisteredClaims o;
  Some (mkClaims uid email role reg).

(** *** The JWT library *)

(** The three segments of a token in compact serialization, decoded. *)
Record Segments : Type := mkSegments {
  signing_input : string;   (* the first two segments, joined by a dot *)
  header : JObject;
  payload : JObject;
  signature : string
}.

(** The parts of github.com/golang-jwt/jwt/v5 that are text processing
    and cryptography: the compact serialization and the MAC. The parser
    and the validator built on them are written out below. *)
Record Library : Type := mkLibrary {
  (* base64url(JSON(header)) "." base64url(JSON(claims)) *)
  SigningString : JObject -> JObject -> string;
  (* the signing string, a dot, and base64url(signature) *)
  join_signature : string -> string -> string;
  (* splitting a token at its dots and decoding the three segments;
     [None] when the token is malformed *)
  split_token : string -> option Segments;
  (* HMAC with the hash of the named method, a key and a message *)
  hmac : string -> string -> string -> string
}.

(** The library reads back what it wrote. *)
Definition reads_back (L : Library) : Prop :=
  forall h c sig,
    split_token L (join_signature L (SigningString L h c) sig)
    = Some (mkSegments (SigningString L h c) h c sig).

Inductive SigningMethod : Type :=
  | SigningMethodHMAC (alg : string)
  | SigningMethodOther (alg : string).

Definition Alg (m : SigningMethod) : string :=
  match m with SigningMethodHMAC a => a | SigningMethodOther a => a end.

(** [jwt.GetSigningMethod]: the methods the library registers. *)
Definition GetSigningMethod (alg : string) : option SigningMethod :=
  if existsb (String.eqb alg) ["HS256"; "HS384"; "HS512"]
  then Some (SigningMethodHMAC alg)
  else if existsb (String.eqb alg)
            ["RS256"; "RS384"; "RS512"; "PS256"; "PS384"; "PS512";
             "ES256"; "ES384"; "ES512"; "EdDSA"; "none"]
  then Some (SigningMethodOther alg)
  else None.

Record Token (C : Type) : Type := mkToken {
  Method : SigningMethod;
  TokenClaims : C;
  Valid : bool
}.
Arguments mkToken {C} _ _ _.
Arguments Method {C} _.
Arguments TokenClaims {C} _.
Arguments Valid {C} _.

Section Library.
Variable L : Library.

(** [jwt.NewWithClaims(method, claims).SignedString(key)] for an HMAC
    method and a [[]byte] key, which never fails. *)
Definition SignedString (alg : string) (key : string) (claims : JObject)
  : Result string :=
  let sstr := SigningString L [("alg", JString alg); ("typ", JString "JWT")] claims in
  Ok (join_signature L sstr (hmac L alg key sstr)).

(** The default validator: [exp] and [nbf] when present; every failure
    is collected. *)
Definition validate (now : Z) (r : RegisteredClaims) : list error :=
  ((match ExpiresAt r with
    | Some exp => if now <? exp then [] else [Sentinel lib_ErrTokenExpired]
    | None => []
    end) ++
   (match NotBefore r with
    | Some nbf => if nbf <=? now then [] else [Sentinel lib_ErrTokenNotValidYet]
    | None => []
    end))%list.

(** [Method.Verify(signingInput, signature, key)]. *)
Definition Verify (m : SigningMethod) (input sig key : string) : bool :=
  match m with
  | SigningMethodHMAC alg => bool_decide (sig = hmac L alg key input)
  | SigningMethodOther _ => false
  end.

(** [jwt.ParseWithClaims(tokenString, claims, keyFunc)] with the
    default parser, at time [now]. *)
Definition ParseWithClaims {C : Type}
    (unmarshal : JObject -> option C) (registered : C -> RegisteredClaims)
    (keyFunc : SigningMethod -> Result string)
    (now : Z) (tokenString : string) : Result (Token C) :=
  match split_token L tokenString with
  | None => Err (Errorf "token is malformed" [Sentinel lib_ErrTokenMalformed])
  | Some seg =>
    match unmarshal (payload seg) with
    | None => Err (Errorf "token is malformed" [Sentinel lib_ErrTokenMalformed])
    | Some claims =>
      match member "alg" (header seg) with
      | Some (JString alg) =>
        match GetSigningMethod alg with
        | None =>
            Err (Errorf "signing method (alg) is unavailable"
                   [Sentinel lib_ErrTokenUnverifiable])
        | Some method =>
          match keyFunc method with
          | Err e =>
              Err (Errorf "error while executing keyfunc"
                     [Sentinel lib_ErrTokenUnverifiable; e])
          | Ok key =>
            if Verify method (signing_input seg) (signature seg) key then
              match validate now (registered claims) with
              | [] => Ok (mkToken method claims true)
              | errs =>
                  Err (Errorf "" [Sentinel lib_ErrTokenInvalidClaims; Errorf "" errs])
              end
            else Err (Errorf "" [Sentinel lib_ErrTokenSignatureInvalid])
          end
        end
      | _ =>
          Err (Errorf "signing method (alg) is unspecified"
                 [Sentinel lib_ErrTokenUnverifiable])
      end
    end
  end.

(** *** The manager, jwt.go lines 25-124 *)

Record Manager : Type := NewManager {
  secretKey : string;
  accessTokenDuration : Z;
  refreshTokenDuration : Z
}.

Definition ErrInvalidToken : error := Sentinel jwt_ErrInvalidToken.
Definition ErrExpiredToken : error := Sentinel jwt_ErrExpiredToken.
Definition ErrInvalidSigningMethod : error := Sentinel jwt_ErrInvalidSigningMethod.

(** [now] is [time.Now()], [jti] is [uuid.New().String()]. *)
Definition access_claims (m : Manager) (now : Z) (jti userID email role : string)
  : Claims :=
  {| UserID := userID; Email := email; Role := role;
     Registered := {| ID := jti; Subject := userID; IssuedAt := Some now;
                      ExpiresAt := Some (now + accessTokenDuration m);
                      NotBefore := Some now |} |}.

Definition GenerateAccessToken (m : Manager) (now : Z) (jti : string)
    (userID email role : string) : Result string :=
  SignedString "HS256" (secretKey m)
    (marshal_Claims (access_claims m now jti userID email role)).

Definition refresh_claims (m : Manager) (now : Z) (jti userID : string)
  : RegisteredClaims :=
  {| ID := jti; Subject := userID; IssuedAt := Some now;
     ExpiresAt := Some (now + refreshTokenDuration m);
     NotBefore := Some now |}.

Definition GenerateRefreshToken (m : Manager) (now : Z) (jti : string)
    (userID : string) : Result string :=
  SignedString "HS256" (secretKey m)
    (marshal_RegisteredClaims (refresh_claims m now jti userID)).

(** The key function both validators pass to the parser. *)
Definition keyFunc (m : Manager) (method : SigningMethod) : Result string :=
  match method with
  | SigningMethodHMAC _ => Ok (secretKey m)
  | SigningMethodOther _ => Err ErrInvalidSigningMethod
  end.

Definition ValidateAccessToken (m : Manager) (now : Z) (tokenString : string)
  : Result Claims :=
  match ParseWithClaims unmarshal_Claims Registered (keyFunc m) now tokenString with
  | Err err =>
      if Is err lib_ErrTokenExpired then Err ErrExpiredToken
      else Err (Errorf "%w: %v" [ErrInvalidToken])
  | Ok token =>
      if negb (Valid token) then Err ErrInvalidToken
      else Ok (TokenClaims token)
  end.

Definition ValidateRefreshToken (m : Manager) (now : Z) (tokenString : string)
  : Result string :=
  match ParseWithClaims unmarshal_RegisteredClaims (fun r => r) (keyFunc m)
          now tokenString with
  | Err err =>
      if Is err lib_ErrTokenExpired then Err ErrExpiredToken
      else Err (Errorf "%w: %v" [ErrInvalidToken])
  | Ok token =>
      if negb (Valid token) then Err ErrInvalidToken
      else Ok (Subject (TokenClaims token))
  end.

Definition ExtractUserID (m : Manager) (now : Z) (tokenString : string)
  : Result string :=
  match ValidateAccessToken m now tokenString with
  | Err err => Err err
  | Ok claims => Ok (UserID claims)
  end.

End Library.

End Jwt.

(* ===================================================================== *)
(** ** internal/shared/constants *)
(* ===================================================================== *)

Module constants.
Definition RoleAdmin : string := "admin".
Definition RoleUser : string := "user".
Definition UserStatusActive : string := "active".
Definition UserStatusInactive : string := "inactive".
Definition UserStatusBanned : string := "banned".
Definition ContextKeyUserID : string := "user_id".
Definition ContextKeyUserEmail : string := "user_email".
Definition ContextKeyUserRole : string := "user_role".
Definition HeaderAuthorization : string := "Authorization".
Definition CacheKeyUserPrefix : string := "user:".
Definition CacheTTLMedium : Z := 1800.
End constants.

(* ===================================================================== *)
(** ** internal/shared/errors *)
(* ===================================================================== *)

Module errors.
(** Modelled from the spec: the package internal/shared/errors is not
    among the source files; the use case, the repository and the
    handlers name these values and compare them with [errors.Is], and
    the spec names the outcomes they stand for ("email exists",
    "invalid credentials", "unauthorized", "invalid token", a generic
    internal error, not-found). Each is a sentinel of its own. *)
Definition ErrInternal : error := Sentinel shared_ErrInternal.
Definition ErrUserNotFound : error := Sentinel shared_ErrUserNotFound.
Definition ErrEmailAlreadyExists : error := Sentinel shared_ErrEmailAlreadyExists.
Definition ErrUsernameAlreadyExists : error := Sentinel shared_ErrUsernameAlreadyExists.
Definition ErrInvalidCredentials : error := Sentinel shared_ErrInvalidCredentials.
Definition ErrUnauthorized : error := Sentinel shared_ErrUnauthorized.
Definition ErrInvalidToken : error := Sentinel shared_ErrInvalidToken.
Definition ErrInvalidPassword : error := Sentinel shared_ErrInvalidPassword.
End errors.

(* ===================================================================== *)
(** ** internal/domain/user/entity *)
(* ===================================================================== *)

Module entity.

Record User : Type := mkUser {
  ID : string;
  Email : string;
  Username : string;
  Password : string;
  FullName : string;
  Role : string;
  Status : string;
  CreatedAt : Z;
  UpdatedAt : Z;
  DeletedAt : option Z
}.

#[global] Instance User_eq_dec : EqDecision User.
Proof. solve_decision. Defined.

(** [now] is [time.Now()], [uuid] is [uuid.New().String()]. *)
Definition NewUser (now : Z) (uuid : string)
    (email username password fullName role : string) : User :=
  {| ID := uuid; Email := email; Username := username; Password := password;
     FullName := fullName; Role := role; Status := "active";
     CreatedAt := now; UpdatedAt := now; DeletedAt := None |}.

Definition IsActive (u : User) : bool :=
  String.eqb (Status u) "active" && bool_decide (DeletedAt u = None).

Definition IsAdmin (u : User) : bool := String.eqb (Role u) "admin".

Definition MarkAsDeleted (now : Z) (u : User) : User :=
  {| ID := ID u; Email := Email u; Username := Username u; Password := Password u;
     FullName := FullName u; Role := Role u; Status := "inactive";
     CreatedAt := CreatedAt u; UpdatedAt := now; DeletedAt := Some now |}.

Definition UpdateProfile (now : Z) (fullName : string) (u : User) : User :=
  {| ID := ID u; Email := Email u; Username := Username u; Password := Password u;
     FullName := if String.eqb fullName "" then FullName u else fullName;
     Role := Role u; Status := Status u;
     CreatedAt := CreatedAt u; UpdatedAt := now; DeletedAt := DeletedAt u |}.

Definition UpdatePassword (now : Z) (hashedPassword : string) (u : User) : User :=
  {| ID := ID u; Email := Email u; Username := Username u; Password := hashedPassword;
     FullName := FullName u; Role := Role u; Status := Status u;
     CreatedAt := CreatedAt u; UpdatedAt := now; DeletedAt := DeletedAt u |}.

Definition ChangeStatus (now : Z) (status : string) (u : User) : User :=
  {| ID := ID u; Email := Email u; Username := Username u; Password := Password u;
     FullName := FullName u; Role := Role u; Status := status;
     CreatedAt := CreatedAt u; UpdatedAt := now; DeletedAt := DeletedAt u |}.

End entity.

(* ===================================================================== *)
(** ** pkg/crypto: the password hasher *)
(* ===================================================================== *)

Module crypto.

(** golang.org/x/crypto/bcrypt, as far as the hasher calls it. The salt
    that [GenerateFromPassword] draws is an argument. *)
Record Bcrypt : Type := mkBcrypt {
  GenerateFromPassword : string -> string -> Z -> Result string;
  CompareHashAndPassword : string -> string -> option error
}.

Record PasswordHasher : Type := NewPasswordHasher { cost : Z }.

Section Hasher.
Variable B : Bcrypt.

Definition Hash (h : PasswordHasher) (salt : string) (password : string)
  : Result string :=
  match GenerateFromPassword B salt password (cost h) with
  | Err err => Err (Errorf "failed to hash password: %w" [err])
  | Ok hashedBytes => Ok hashedBytes
  end.

Definition Compare (h : PasswordHasher) (hashedPassword password : string)
  : option error :=
  CompareHashAndPassword B hashedPassword password.

Definition IsValid (h : PasswordHasher) (hashedPassword password : string) : bool :=
  match Compare h hashedPassword password with
  | None => true
  | Some _ => false
  end.
End Hasher.

End crypto.

(* ===================================================================== *)
(** ** internal/domain/user/repository *)
(* ===================================================================== *)

Module repository.
Import entity.

(** The interface [UserRepository] over a store of type [DB]. A method
    that returns only an [error] returns [None] for [nil]. *)
Record UserRepository (DB : Type) : Type := mkUserRepository {
  Create : User -> DB -> option error * DB;
  GetByID : string -> DB -> Result User;
  GetByEmail : string -> DB -> Result User;
  GetByUsername : string -> DB -> Result User;
  Update : User -> DB -> option error * DB;
  Delete : string -> DB -> option error * DB;
  List : Z -> Z -> string -> string -> string -> DB -> Result (list User * Z);
  ExistsByEmail : string -> DB -> Result bool;
  ExistsByUsername : string -> DB -> Result bool
}.
Arguments Create {DB} _ _ _.
Arguments GetByID {DB} _ _ _.
Arguments GetByEmail {DB} _ _ _.
Arguments GetByUsername {DB} _ _ _.
Arguments Update {DB} _ _ _.
Arguments Delete {DB} _ _ _.
Arguments List {DB} _ _ _ _ _ _ _.
Arguments ExistsByEmail {DB} _ _ _.
Arguments ExistsByUsername {DB} _ _ _.

(** *** The table [users] (migrations/000001_create_users_table.up.sql)
    and the statements of [PostgresUserRepository] *)

(** The server: the rows of [users] in storage order, what [NOW()]
    returns, and whether the pool can reach the server at all. *)
Record Database : Type := mkDatabase {
  users : list User;
  NOW : Z;
  unreachable : bool
}.

Definition with_users (db : Database) (us : list User) : Database :=
  {| users := us; NOW := NOW db; unreachable := unreachable db |}.

(** [deleted_at IS NULL] *)
Definition live (u : User) : bool := bool_decide (DeletedAt u = None).

(** The column types [VARCHAR(n)]: a longer value is refused
    (lengths are counted in bytes here). *)
Definition fits (u : User) : bool :=
  (String.length (ID u) <=? 36)%nat && (String.length (Email u) <=? 255)%nat &&
  (String.length (Username u) <=? 50)%nat && (String.length (Password u) <=? 255)%nat &&
  (String.length (FullName u) <=? 100)%nat && (String.length (Role u) <=? 20)%nat &&
  (String.length (Status u) <=? 20)%nat.

(** [chk_role] and [chk_status] *)
Definition checks (u : User) : bool :=
  existsb (String.eqb (Role u)) ["admin"; "user"] &&
  existsb (String.eqb (Status u)) ["active"; "inactive"; "banned"].

(** [PRIMARY KEY] on [id], [UNIQUE] on [email] and on [username]: the
    constraints range over every row, soft-deleted ones included. *)
Definition clashes (u o : User) : bool :=
  String.eqb (ID o) (ID u) || String.eqb (Email o) (Email u) ||
  String.eqb (Username o) (Username u).

(** The SQLSTATE a new row value is refused with, beside the rows
    [others] it has to coexist with. *)
Definition refused (others : list User) (u : User) : option sentinel :=
  if negb (fits u) then Some (pg_Error "22001")
  else if negb (checks u) then Some (pg_Error "23514")
  else if existsb (clashes u) others then Some (pg_Error "23505")
  else None.

(** [db.QueryRow(...).Scan(...)] of a one-user query: the first row the
    [WHERE] clause keeps. *)
Definition QueryRow (where_ : User -> bool) (db : Database) : Result User :=
  if unreachable db then Err (Sentinel pg_ConnError)
  else match List.filter where_ (users db) with
       | [] => Err (Sentinel pgx_ErrNoRows)
       | u :: _ => Ok u
       end.

(** Go's [int] is 64 bits wide here. *)
Definition wrap64 (z : Z) : Z := (z + 2 ^ 63) mod 2 ^ 64 - 2 ^ 63.

Definition newer_first (a b : User) : Prop := CreatedAt b <= CreatedAt a.
#[global] Instance newer_first_dec : RelDecision newer_first.
Proof. intros a b. unfold newer_first. apply _. Defined.

Module Postgres.
Section Statements.
(** [subject ILIKE pattern], SQL's case-insensitive pattern match. *)
Variable ILIKE : string -> string -> bool.

Definition Create (user : User) (db : Database) : option error * Database :=
  if unreachable db
  then (Some (Errorf "failed to create user: %w" [Sentinel pg_ConnError]), db)
  else
    (* the statement names no [deleted_at]: the column is NULL *)
    let row := {| ID := ID user; Email := Email user; Username := Username user;
                  Password := Password user; FullName := FullName user;
                  Role := Role user; Status := Status user;
                  CreatedAt := CreatedAt user; UpdatedAt := UpdatedAt user;
                  DeletedAt := None |} in
    match refused (users db) row with
    | Some s => (Some (Errorf "failed to create user: %w" [Sentinel s]), db)
    | None => (None, with_users db (users db ++ [row]))
    end.

Definition GetByID (id : string) (db : Database) : Result User :=
  match QueryRow (fun u => String.eqb (ID u) id && live u) db with
  | Err err =>
      if Is err pgx_ErrNoRows then Err errors.ErrUserNotFound
      else Err (Errorf "failed to get user by id: %w" [err])
  | Ok user => Ok user
  end.

Definition GetByEmail (email : string) (db : Database) : Result User :=
  match QueryRow (fun u => String.eqb (Email u) email && live u) db with
  | Err err =>
      if Is err pgx_ErrNoRows then Err errors.ErrUserNotFound
      else Err (Errorf "failed to get user by email: %w" [err])
  | Ok user => Ok user
  end.

Definition GetByUsername (username : string) (db : Database) : Result User :=
  match QueryRow (fun u => String.eqb (Username u) username && live u) db with
  | Err err =>
      if Is err pgx_ErrNoRows then Err errors.ErrUserNotFound
      else Err (Errorf "failed to get user by username: %w" [err])
  | Ok user => Ok user
  end.

(** The row an [UPDATE ... SET email = $2, ..., updated_at = $8] leaves
    in place of [old]. *)
Definition updated_row (user old : User) : User :=
  {| ID := ID old; Email := Email user; Username := Username user;
     Password := Password user; FullName := FullName user;
     Role := Role user; Status := Status user;
     CreatedAt := CreatedAt old; UpdatedAt := UpdatedAt user;
     DeletedAt := DeletedAt old |}.

Definition Update (user : User) (db : Database) : option error * Database :=
  if unreachable db
  then (Some (Errorf "failed to update user: %w" [Sentinel pg_ConnError]), db)
  else
    let hit u := String.eqb (ID u) (ID user) && live u in
    let others := List.filter (fun u => negb (hit u)) (users db) in
    match List.filter hit (users db) with
    | [] => (Some errors.ErrUserNotFound, db)          (* RowsAffected() == 0 *)
    | [old] =>
        match refused others (updated_row user old) with
        | Some s => (Some (Errorf "failed to update user: %w" [Sentinel s]), db)
        | None =>
            (None, with_users db
                     (map (fun u => if hit u then updated_row user u else u) (users db)))
        end
    | _ :: _ :: _ =>
        (* two rows given one email *)
        (Some (Errorf "failed to update user: %w" [Sentinel (pg_Error "23505")]), db)
    end.

(** The row [SET deleted_at = NOW(), status = 'inactive',
    updated_at = NOW()] leaves in place of [old]. *)
Definition deleted_row (now : Z) (old : User) : User :=
  {| ID := ID old; Email := Email old; Username := Username old;
     Password := Password old; FullName := FullName old;
     Role := Role old; Status := "inactive";
     CreatedAt := CreatedAt old; UpdatedAt := now; DeletedAt := Some now |}.

(** What the [UPDATE] of [Delete] makes of a row: the rows the
    [WHERE id = $1 AND deleted_at IS NULL] keeps are rewritten, the
    others are left as they are. *)
Definition after_delete (id : string) (now : Z) (u : User) : User :=
  if String.eqb (ID u) id && live u then deleted_row now u else u.

Definition Delete (id : string) (db : Database) : option error * Database :=
  if unreachable db
  then (Some (Errorf "failed to delete user: %w" [Sentinel pg_ConnError]), db)
  else
    match List.filter (fun u => String.eqb (ID u) id && live u) (users db) with
    | [] => (Some errors.ErrUserNotFound, db)          (* RowsAffected() == 0 *)
    | _ :: _ => (None, with_users db (map (after_delete id (NOW db)) (users db)))
    end.

(** The [WHERE] clause [List] builds. *)
Definition list_where (search role status : string) (u : User) : bool :=
  live u &&
  (if String.eqb search "" then true
   else let pattern := "%" ++ search ++ "%" in
        ILIKE (Email u) pattern || ILIKE (Username u) pattern ||
        ILIKE (FullName u) pattern) &&
  (if String.eqb role "" then true else String.eqb (Role u) role) &&
  (if String.eqb status "" then true else String.eqb (Status u) status).

Definition List (page pageSize : Z) (search role status : string)
    (db : Database) : Result (list User * Z) :=
  let offset := wrap64 ((page - 1) * pageSize) in
  let kept := List.filter (list_where search role status) (users db) in
  if unreachable db
  then Err (Errorf "failed to count users: %w" [Sentinel pg_ConnError])
  else
    let total := Z.of_nat (length kept) in
    (* The server refuses a negative [LIMIT] or [OFFSET] when the statement
       runs, after [Query] has returned without an error. pgx reports it in
       [rows.Err()], which the code does not read: [rows.Next()] is false
       at once and the page is empty. *)
    if (pageSize <? 0) || (offset <? 0) then Ok ([], total)
    else Ok (take (Z.to_nat pageSize)
               (drop (Z.to_nat offset) (merge_sort newer_first kept)), total).

Definition ExistsByEmail (email : string) (db : Database) : Result bool :=
  if unreachable db
  then Err (Errorf "failed to check email existence: %w" [Sentinel pg_ConnError])
  else Ok (existsb (fun u => String.eqb (Email u) email && live u) (users db)).

Definition ExistsByUsername (username : string) (db : Database) : Result bool :=
  if unreachable db
  then Err (Errorf "failed to check username existence: %w" [Sentinel pg_ConnError])
  else Ok (existsb (fun u => String.eqb (Username u) username && live u) (users db)).

Definition NewPostgresUserRepository : UserRepository Database :=
  mkUserRepository Database Create GetByID GetByEmail GetByUsername Update
    Delete List ExistsByEmail ExistsByUsername.
End Statements.
End Postgres.

End repository.

(* ===================================================================== *)
(** ** internal/domain/user/dto *)
(* ===================================================================== *)

Module dto.

Record RegisterRequest : Type := mkRegisterRequest {
  reg_Email : string;
  reg_Username : string;
  reg_Password : string;
  reg_FullName : string
}.

Record LoginRequest : Type := mkLoginRequest {
  login_Email : string;
  login_Password : string
}.

Record UpdateProfileRequest : Type := mkUpdateProfileRequest {
  upd_FullName : string
}.

Record ChangePasswordRequest : Type := mkChangePasswordRequest {
  OldPassword : string;
  NewPassword : string
}.

Record ListUsersRequest : Type := mkListUsersRequest {
  Page : Z;
  PageSize : Z;
  Search : string;
  list_Role : string;
  list_Status : string
}.

Record RefreshTokenRequest : Type := mkRefreshTokenRequest {
  req_RefreshToken : string
}.

Record UserResponse : Type := mkUserResponse {
  ID : string;
  Email : string;
  Username : string;
  FullName : string;
  Role : string;
  Status : string;
  CreatedAt : Z;
  UpdatedAt : Z
}.

Record LoginResponse : Type := mkLoginResponse {
  User : UserResponse;
  AccessToken : string;
  RefreshToken : string;
  TokenType : string;
  ExpiresIn : Z
}.

Record RefreshTokenResponse : Type := mkRefreshTokenResponse {
  new_AccessToken : string;
  new_RefreshToken : string;
  new_TokenType : string;
  new_ExpiresIn : Z
}.

End dto.

(* ===================================================================== *)
(** ** internal/domain/user/usecase *)
(* ===================================================================== *)

Module usecase.
Import repository crypto dto.

(** The calls a use case makes on its collaborators, in the order it
    makes them. *)
Inductive Call : Type :=
  | Repo_Create (user : entity.User)
  | Repo_GetByID (id : string)
  | Repo_GetByEmail (email : string)
  | Repo_Update (user : entity.User)
  | Repo_Delete (id : string)
  | Repo_List (page pageSize : Z) (search role status : string)
  | Repo_ExistsByEmail (email : string)
  | Repo_ExistsByUsername (username : string)
  | Cache_Get (key : string)
  | Cache_Set (key : string) (value : entity.User) (expiration : Z)
  | Cache_Delete (key : string).

(** What a use case runs against: the user store, the Redis server as a
    finite map (expiry left out), and the calls made so far. Every caller
    drops the error of a cache command. *)
Record World (DB : Type) : Type := mkWorld {
  db : DB;
  cache : gmap string entity.User;
  calls : list Call
}.
Arguments mkWorld {DB} _ _ _.
Arguments db {DB} _.
Arguments cache {DB} _.
Arguments calls {DB} _.

Definition M (DB A : Type) : Type := World DB -> A * World DB.
Definition ret {DB A} (a : A) : M DB A := fun w => (a, w).
Definition bind {DB A B} (m : M DB A) (k : A -> M DB B) : M DB B :=
  fun w => let (a, w') := m w in k a w'.

Notation "'do' x <~ m ; k" := (bind m (fun x => k))
  (at level 10, x name, m at level 100, k at level 200, only parsing).

(** Is a call a read of the cache? *)
Definition is_cache_read (c : Call) : bool :=
  match c with Cache_Get _ => true | _ => false end.

(** Is a call a query of the user store? *)
Definition is_store_query (c : Call) : bool :=
  match c with
  | Repo_GetByID _ | Repo_GetByEmail _ | Repo_List _ _ _ _ _
  | Repo_ExistsByEmail _ | Repo_ExistsByUsername _ => true
  | _ => false
  end.

Section UserUsecase.
Context {DB : Type}.
Variable userRepo : UserRepository DB.
Variable B : Bcrypt.
Variable passwordHasher : PasswordHasher.
Variable L : Jwt.Library.
Variable jwtManager : Jwt.Manager.
(** Whether the Redis server answers, and whether the Redis client takes
    a [*entity.User] as a value: a command fails and changes nothing if the
    server does not answer, and so does [Set] if the client cannot encode
    the value. *)
Variable cacheReachable : bool.
Variable cacheEncodes : bool.

Definition logged (c : Call) (w : World DB) (d : DB) (k : gmap string entity.User)
  : World DB :=
  mkWorld d k (calls w ++ [c]).

Definition userRepo_Create (user : entity.User) : M DB (option error) :=
  fun w => let (e, d) := Create userRepo user (db w) in
           (e, logged (Repo_Create user) w d (cache w)).
Definition userRepo_GetByID (id : string) : M DB (Result entity.User) :=
  fun w => (GetByID userRepo id (db w), logged (Repo_GetByID id) w (db w) (cache w)).
Definition userRepo_GetByEmail (email : string) : M DB (Result entity.User) :=
  fun w => (GetByEmail userRepo email (db w),
            logged (Repo_GetByEmail email) w (db w) (cache w)).
Definition userRepo_Update (user : entity.User) : M DB (option error) :=
  fun w => let (e, d) := Update userRepo user (db w) in
           (e, logged (Repo_Update user) w d (cache w)).
Definition userRepo_Delete (id : string) : M DB (option error) :=
  fun w => let (e, d) := Delete userRepo id (db w) in
           (e, logged (Repo_Delete id) w d (cache w)).
Definition userRepo_List (page pageSize : Z) (search role status : string)
  : M DB (Result (list entity.User * Z)) :=
  fun w => (List userRepo page pageSize search role status (db w),
            logged (Repo_List page pageSize search role status) w (db w) (cache w)).
Definition userRepo_ExistsByEmail (email : string) : M DB (Result bool) :=
  fun w => (ExistsByEmail userRepo email (db w),
            logged (Repo_ExistsByEmail email) w (db w) (cache w)).
Definition userRepo_ExistsByUsername (username : string) : M DB (Result bool) :=
  fun w => (ExistsByUsername userRepo username (db w),
            logged (Repo_ExistsByUsername username) w (db w) (cache w)).
Definition cache_Set (key : string) (value : entity.User) (expiration : Z)
  : M DB unit :=
  fun w => (tt, logged (Cache_Set key value expiration) w (db w)
                  (if cacheReachable && cacheEncodes
                   then <[key := value]> (cache w) else cache w)).
Definition cache_Delete (key : string) : M DB unit :=
  fun w => (tt, logged (Cache_Delete key) w (db w)
                  (if cacheReachable then delete key (cache w) else cache w)).

Definition toUserResponse (user : entity.User) : UserResponse :=
  {| ID := entity.ID user; Email := entity.Email user;
     Username := entity.Username user; FullName := entity.FullName user;
     Role := entity.Role user; Status := entity.Status user;
     CreatedAt := entity.CreatedAt user; UpdatedAt := entity.UpdatedAt user |}.

(** [now] is [time.Now()] and [uuid] is [uuid.New()] inside
    [entity.NewUser]; [salt] is the salt the hasher draws. *)
Definition Register (now : Z) (uuid salt : string) (req : RegisterRequest)
  : M DB (Result UserResponse) :=
  do r <~ userRepo_ExistsByEmail (reg_Email req) ;
  match r with
  | Err _ => ret (Err errors.ErrInternal)
  | Ok true => ret (Err errors.ErrEmailAlreadyExists)
  | Ok false =>
    do r <~ userRepo_ExistsByUsername (reg_Username req) ;
    match r with
    | Err _ => ret (Err errors.ErrInternal)
    | Ok true => ret (Err errors.ErrUsernameAlreadyExists)
    | Ok false =>
      match Hash B passwordHasher salt (reg_Password req) with
      | Err _ => ret (Err errors.ErrInternal)
      | Ok hashedPassword =>
        let user := entity.NewUser now uuid (reg_Email req) (reg_Username req)
                      hashedPassword (reg_FullName req) constants.RoleUser in
        do e <~ userRepo_Create user ;
        match e with
        | Some _ => ret (Err errors.ErrInternal)
        | None => ret (Ok (toUserResponse user))
        end
      end
    end
  end.

(** [now] is [time.Now()] in both token generators; [jtiAccess] and
    [jtiRefresh] are their [uuid.New()]. *)
Definition Login (now : Z) (jtiAccess jtiRefresh : string) (req : LoginRequest)
  : M DB (Result LoginResponse) :=
  do r <~ userRepo_GetByEmail (login_Email req) ;
  match r with
  | Err err =>
      if Is err shared_ErrUserNotFound then ret (Err errors.ErrInvalidCredentials)
      else ret (Err errors.ErrInternal)
  | Ok user =>
    if negb (entity.IsActive user) then ret (Err errors.ErrUnauthorized)
    else if negb (IsValid B passwordHasher (entity.Password user) (login_Password req))
    then ret (Err errors.ErrInvalidCredentials)
    else
      match Jwt.GenerateAccessToken L jwtManager now jtiAccess
              (entity.ID user) (entity.Email user) (entity.Role user) with
      | Err _ => ret (Err errors.ErrInternal)
      | Ok accessToken =>
        match Jwt.GenerateRefreshToken L jwtManager now jtiRefresh (entity.ID user) with
        | Err _ => ret (Err errors.ErrInternal)
        | Ok refreshToken =>
            ret (Ok {| User := toUserResponse user; AccessToken := accessToken;
                       RefreshToken := refreshToken; TokenType := "Bearer";
                       ExpiresIn := 900 |})
        end
      end
  end.

Definition RefreshToken (now : Z) (jtiAccess jtiRefresh : string)
    (req : RefreshTokenRequest) : M DB (Result RefreshTokenResponse) :=
  match Jwt.ValidateRefreshToken L jwtManager now (req_RefreshToken req) with
  | Err _ => ret (Err errors.ErrInvalidToken)
  | Ok userID =>
    do r <~ userRepo_GetByID userID ;
    match r with
    | Err err =>
        if Is err shared_ErrUserNotFound then ret (Err errors.ErrUnauthorized)
        else ret (Err errors.ErrInternal)
    | Ok user =>
      if negb (entity.IsActive user) then ret (Err errors.ErrUnauthorized)
      else
        match Jwt.GenerateAccessToken L jwtManager now jtiAccess
                (entity.ID user) (entity.Email user) (entity.Role user) with
        | Err _ => ret (Err errors.ErrInternal)
        | Ok accessToken =>
          match Jwt.GenerateRefreshToken L jwtManager now jtiRefresh (entity.ID user) with
          | Err _ => ret (Err errors.ErrInternal)
          | Ok refreshToken =>
              ret (Ok {| new_AccessToken := accessToken;
                         new_RefreshToken := refreshToken;
                         new_TokenType := "Bearer"; new_ExpiresIn := 900 |})
          end
        end
    end
  end.

Definition GetProfile (userID : string) : M DB (Result UserResponse) :=
  (* Try to get from cache first *)
  let cacheKey := constants.CacheKeyUserPrefix ++ userID in
  do r <~ userRepo_GetByID userID ;
  match r with
  | Err err =>
      if Is err shared_ErrUserNotFound then ret (Err errors.ErrUserNotFound)
      else ret (Err errors.ErrInternal)
  | Ok user =>
      (* Cache the user *)
      do _ <~ cache_Set cacheKey user constants.CacheTTLMedium ;
      ret (Ok (toUserResponse user))
  end.

Definition UpdateProfile (now : Z) (userID : string) (req : UpdateProfileRequest)
  : M DB (Result UserResponse) :=
  do r <~ userRepo_GetByID userID ;
  match r with
  | Err err =>
      if Is err shared_ErrUserNotFound then ret (Err errors.ErrUserNotFound)
      else ret (Err errors.ErrInternal)
  | Ok user0 =>
    let user := entity.UpdateProfile now (upd_FullName req) user0 in
    do e <~ userRepo_Update user ;
    match e with
    | Some _ => ret (Err errors.ErrInternal)
    | None =>
        (* Invalidate cache *)
        let cacheKey := constants.CacheKeyUserPrefix ++ userID in
        do _ <~ cache_Delete cacheKey ;
        ret (Ok (toUserResponse user))
    end
  end.

Definition ChangePassword (now : Z) (salt : string) (userID : string)
    (req : ChangePasswordRequest) : M DB (option error) :=
  do r <~ userRepo_GetByID userID ;
  match r with
  | Err err =>
      if Is err shared_ErrUserNotFound then ret (Some errors.ErrUserNotFound)
      else ret (Some errors.ErrInternal)
  | Ok user0 =>
    if negb (IsValid B passwordHasher (entity.Password user0) (OldPassword req))
    then ret (Some errors.ErrInvalidPassword)
    else
      match Hash B passwordHasher salt (NewPassword req) with
      | Err _ => ret (Some errors.ErrInternal)
      | Ok hashedPassword =>
        let user := entity.UpdatePassword now hashedPassword user0 in
        do e <~ userRepo_Update user ;
        match e with
        | Some _ => ret (Some errors.ErrInternal)
        | None => ret None
        end
      end
  end.

Definition ListUsers (req : ListUsersRequest)
  : M DB (Result (list UserResponse * Z)) :=
  do r <~ userRepo_List (Page req) (PageSize req) (Search req) (list_Role req)
         (list_Status req) ;
  match r with
  | Err _ => ret (Err errors.ErrInternal)
  | Ok (us, total) => ret (Ok (map toUserResponse us, total))
  end.

Definition DeleteUser (userID : string) : M DB (option error) :=
  do e <~ userRepo_Delete userID ;
  match e with
  | Some err =>
      if Is err shared_ErrUserNotFound then ret (Some errors.ErrUserNotFound)
      else ret (Some errors.ErrInternal)
  | None =>
      (* Invalidate cache *)
      let cacheKey := constants.CacheKeyUserPrefix ++ userID in
      do _ <~ cache_Delete cacheKey ;
      ret None
  end.

End UserUsecase.

End usecase.

(* ===================================================================== *)
(** ** gin, pkg/response and internal/delivery/http/middleware *)
(* ===================================================================== *)

Module gin.

(** [response.Response] as [response.Error] fills it: [Data], [Errors]
    and [Meta] stay nil in every call made here. *)
Record Response : Type := mkResponse {
  Success : bool;
  Message : string
}.

(** A [*gin.Context]: the request's headers, the keys set on the
    context, the position in the handler chain, and the calls to
    [c.JSON] so far (status code and body). *)
Record Context : Type := mkContext {
  Header : gmap string string;
  Keys : gmap string string;
  index : Z;
  written : list (Z * Response)
}.

Definition GetHeader (c : Context) (key : string) : string :=
  default "" (Header c !! key).

Definition Set_ (key value : string) (c : Context) : Context :=
  {| Header := Header c; Keys := <[key := value]> (Keys c);
     index := index c; written := written c |}.

Definition GetString (c : Context) (key : string) : string :=
  default "" (Keys c !! key).

Definition JSON (code : Z) (obj : Response) (c : Context) : Context :=
  {| Header := Header c; Keys := Keys c; index := index c;
     written := written c ++ [(code, obj)] |}.

Definition abortIndex : Z := 63.

Definition Abort (c : Context) : Context :=
  {| Header := Header c; Keys := Keys c; index := abortIndex;
     written := written c |}.

Definition IsAborted (c : Context) : bool := abortIndex <=? index c.

Definition advance (c : Context) : Context :=
  {| Header := Header c; Keys := Keys c; index := index c + 1;
     written := written c |}.

(** A handler, given what [c.Next()] does when it calls it. *)
Definition HandlerFunc : Type := (Context -> Context) -> Context -> Context.

(** The loop of [c.Next()], entered after [c.index++]:
    [for c.index < len(handlers) { handlers[c.index](c); c.index++ }].
    [fuel] bounds the number of handlers started. *)
Fixpoint run (fuel : nat) (handlers : list HandlerFunc) (c : Context) : Context :=
  match fuel with
  | O => c
  | S fuel' =>
      if (0 <=? index c) && (index c <? Z.of_nat (length handlers)) then
        match handlers !! Z.to_nat (index c) with
        | Some h =>
            let c1 := h (fun c' => run fuel' handlers (advance c')) c in
            run fuel' handlers (advance c1)
        | None => c
        end
      else c
  end.

Definition Next (fuel : nat) (handlers : list HandlerFunc) (c : Context) : Context :=
  run fuel handlers (advance c).

(** The engine serving a request: the context is reset ([index = -1])
    and [c.Next()] is called. *)
Definition reset (c : Context) : Context :=
  {| Header := Header c; Keys := Keys c; index := -1; written := written c |}.

Definition handleHTTPRequest (fuel : nat) (handlers : list HandlerFunc) (c : Context)
  : Context :=
  Next fuel handlers (reset c).

End gin.

Module response.
Import gin.

Definition StatusUnauthorized : Z := 401.
Definition StatusForbidden : Z := 403.

Definition Error (statusCode : Z) (message : string) (c : Context) : Context :=
  JSON statusCode {| Success := false; Message := message |} c.

Definition Unauthorized (message : string) (c : Context) : Context :=
  Error StatusUnauthorized message c.

Definition Forbidden (message : string) (c : Context) : Context :=
  Error StatusForbidden message c.

End response.

Module middleware.
Import gin.

(** [strings.Cut(s, " ")]: the text before and after the first space. *)
Fixpoint cut_space (s : string) : option (string * string) :=
  match s with
  | EmptyString => None
  | String a rest =>
      if Ascii.eqb a " "%char then Some (EmptyString, rest)
      else match cut_space rest with
           | Some (before, after) => Some (String a before, after)
           | None => None
           end
  end.

(** [strings.SplitN(s, " ", 2)] *)
Definition SplitN_space_2 (s : string) : list string :=
  match cut_space s with
  | Some (before, after) => [before; after]
  | None => [s]
  end.

Section Middleware.
Variable L : Jwt.Library.

(** [now] is the [time.Now()] of the token validation. *)
Definition AuthMiddleware (jwtManager : Jwt.Manager) (now : Z) : HandlerFunc :=
  fun next c =>
    let authHeader := GetHeader c constants.HeaderAuthorization in
    if String.eqb authHeader "" then
      Abort (response.Unauthorized "Authorization header is required" c)
    else
      (* Extract token from "Bearer <token>" *)
      match SplitN_space_2 authHeader with
      | [p0; token] =>
          if negb (String.eqb p0 "Bearer") then
            Abort (response.Unauthorized "Invalid authorization header format" c)
          else
            match Jwt.ValidateAccessToken L jwtManager now token with
            | Err _ => Abort (response.Unauthorized "Invalid or expired token" c)
            | Ok claims =>
                (* Set user context *)
                next (Set_ constants.ContextKeyUserRole (Jwt.Role claims)
                       (Set_ constants.ContextKeyUserEmail (Jwt.Email claims)
                         (Set_ constants.ContextKeyUserID (Jwt.UserID claims) c)))
            end
      | _ => Abort (response.Unauthorized "Invalid authorization header format" c)
      end.

Definition RequireRole (roles : list string) : HandlerFunc :=
  fun next c =>
    let userRole := GetString c constants.ContextKeyUserRole in
    if String.eqb userRole "" then
      Abort (response.Unauthorized "Unauthorized" c)
    else
      (* Check if user has required role *)
      let hasRole := existsb (fun role => String.eqb userRole role) roles in
      if negb hasRole then
        Abort (response.Forbidden "Insufficient permissions" c)
      else next c.
End Middleware.

End middleware.

(* ===================================================================== *)
(** ** internal/delivery/http/router *)
(* ===================================================================== *)

Module router.
Import gin middleware.

Section SetupRouter.
Variable L : Jwt.Library.
Variable JWTManager : Jwt.Manager.
Variable now : Z.

(** The chains of the group [/users], from the group's own middleware
    on (router.go lines 61-71); [h] is the route's handler. *)
Definition users_route (h : HandlerFunc) : list HandlerFunc :=
  [AuthMiddleware L JWTManager now; h].

Definition users_admin_route (h : HandlerFunc) : list HandlerFunc :=
  [AuthMiddleware L JWTManager now; RequireRole [constants.RoleAdmin]; h].
End SetupRouter.

End router.

(* ===================================================================== *)
(** ** A reference instance of the libraries *)
(* ===================================================================== *)

(** The properties below that mention a [Jwt.Library] or a
    [crypto.Bcrypt] hold for every instance (some under the assumption
    [Jwt.reads_back] or the assumptions of [Laws]). This module gives one
    instance to run the model on concrete requests: a clear-text
    serialization and a keyed tag stand for base64url(JSON) and
    HMAC-SHA256, and the stand-in for bcrypt keeps the password after the
    salt. *)
Module Reference.
Import Jwt.

(** A number in unary, closed by a zero. *)
Fixpoint enc_nat (n : nat) : string :=
  match n with
  | O => "0"
  | S n' => String "1" (enc_nat n')
  end.

Fixpoint dec_nat (s : string) : option (nat * string) :=
  match s with
  | String "0" r => Some (O, r)
  | String "1" r =>
      match dec_nat r with
      | Some (n, r') => Some (S n, r')
      | None => None
      end
  | _ => None
  end.

Fixpoint take_str (n : nat) (s : string) : option (string * string) :=
  match n with
  | O => Some ("", s)
  | S n' =>
      match s with
      | String a r =>
          match take_str n' r with
          | Some (p, r') => Some (String a p, r')
          | None => None
          end
      | EmptyString => None
      end
  end.

(** A string after its length. *)
Definition enc_str (s : string) : string := enc_nat (String.length s) ++ s.

Definition dec_str (s : string) : option (string * string) :=
  match dec_nat s with
  | Some (n, r) => take_str n r
  | None => None
  end.

(** A positive number in binary, lowest bit first, closed by [H]. *)
Fixpoint enc_pos (p : positive) : string :=
  match p with
  | xH => "H"
  | xO q => String "0" (enc_pos q)
  | xI q => String "1" (enc_pos q)
  end.

Fixpoint dec_pos (s : string) : option (positive * string) :=
  match s with
  | String "H" r => Some (xH, r)
  | String "0" r =>
      match dec_pos r with
      | Some (q, r') => Some (xO q, r')
      | None => None
      end
  | String "1" r =>
      match dec_pos r with
      | Some (q, r') => Some (xI q, r')
      | None => None
      end
  | _ => None
  end.

Definition enc_Z (z : Z) : string :=
  match z with
  | Z0 => "z"
  | Zpos p => String "+" (enc_pos p)
  | Zneg p => String "-" (enc_pos p)
  end.

Definition dec_Z (s : string) : option (Z * string) :=
  match s with
  | String "z" r => Some (Z0, r)
  | String "+" r =>
      match dec_pos r with
      | Some (p, r') => Some (Zpos p, r')
      | None => None
      end
  | String "-" r =>
      match dec_pos r with
      | Some (p, r') => Some (Zneg p, r')
      | None => None
      end
  | _ => None
  end.

Definition enc_json (v : JSON) : string :=
  match v with
  | JString s => String "s" (enc_str s)
  | JNumber n => String "n" (enc_Z n)
  end.

Definition dec_json (s : string) : option (JSON * string) :=
  match s with
  | String "s" r =>
      match dec_str r with
      | Some (x, r') => Some (JString x, r')
      | None => None
      end
  | String "n" r =>
      match dec_Z r with
      | Some (x, r') => Some (JNumber x, r')
      | None => None
      end
  | _ => None
  end.

Fixpoint enc_obj (o : JObject) : string :=
  match o with
  | [] => "$"
  | (k, v) :: rest => String "e" (enc_str k ++ enc_json v ++ enc_obj rest)
  end.

Fixpoint dec_obj (fuel : nat) (s : string) : option (JObject * string) :=
  match fuel with
  | O => None
  | S fuel' =>
      match s with
      | String "$" r => Some ([], r)
      | String "e" r =>
          match dec_str r with
          | Some (k, r1) =>
              match dec_json r1 with
              | Some (v, r2) =>
                  match dec_obj fuel' r2 with
                  | Some (rest, r3) => Some ((k, v) :: rest, r3)
                  | None => None
                  end
              | None => None
              end
          | None => None
          end
      | _ => None
      end
  end.

Definition SigningString (h c : JObject) : string :=
  enc_obj h ++ String "." (enc_obj c).

Definition join_signature (s sig : string) : string := s ++ String "." sig.

Definition split_token (s : string) : option Segments :=
  match dec_obj (String.length s) s with
  | Some (h, String "." r1) =>
      match dec_obj (String.length r1) r1 with
      | Some (c, String "." sig) => Some (mkSegments (SigningString h c) h c sig)
      | _ => None
      end
  | _ => None
  end.

(** The block of the hash of a method, in bytes. *)
Definition block_size (alg : string) : nat :=
  if String.eqb alg "HS256" then 64%nat else 128%nat.

Fixpoint zeros (n : nat) : string :=
  match n with
  | O => ""
  | S n' => String Ascii.zero (zeros n')
  end.

(** Like HMAC, the keyed tag first fills a key that is shorter than the
    block with zero bytes. (A key longer than the block HMAC replaces by
    its hash; the stand-in takes it as it is.) *)
Definition prepared (alg key : string) : string :=
  key ++ zeros (block_size alg - String.length key).

Definition hmac (alg key msg : string) : string :=
  alg ++ String ":" (enc_str msg ++ prepared alg key).

Definition lib : Library := mkLibrary SigningString join_signature split_token hmac.

(** The first [n] bytes of a string. *)
Fixpoint first_bytes (n : nat) (s : string) : string :=
  match n, s with
  | S n', String a r => String a (first_bytes n' r)
  | _, _ => ""
  end.

(** Like bcrypt, the stand-in refuses to hash a password of more than 72
    bytes and reads no more than the first 72 bytes of a password it
    compares. *)
Definition GenerateFromPassword (salt password : string) (cost : Z) : Result string :=
  if (72 <? String.length password)%nat then Err (Sentinel bcrypt_ErrPasswordTooLong)
  else Ok (enc_str salt ++ password).

Definition CompareHashAndPassword (hashedPassword password : string) : option error :=
  match dec_str hashedPassword with
  | Some (_, kept) =>
      if String.eqb kept (first_bytes 72 password) then None
      else Some (Sentinel bcrypt_ErrMismatchedHashAndPassword)
  | None => Some (Sentinel bcrypt_ErrHashTooShort)
  end.

Definition bcrypt : crypto.Bcrypt :=
  crypto.mkBcrypt GenerateFromPassword CompareHashAndPassword.

(** [ILIKE] for the reference server: equality with the pattern between
    its two [%] signs is all the examples need. *)
Definition ILIKE (subject pattern : string) : bool :=
  String.eqb ("%" ++ subject ++ "%") pattern.

End Reference.

(* ===================================================================== *)
(** ** Vocabulary of the properties and sample data *)
(* ===================================================================== *)

Module Spec.
Import Jwt.

(** The failure of a validator is of the invalid kind: the caller's
    [errors.Is] finds [ErrInvalidToken] and not [ErrExpiredToken]. *)
Definition invalid_kind {A} (r : Result A) : bool :=
  failed_with r jwt_ErrInvalidToken && negb (failed_with r jwt_ErrExpiredToken).

(** The failure is of the expired kind. *)
Definition expired_kind {A} (r : Result A) : bool :=
  failed_with r jwt_ErrExpiredToken && negb (failed_with r jwt_ErrInvalidToken).

(** The table constraints [PRIMARY KEY (id)], [UNIQUE (email)] and
    [UNIQUE (username)] hold of the rows. *)
Definition constrained (db : repository.Database) : Prop :=
  NoDup (map entity.ID (repository.users db)) /\
  NoDup (map entity.Email (repository.users db)) /\
  NoDup (map entity.Username (repository.users db)).

(** A middleware answered [code] with [message] and aborted the chain. *)
Definition aborted_with (code : Z) (message : string) (c c' : gin.Context) : Prop :=
  c' = gin.Abort (response.Error code message c).

End Spec.

Module Sample.
Import Jwt.

Definition manager : Manager := NewManager "secret" 900 604800.
Definition other_manager : Manager := NewManager "another" 900 604800.

(** A manager whose secret is that of [manager] and a zero byte. *)
Definition padded_manager : Manager :=
  NewManager ("secret" ++ String Ascii.zero "") 900 604800.
Definition hasher : crypto.PasswordHasher := crypto.NewPasswordHasher 10.

(** The access token of user [u1] issued at second 1000. *)
Definition access_token : string :=
  Eval vm_compute in
    match GenerateAccessToken Reference.lib manager 1000 "jti-a" "u1" "a@x.com" "user" with
    | Ok t => t
    | Err _ => ""
    end.

(** The refresh token of user [u1] issued at second 1000. *)
Definition refresh_token : string :=
  Eval vm_compute in
    match GenerateRefreshToken Reference.lib manager 1000 "jti-r" "u1" with
    | Ok t => t
    | Err _ => ""
    end.

(** The same access claims under another secret. *)
Definition foreign_token : string :=
  Eval vm_compute in
    match GenerateAccessToken Reference.lib other_manager 1000 "jti-a" "u1" "a@x.com" "user" with
    | Ok t => t
    | Err _ => ""
    end.

(** Access claims under a header that names a method that is not HMAC. *)
Definition rs256_token : string :=
  Eval vm_compute in
    Reference.join_signature
      (Reference.SigningString [("alg", JString "RS256"); ("typ", JString "JWT")]
         (marshal_Claims (access_claims manager 1000 "jti-a" "u1" "a@x.com" "user")))
      "signature".

(** The claims of the access token of [u1] with a number for [sub],
    signed with the secret of [manager]. *)
Definition numbered_token : string :=
  Eval vm_compute in
    let sstr :=
      Reference.SigningString [("alg", JString "HS256"); ("typ", JString "JWT")]
        [("user_id", JString "u1"); ("email", JString "a@x.com");
         ("role", JString "user"); ("sub", JNumber 5); ("exp", JNumber 1900);
         ("nbf", JNumber 1000); ("iat", JNumber 1000); ("jti", JString "jti-a")] in
    Reference.join_signature sstr (Reference.hmac "HS256" (secretKey manager) sstr).

Definition alice : entity.User :=
  {| entity.ID := "u1"; entity.Email := "a@x.com"; entity.Username := "alice";
     entity.Password := Reference.enc_str "salt" ++ "Abcdef1!";
     entity.FullName := "Alice A"; entity.Role := "user"; entity.Status := "active";
     entity.CreatedAt := 900; entity.UpdatedAt := 900; entity.DeletedAt := None |}.

Definition banned_alice : entity.User := entity.ChangeStatus 950 "banned" alice.

(** A record marked as deleted whose status was then set back. *)
Definition active_but_deleted : entity.User :=
  entity.ChangeStatus 960 "active" (entity.MarkAsDeleted 950 alice).

(** A store that returns one record for every id and every email. *)
Definition store_of (user : entity.User) : repository.UserRepository unit :=
  repository.mkUserRepository unit
    (fun _ d => (None, d)) (fun _ _ => Ok user) (fun _ _ => Ok user)
    (fun _ _ => Ok user) (fun _ d => (None, d)) (fun _ d => (None, d))
    (fun _ _ _ _ _ _ => Ok ([user], 1)) (fun _ _ => Ok true) (fun _ _ => Ok true).

(** [alice] after the soft delete of second 950. *)
Definition deleted_alice : entity.User := repository.Postgres.deleted_row 950 alice.

Definition server (rows : list entity.User) : repository.Database :=
  {| repository.users := rows; repository.NOW := 1000; repository.unreachable := false |}.

Definition world (rows : list entity.User) (cached : gmap string entity.User)
  : usecase.World repository.Database :=
  usecase.mkWorld (server rows) cached [].

Definition userRepo : repository.UserRepository repository.Database :=
  repository.Postgres.NewPostgresUserRepository Reference.ILIKE.

(** The Postgres repository with a rival request in flight: the rival's
    insert reaches the server after this request's pre-checks and just
    before its own insert. *)
Definition racing_userRepo (rival : entity.User)
  : repository.UserRepository repository.Database :=
  repository.mkUserRepository repository.Database
    (fun user db =>
       repository.Postgres.Create user (snd (repository.Postgres.Create rival db)))
    repository.Postgres.GetByID repository.Postgres.GetByEmail
    repository.Postgres.GetByUsername repository.Postgres.Update
    repository.Postgres.Delete (repository.Postgres.List Reference.ILIKE)
    repository.Postgres.ExistsByEmail repository.Postgres.ExistsByUsername.

(** A rival registration of the email "b@x.com". *)
Definition rival : entity.User :=
  entity.NewUser 1000 "u9" "b@x.com" "bob9"
    (Reference.enc_str "pepper" ++ "Abcdef1!") "Bob R" constants.RoleUser.

Definition request (authorization : option string) : gin.Context :=
  {| gin.Header := match authorization with
                   | Some v => {[ constants.HeaderAuthorization := v ]}
                   | None => ∅
                   end;
     gin.Keys := ∅; gin.index := -1; gin.written := [] |}.

(** A route handler that answers 200 and does not call [c.Next()]. *)
Definition handler : gin.HandlerFunc :=
  fun _ c => gin.JSON 200 {| gin.Success := true; gin.Message := "handled" |} c.


End Sample.

(* ===================================================================== *)
(** ** Assumptions on the libraries and sequences of entity methods *)
(* ===================================================================== *)

Module Laws.

(** bcrypt accepts the password a hash was generated from. *)
Definition verifies_own_hash (B : crypto.Bcrypt) : Prop :=
  forall salt password cost hashed,
    crypto.GenerateFromPassword B salt password cost = Ok hashed ->
    crypto.CompareHashAndPassword B hashed password = None.


End Laws.

Module Methods.
Import entity.

(** A call of one of the methods of [*User] that change the entity,
    with the [time.Now()] it reads. *)
Inductive Mutation : Type :=
  | CallMarkAsDeleted (now : Z)
  | CallUpdateProfile (now : Z) (fullName : string)
  | CallUpdatePassword (now : Z) (hashedPassword : string)
  | CallChangeStatus (now : Z) (status : string).

Definition call (u : User) (m : Mutation) : User :=
  match m with
  | CallMarkAsDeleted now => MarkAsDeleted now u
  | CallUpdateProfile now fullName => UpdateProfile now fullName u
  | CallUpdatePassword now hashedPassword => UpdatePassword now hashedPassword u
  | CallChangeStatus now status => ChangeStatus now status u
  end.

(** The calls [ms] made one after the other. *)
Definition calls (ms : list Mutation) (u : User) : User := fold_left call ms u.

End Methods.

Module Rows.
Import entity.

(** The row an [INSERT] of [Create] stores for an entity: the statement
    names no [deleted_at], so the column is NULL whatever the entity
    holds. *)
Definition inserted (user : User) : User :=
  {| ID := ID user; Email := Email user; Username := Username user;
     Password := Password user; FullName := FullName user;
     Role := Role user; Status := Status user;
     CreatedAt := CreatedAt user; UpdatedAt := UpdatedAt user;
     DeletedAt := None |}.

(** The rows the [WHERE id = $1 AND deleted_at IS NULL] of [Update]
    selects, and what the statement makes of a row. *)
Definition targeted (user u : User) : bool :=
  String.eqb (ID u) (ID user) && repository.live u.

Definition after_update (user u : User) : User :=
  if targeted user u then repository.Postgres.updated_row user u else u.

End Rows.

(* ===================================================================== *)
(** ** Slices of Go strings *)
(* ===================================================================== *)

Module substr.

(** [s[:n]], the first [n] bytes of a string, and [s[n:]], the string
    without them, for [n] within the string. *)
Fixpoint upto (n : nat) (s : string) : string :=
  match n, s with
  | S n', String a rest => String a (upto n' rest)
  | _, _ => ""
  end.

Fixpoint from (n : nat) (s : string) : string :=
  match n, s with
  | S n', String _ rest => from n' rest
  | _, _ => s
  end.

End substr.

(* ===================================================================== *)
(** ** Go's unicode/utf8 and regexp, as far as the program uses them *)
(* ===================================================================== *)

Module utf8.

Definition RuneError : Z := 65533.
Definition RuneSelf : Z := 128.

Definition byte (a : ascii) : Z := Z.of_N (N_of_ascii a).

(** The table [first] of the package: for the first byte of a sequence
    of several bytes, its length and the range of the second byte. *)
Definition first (s0 : Z) : option (nat * Z * Z) :=
  if (194 <=? s0) && (s0 <=? 223) then Some (2%nat, 128, 191)
  else if s0 =? 224 then Some (3%nat, 160, 191)
  else if ((225 <=? s0) && (s0 <=? 236)) || (s0 =? 238) || (s0 =? 239)
  then Some (3%nat, 128, 191)
  else if s0 =? 237 then Some (3%nat, 128, 159)
  else if s0 =? 240 then Some (4%nat, 144, 191)
  else if (241 <=? s0) && (s0 <=? 243) then Some (4%nat, 128, 191)
  else if s0 =? 244 then Some (4%nat, 128, 143)
  else None.

(** A continuation byte, [locb <= b <= hicb]. *)
Definition continuation (b : Z) : bool := (128 <=? b) && (b <=? 191).

(** [utf8.DecodeRuneInString]: the first rune of the string and its
    width in bytes; [(RuneError, 1)] for an encoding that is not valid and
    [(RuneError, 0)] for the empty string. The masks and shifts of the
    package are written as remainders and products. *)
Definition DecodeRuneInString (s : string) : Z * nat :=
  match s with
  | "" => (RuneError, 0%nat)
  | String a0 r0 =>
    let s0 := byte a0 in
    if s0 <? RuneSelf then (s0, 1%nat)
    else
      match first s0, r0 with
      | Some (sz, lo, hi), String a1 r1 =>
        let s1 := byte a1 in
        if (s1 <? lo) || (hi <? s1) then (RuneError, 1%nat)
        else if (sz <=? 2)%nat then (s0 mod 32 * 64 + s1 mod 64, 2%nat)
        else
          match r1 with
          | String a2 r2 =>
            let s2 := byte a2 in
            if negb (continuation s2) then (RuneError, 1%nat)
            else if (sz <=? 3)%nat
            then (s0 mod 16 * 4096 + s1 mod 64 * 64 + s2 mod 64, 3%nat)
            else
              match r2 with
              | String a3 _ =>
                let s3 := byte a3 in
                if negb (continuation s3) then (RuneError, 1%nat)
                else (s0 mod 8 * 262144 + s1 mod 64 * 4096 + s2 mod 64 * 64 + s3 mod 64,
                      4%nat)
              | "" => (RuneError, 1%nat)
              end
          | "" => (RuneError, 1%nat)
          end
      | _, _ => (RuneError, 1%nat)
      end
  end.

(** [utf8.RuneCountInString]; [fuel] bounds the runes counted. *)
Fixpoint count_runes (fuel : nat) (s : string) : Z :=
  match fuel, s with
  | S fuel', String _ _ => 1 + count_runes fuel' (substr.from (snd (DecodeRuneInString s)) s)
  | _, _ => 0
  end.

Definition RuneCountInString (s : string) : Z := count_runes (String.length s) s.

End utf8.

Module regexp.

(** A regular expression after parsing: a class of runes, the two
    anchors of the text, concatenation, and repetition (greedy or not). *)
Inductive Regexp : Type :=
  | Class (negated : bool) (ranges : list (Z * Z))
  | BeginText
  | EndText
  | Cat (r1 r2 : Regexp)
  | Star (greedy : bool) (r : Regexp).

(** One character [c]. *)
Definition Lit (c : ascii) : Regexp := Class false [(utf8.byte c, utf8.byte c)].

(** [r+] and [r{2,}] *)
Definition Plus (r : Regexp) : Regexp := Cat r (Star true r).
Definition AtLeast2 (r : Regexp) : Regexp := Cat r (Cat r (Star true r)).

(** A letter under the flag [(?i)]: the letter in both cases and the
    runes that fold to it ([U+017F] for s, [U+212A] for k); another
    character stands for itself. *)
Definition FoldLit (c : ascii) : Regexp :=
  let b := utf8.byte c in
  let lower := if (65 <=? b) && (b <=? 90) then b + 32 else b in
  if (97 <=? lower) && (lower <=? 122)
  then Class false ([(lower - 32, lower - 32); (lower, lower)] ++
                    (if lower =? 115 then [(383, 383)]
                     else if lower =? 107 then [(8490, 8490)] else []))
  else Lit c.

(** The concatenation of [r] and the expressions of a list. *)
Fixpoint Seq (r : Regexp) (rs : list Regexp) : Regexp :=
  match rs with
  | [] => r
  | r' :: rest => Cat r (Seq r' rest)
  end.

(** The ranges [lo-hi] of a class, and the ranges of the characters of a
    string, each one standing for itself. *)
Definition range (lo hi : ascii) : Z * Z := (utf8.byte lo, utf8.byte hi).

Fixpoint chars (s : string) : list (Z * Z) :=
  match s with
  | "" => []
  | String c rest => (utf8.byte c, utf8.byte c) :: chars rest
  end.

Definition in_class (negated : bool) (ranges : list (Z * Z)) (r : Z) : bool :=
  xorb negated (existsb (fun range => (fst range <=? r) && (r <=? snd range)) ranges).

(** The repetition of a step that reads the expression under the star:
    [n] bounds the number of steps, [k] is what has to match afterwards. A
    greedy star prefers one more step, the other one prefers to stop; the
    repetition goes on only after a step that read something. *)
Fixpoint iterate {R : Type}
    (step : (bool -> string -> option R) -> bool -> string -> option R)
    (greedy : bool) (k : bool -> string -> option R)
    (n : nat) (bot : bool) (s : string) {struct n} : option R :=
  let more :=
    match n with
    | O => None
    | S n' =>
        step (fun bot' s' =>
                if (String.length s' <? String.length s)%nat
                then iterate step greedy k n' bot' s' else None) bot s
    end in
  if greedy
  then match more with Some x => Some x | None => k bot s end
  else match k bot s with Some x => Some x | None => more end.

(** A backtracking run of [re] on the text [s], of which [bot] says
    whether it starts at the beginning of the whole text; [k] is what has
    to match afterwards. The alternatives are tried in the order of
    preference of the expression, so the first success is the match the
    package reports for this starting point (leftmost-first). *)
Fixpoint backtrack {R : Type} (re : Regexp) (k : bool -> string -> option R)
    (bot : bool) (s : string) {struct re} : option R :=
  match re with
  | Class negated ranges =>
      match s with
      | "" => None
      | String _ _ =>
          let (r, w) := utf8.DecodeRuneInString s in
          if in_class negated ranges r then k false (substr.from w s) else None
      end
  | BeginText => if bot then k bot s else None
  | EndText => match s with "" => k bot s | String _ _ => None end
  | Cat r1 r2 => backtrack r1 (backtrack r2 k) bot s
  | Star greedy r1 => iterate (backtrack r1) greedy k (String.length s) bot s
  end.

(** The match of [re] that starts where [s] starts: what is left of [s]
    after it. *)
Definition match_here (re : Regexp) (bot : bool) (s : string) : option string :=
  backtrack re (fun _ rest => Some rest) bot s.

(** The leftmost match in [s]: the number of bytes before it and what is
    left of [s] after it. The search moves on by one rune. *)
Fixpoint find (fuel : nat) (re : Regexp) (bot : bool) (s : string)
  : option (nat * string) :=
  match match_here re bot s with
  | Some rest => Some (O, rest)
  | None =>
      match fuel, s with
      | S fuel', String _ _ =>
          let w := snd (utf8.DecodeRuneInString s) in
          match find fuel' re false (substr.from w s) with
          | Some (n, rest) => Some ((w + n)%nat, rest)
          | None => None
          end
      | _, _ => None
      end
  end.

Definition MatchString (re : Regexp) (s : string) : bool :=
  match find (String.length s) re true s with
  | Some _ => true
  | None => false
  end.

(** [re.ReplaceAllString(src, repl)] for a [repl] without [$]: the
    loop of the package over the matches from left to right. [bot] says
    that the search is at the beginning of [src], [adjacent] that it is
    where the last match ended. *)
Fixpoint replace_from (fuel : nat) (re : Regexp) (repl : string)
    (bot adjacent : bool) (s : string) : string :=
  match fuel with
  | O => s
  | S fuel' =>
      match find (String.length s) re bot s with
      | None => s
      | Some (n, rest) =>
          let before := substr.upto n s in
          if (n + String.length rest <? String.length s)%nat
          then before ++ repl ++ replace_from fuel' re repl false true rest
          else
            (* the empty match; no replacement right after another match *)
            let ins := if (n =? 0)%nat && adjacent && negb bot then "" else repl in
            match rest with
            | "" => before ++ ins
            | String _ _ =>
                let w := snd (utf8.DecodeRuneInString rest) in
                before ++ ins ++ substr.upto w rest ++
                  replace_from fuel' re repl false false (substr.from w rest)
            end
      end
  end.

Definition ReplaceAllString (re : Regexp) (src repl : string) : string :=
  replace_from (S (String.length src)) re repl true true src.

(** What it means that [re] matches: from the text on the left it reads
    a prefix and leaves the text on the right; the flag says whether the
    text is still the whole text, from its beginning. *)
Inductive Matches : Regexp -> bool * string -> bool * string -> Prop :=
  | Matches_Class negated ranges bot a rest r w :
      utf8.DecodeRuneInString (String a rest) = (r, w) ->
      in_class negated ranges r = true ->
      Matches (Class negated ranges) (bot, String a rest)
        (false, substr.from w (String a rest))
  | Matches_BeginText s : Matches BeginText (true, s) (true, s)
  | Matches_EndText bot : Matches EndText (bot, "") (bot, "")
  | Matches_Cat r1 r2 st st1 st2 :
      Matches r1 st st1 -> Matches r2 st1 st2 -> Matches (Cat r1 r2) st st2
  | Matches_Star_stop greedy r st : Matches (Star greedy r) st st
  | Matches_Star_more greedy r st st1 st2 :
      Matches r st st1 -> (String.length (snd st1) < String.length (snd st))%nat ->
      Matches (Star greedy r) st1 st2 -> Matches (Star greedy r) st st2.

End regexp.

(* ===================================================================== *)
(** ** Kinds of ASCII characters *)
(* ===================================================================== *)

Module Chars.

Definition upper (a : ascii) : Prop := utf8.byte "A" <= utf8.byte a <= utf8.byte "Z".
Definition lower (a : ascii) : Prop := utf8.byte "a" <= utf8.byte a <= utf8.byte "z".
Definition digit (a : ascii) : Prop := utf8.byte "0" <= utf8.byte a <= utf8.byte "9".
Definition letter (a : ascii) : Prop := lower a \/ upper a.
Definition alphanumeric (a : ascii) : Prop := letter a \/ digit a.

(** The character is one of those of [s]. *)
Definition among (s : string) (a : ascii) : Prop := In a (list_ascii_of_string s).

(** Every byte of [s] satisfies [P]. *)
Definition all (P : ascii -> Prop) (s : string) : Prop :=
  forall a, In a (list_ascii_of_string s) -> P a.

(** Some byte of [s] satisfies [P]. *)
Definition some (P : ascii -> Prop) (s : string) : Prop :=
  exists a, In a (list_ascii_of_string s) /\ P a.

(** Somewhere in [s] the byte [a] stands before a byte [b]. *)
Definition follows (a b : ascii) (s : string) : Prop :=
  exists x y z, s = x ++ String a (y ++ String b z).

End Chars.

(* ===================================================================== *)
(** ** internal/shared/utils *)
(* ===================================================================== *)

Module utils.

(** The slice expression [s[:hi]]; [None] is the run-time panic of an
    index out of range. *)
Definition slice_to (s : string) (hi : Z) : option string :=
  if (hi <? 0) || (Z.of_nat (String.length s) <? hi) then None
  else Some (substr.upto (Z.to_nat hi) s).

Definition TruncateString (s : string) (maxLen : Z) : option string :=
  if Z.of_nat (String.length s) <=? maxLen then Some s
  else if maxLen <=? 3 then slice_to s maxLen
  else match slice_to s (maxLen - 3) with
       | Some kept => Some (kept ++ "...")
       | None => None
       end.

Fixpoint SliceContains (slice : list string) (item : string) : bool :=
  match slice with
  | [] => false
  | s :: rest => if String.eqb s item then true else SliceContains rest item
  end.

(** The loop of [RemoveDuplicates] over the rest of the slice, with the
    map [keys] and the slice [result] built so far. *)
Fixpoint RemoveDuplicates_from (slice : list string) (keys : gmap string bool)
    (result : list string) : list string :=
  match slice with
  | [] => result
  | entry :: rest =>
      match keys !! entry with
      | Some _ => RemoveDuplicates_from rest keys result
      | None => RemoveDuplicates_from rest (<[entry := true]> keys) (result ++ [entry])
      end
  end.

Definition RemoveDuplicates (slice : list string) : list string :=
  RemoveDuplicates_from slice ∅ [].

(** [page], [pageSize] are [int], [total] is [int64], both 64 bits wide;
    [/] and [%] truncate towards zero. The result is [(offset, limit,
    totalPages)]. *)
Definition Paginate (page pageSize : Z) (total : Z) : Z * Z * Z :=
  let page := if page <? 1 then 1 else page in
  let pageSize := if pageSize <? 1 then 20 else pageSize in
  let offset := repository.wrap64 ((page - 1) * pageSize) in
  let limit := pageSize in
  let totalPages := repository.wrap64 (Z.quot total pageSize) in
  let totalPages :=
    if negb (Z.rem total pageSize =? 0) then repository.wrap64 (totalPages + 1)
    else totalPages in
  (offset, limit, totalPages).

(** [`^[a-zA-Z0-9._%+\-]+@[a-zA-Z0-9.\-]+\.[a-zA-Z]{2,}$`] *)
Definition emailRegex : regexp.Regexp :=
  regexp.Seq regexp.BeginText
    [regexp.Plus (regexp.Class false
                    ([regexp.range "a" "z"; regexp.range "A" "Z"; regexp.range "0" "9"]
                     ++ regexp.chars "._%+-"));
     regexp.Lit "@";
     regexp.Plus (regexp.Class false
                    ([regexp.range "a" "z"; regexp.range "A" "Z"; regexp.range "0" "9"]
                     ++ regexp.chars ".-"));
     regexp.Lit ".";
     regexp.AtLeast2 (regexp.Class false [regexp.range "a" "z"; regexp.range "A" "Z"]);
     regexp.EndText].

Definition IsValidEmail (email : string) : bool :=
  regexp.MatchString emailRegex email.

(** [`<[^>]*>`] *)
Definition tagRegex : regexp.Regexp :=
  regexp.Seq (regexp.Lit "<")
    [regexp.Star true (regexp.Class true (regexp.chars ">")); regexp.Lit ">"].

(** [`(?i)<script[^>]*>.*?</script>`]; the dot is any rune but a new
    line. *)
Definition scriptRegex : regexp.Regexp :=
  regexp.Seq (regexp.Lit "<")
    (map regexp.FoldLit (list_ascii_of_string "script") ++
     [regexp.Star true (regexp.Class true (regexp.chars ">")); regexp.Lit ">";
      regexp.Star false (regexp.Class true [(10, 10)]);
      regexp.Lit "<"; regexp.Lit "/"] ++
     map regexp.FoldLit (list_ascii_of_string "script") ++
     [regexp.Lit ">"]).

Section Sanitize.
(** [strings.TrimSpace], which cuts the white space of Unicode off both
    ends of a string. *)
Variable TrimSpace : string -> string.

Definition Sanitize (input : string) : string :=
  (* Remove HTML tags *)
  let sanitized := regexp.ReplaceAllString tagRegex input "" in
  (* Remove script tags and their content *)
  let sanitized := regexp.ReplaceAllString scriptRegex sanitized "" in
  (* Trim whitespace *)
  TrimSpace sanitized.
End Sanitize.

End utils.

(* ===================================================================== *)
(** ** pkg/response: the page data of a list *)
(* ===================================================================== *)

Module body.

Record Meta : Type := mkMeta {
  Page : Z;
  PageSize : Z;
  TotalItems : Z;
  TotalPages : Z
}.

(** [None] is the run-time panic of an integer division by zero. *)
Definition NewMeta (page pageSize : Z) (totalItems : Z) : option Meta :=
  if pageSize =? 0 then None
  else
    let totalPages := repository.wrap64 (Z.quot totalItems pageSize) in
    let totalPages :=
      if negb (Z.rem totalItems pageSize =? 0) then repository.wrap64 (totalPages + 1)
      else totalPages in
    Some {| Page := page; PageSize := pageSize; TotalItems := totalItems;
            TotalPages := totalPages |}.

End body.

(* ===================================================================== *)
(** ** pkg/validator: the custom validators *)
(* ===================================================================== *)

Module validator.

(** [validatePassword] on the string of the field. *)
Definition validatePassword (password : string) : bool :=
  (* Minimum 8 characters *)
  if (String.length password <? 8)%nat then false
  else
    (* At least one uppercase letter *)
    let hasUpper := regexp.MatchString (regexp.Class false [regexp.range "A" "Z"])
                      password in
    (* At least one lowercase letter *)
    let hasLower := regexp.MatchString (regexp.Class false [regexp.range "a" "z"])
                      password in
    (* At least one digit *)
    let hasDigit := regexp.MatchString (regexp.Class false [regexp.range "0" "9"])
                      password in
    (* At least one special character *)
    let hasSpecial :=
      regexp.MatchString
        (regexp.Class false
           (regexp.chars "!@#$%^&*(),.?" ++ [(34, 34)] ++ regexp.chars ":{}|<>"))
        password in
    hasUpper && hasLower && hasDigit && hasSpecial.

(** [validateUsername] on the string of the field. *)
Definition validateUsername (username : string) : bool :=
  (* Length between 3 and 30 *)
  if (String.length username <? 3)%nat || (30 <? String.length username)%nat then false
  else
    (* Only alphanumeric, underscore, and hyphen *)
    regexp.MatchString
      (regexp.Seq regexp.BeginText
         [regexp.Plus (regexp.Class false
                         ([regexp.range "a" "z"; regexp.range "A" "Z";
                           regexp.range "0" "9"] ++ regexp.chars "_-"));
          regexp.EndText])
      username.

End validator.

(* ===================================================================== *)
(** ** The handlers of the profile routes *)
(* ===================================================================== *)

Module userHttp.
Import gin.

Section UserHandler.
(** What each handler does once it holds the id of the caller: the
    binding and the validation of the request, the call of the use case
    and the answer. *)
Variable getProfile : string -> Context -> Context.
Variable updateProfile : string -> Context -> Context.
Variable changePassword : string -> Context -> Context.

Definition GetProfile : HandlerFunc :=
  fun _ c =>
    let userID := GetString c constants.ContextKeyUserID in
    if String.eqb userID "" then response.Unauthorized "Unauthorized" c
    else getProfile userID c.

Definition UpdateProfile : HandlerFunc :=
  fun _ c =>
    let userID := GetString c constants.ContextKeyUserID in
    if String.eqb userID "" then response.Unauthorized "Unauthorized" c
    else updateProfile userID c.

Definition ChangePassword : HandlerFunc :=
  fun _ c =>
    let userID := GetString c constants.ContextKeyUserID in
    if String.eqb userID "" then response.Unauthorized "Unauthorized" c
    else changePassword userID c.
End UserHandler.

End userHttp.

(* ===================================================================== *)
(** * Properties *)
(* ===================================================================== *)

(** ** Strings *)

Lemma append_cons a s r : String a s ++ r = String a (s ++ r).
Proof. reflexivity. Qed.

Lemma append_assoc s1 s2 s3 : (s1 ++ s2) ++ s3 = s1 ++ (s2 ++ s3).
Proof.
  induction s1 as [|a s1 IH]; [reflexivity|].
  rewrite !append_cons. by f_equal.
Qed.

Lemma length_append s1 s2 :
  String.length (s1 ++ s2) = (String.length s1 + String.length s2)%nat.
Proof.
  induction s1 as [|a s1 IH]; [reflexivity|].
  rewrite append_cons. simpl. by f_equal.
Qed.

(** ** The reference library reads back what it writes *)

Module ReferenceFacts.
Import Jwt Reference.

Lemma dec_enc_nat n r : dec_nat (enc_nat n ++ r) = Some (n, r).
Proof.
  induction n as [|n IH]; [reflexivity|].
  simpl enc_nat. rewrite append_cons. simpl. by rewrite IH.
Qed.

Lemma take_str_append s r : take_str (String.length s) (s ++ r) = Some (s, r).
Proof.
  induction s as [|a s IH]; [reflexivity|].
  rewrite append_cons. simpl. by rewrite IH.
Qed.

Lemma dec_enc_str s r : dec_str (enc_str s ++ r) = Some (s, r).
Proof.
  unfold dec_str, enc_str. rewrite append_assoc, dec_enc_nat.
  apply take_str_append.
Qed.

Lemma dec_enc_pos p r : dec_pos (enc_pos p ++ r) = Some (p, r).
Proof.
  induction p as [p IH|p IH|]; simpl enc_pos; rewrite ?append_cons; simpl;
    by rewrite ?IH.
Qed.

Lemma dec_enc_Z z r : dec_Z (enc_Z z ++ r) = Some (z, r).
Proof.
  destruct z as [|p|p]; simpl enc_Z; rewrite ?append_cons; cbn [dec_Z];
    [reflexivity| |]; by rewrite dec_enc_pos.
Qed.

Lemma dec_enc_json v r : dec_json (enc_json v ++ r) = Some (v, r).
Proof.
  destruct v; simpl enc_json; rewrite append_cons; cbn [dec_json].
  - by rewrite dec_enc_str.
  - by rewrite dec_enc_Z.
Qed.

Lemma enc_obj_longer o : (length o < String.length (enc_obj o))%nat.
Proof.
  induction o as [|[k v] o IH]; simpl; [lia|].
  rewrite !length_append. lia.
Qed.

Lemma dec_enc_obj o :
  forall r fuel, (length o < fuel)%nat -> dec_obj fuel (enc_obj o ++ r) = Some (o, r).
Proof.
  induction o as [|[k v] o IH]; intros r fuel Hfuel;
    (destruct fuel as [|fuel]; [simpl in Hfuel; lia|]).
  - reflexivity.
  - simpl enc_obj. rewrite append_cons. simpl dec_obj.
    rewrite !append_assoc, dec_enc_str, dec_enc_json, IH; [done|].
    simpl in Hfuel. lia.
Qed.

Lemma lib_reads_back : reads_back lib.
Proof.
  intros h c sig. simpl. unfold split_token, join_signature, SigningString.
  rewrite !append_assoc, dec_enc_obj.
  2:{ rewrite length_append. pose proof (enc_obj_longer h). lia. }
  rewrite append_cons, dec_enc_obj; [done|].
  rewrite length_append. pose proof (enc_obj_longer c). lia.
Qed.

End ReferenceFacts.

(** ** Errors *)

Lemma invalid_wrap_kind {A} :
  Spec.invalid_kind (@Err A (Errorf "%w: %v" [Jwt.ErrInvalidToken])) = true.
Proof. reflexivity. Qed.

Lemma expired_kind_ErrExpiredToken {A} :
  Spec.expired_kind (@Err A Jwt.ErrExpiredToken) = true.
Proof. reflexivity. Qed.

(** ** Claim sets and their JSON *)

Module JwtFacts.
Import Jwt.

Lemma omit_string_cases k s :
  (s = "" /\ omit_string k s = []) \/ (s <> "" /\ omit_string k s = [(k, JString s)]).
Proof.
  unfold omit_string. destruct (String.eqb_spec s ""); [left|right]; done.
Qed.

(** Decoding the JSON of a [Claims] into a [RegisteredClaims] succeeds and
    yields the embedded registered claims: the members [user_id], [email]
    and [role] are skipped. *)
Lemma unmarshal_Registered_of_Claims c :
  unmarshal_RegisteredClaims (marshal_Claims c) = Some (Registered c).
Proof.
  destruct c as [uid email role [sub exp nbf iat jti]].
  unfold marshal_Claims, marshal_RegisteredClaims; cbn [Registered UserID Email Role
    Subject ExpiresAt NotBefore IssuedAt ID].
  destruct (omit_string_cases "sub" sub) as [[-> ->]|[? ->]];
  destruct (omit_string_cases "jti" jti) as [[-> ->]|[? ->]];
  destruct exp, nbf, iat; reflexivity.
Qed.

Lemma unmarshal_Claims_of_Claims c :
  unmarshal_Claims (marshal_Claims c) = Some c.
Proof.
  destruct c as [uid email role [sub exp nbf iat jti]].
  unfold marshal_Claims, marshal_RegisteredClaims; cbn [Registered UserID Email Role
    Subject ExpiresAt NotBefore IssuedAt ID].
  destruct (omit_string_cases "sub" sub) as [[-> ->]|[? ->]];
  destruct (omit_string_cases "jti" jti) as [[-> ->]|[? ->]];
  destruct exp, nbf, iat; reflexivity.
Qed.

Lemma unmarshal_Registered_of_Registered r :
  unmarshal_RegisteredClaims (marshal_RegisteredClaims r) = Some r.
Proof.
  destruct r as [sub exp nbf iat jti].
  unfold marshal_RegisteredClaims; cbn [Subject ExpiresAt NotBefore IssuedAt ID].
  destruct (omit_string_cases "sub" sub) as [[-> ->]|[? ->]];
  destruct (omit_string_cases "jti" jti) as [[-> ->]|[? ->]];
  destruct exp, nbf, iat; reflexivity.
Qed.

End JwtFacts.

(** ** pkg/jwt *)

Section JwtProperties.
Import Jwt.
Variable L : Library.

(** A token the manager signed parses, under the same manager, up to
    the validation of its registered claims. *)
Lemma ParseWithClaims_own_token {C : Type}
    (unmarshal : JObject -> option C) (registered : C -> RegisteredClaims)
    (m : Manager) (now : Z) (claims : JObject) (c : C) (t : string) :
  reads_back L ->
  SignedString L "HS256" (secretKey m) claims = Ok t ->
  unmarshal claims = Some c ->
  ParseWithClaims L unmarshal registered (keyFunc m) now t =
    match validate now (registered c) with
    | [] => Ok (mkToken (SigningMethodHMAC "HS256") c true)
    | errs => Err (Errorf "" [Sentinel lib_ErrTokenInvalidClaims; Errorf "" errs])
    end.
Proof.
  intros Hrb Hsigned Hun. unfold SignedString in Hsigned.
  injection Hsigned as <-. unfold ParseWithClaims.
  rewrite Hrb. cbn [payload header signing_input signature].
  rewrite Hun. cbn [member String.eqb Ascii.eqb Bool.eqb].
  change (GetSigningMethod "HS256") with (Some (SigningMethodHMAC "HS256")).
  cbn [keyFunc Verify]. by rewrite bool_decide_true.
Qed.

Lemma validate_in_window now (r : RegisteredClaims) issued expires :
  NotBefore r = Some issued -> ExpiresAt r = Some expires ->
  issued <= now < expires -> validate now r = [].
Proof.
  intros Hn He [H1 H2]. unfold validate. rewrite Hn, He.
  destruct (Z.ltb_spec now expires); [|lia].
  destruct (Z.leb_spec issued now); [done|lia].
Qed.

Lemma validate_expired now (r : RegisteredClaims) expires :
  ExpiresAt r = Some expires -> expires <= now ->
  exists rest, validate now r = Sentinel lib_ErrTokenExpired :: rest.
Proof.
  intros He H. unfold validate. rewrite He.
  destruct (Z.ltb_spec now expires); [lia|]. eauto.
Qed.

(** An access token is accepted by [ValidateRefreshToken] while it has
    not expired, and is refused as expired afterwards. *)
Lemma ValidateRefreshToken_access_token m now jti userID email role t now' :
  reads_back L ->
  GenerateAccessToken L m now jti userID email role = Ok t ->
  (now <= now' < now + accessTokenDuration m ->
     ValidateRefreshToken L m now' t = Ok userID) /\
  (now + accessTokenDuration m <= now' ->
     ValidateRefreshToken L m now' t = Err ErrExpiredToken).
Proof.
  intros Hrb Hgen. unfold GenerateAccessToken in Hgen.
  unfold ValidateRefreshToken.
  rewrite (ParseWithClaims_own_token _ _ m now' _ _ t Hrb Hgen
             (JwtFacts.unmarshal_Registered_of_Claims _)).
  split; intros Hwin.
  - rewrite (validate_in_window now' _ now (now + accessTokenDuration m));
      [reflexivity|reflexivity|reflexivity|done].
  - destruct (validate_expired now' (Registered (access_claims m now jti userID email role))
                (now + accessTokenDuration m)) as [rest ->]; [reflexivity|done|].
    reflexivity.
Qed.

Lemma ValidateRefreshToken_refresh_token m now jti userID t now' :
  reads_back L ->
  GenerateRefreshToken L m now jti userID = Ok t ->
  now <= now' < now + refreshTokenDuration m ->
  ValidateRefreshToken L m now' t = Ok userID.
Proof.
  intros Hrb Hgen Hwin. unfold GenerateRefreshToken in Hgen.
  unfold ValidateRefreshToken.
  rewrite (ParseWithClaims_own_token _ _ m now' _ _ t Hrb Hgen
             (JwtFacts.unmarshal_Registered_of_Registered _)).
  rewrite (validate_in_window now' _ now (now + refreshTokenDuration m));
    [reflexivity|reflexivity|reflexivity|done].
Qed.

Lemma ValidateAccessToken_access_token m now jti userID email role t now' :
  reads_back L ->
  GenerateAccessToken L m now jti userID email role = Ok t ->
  now <= now' < now + accessTokenDuration m ->
  ValidateAccessToken L m now' t = Ok (access_claims m now jti userID email role).
Proof.
  intros Hrb Hgen Hwin. unfold GenerateAccessToken in Hgen.
  unfold ValidateAccessToken.
  rewrite (ParseWithClaims_own_token _ _ m now' _ _ t Hrb Hgen
             (JwtFacts.unmarshal_Claims_of_Claims _)).
  rewrite (validate_in_window now' _ now (now + accessTokenDuration m));
    [reflexivity|reflexivity|reflexivity|done].
Qed.

(** Both generators always return a token. *)
Lemma GenerateAccessToken_ok m now jti userID email role :
  exists t, GenerateAccessToken L m now jti userID email role = Ok t.
Proof. unfold GenerateAccessToken, SignedString. eauto. Qed.

Lemma GenerateRefreshToken_ok m now jti userID :
  exists t, GenerateRefreshToken L m now jti userID = Ok t.
Proof. unfold GenerateRefreshToken, SignedString. eauto. Qed.

End JwtProperties.

(** ** C1: the refresh flow and access tokens *)

Section RefreshFlow.
Import Jwt.
Context {DB : Type}.
Variable userRepo : repository.UserRepository DB.
Variable L : Library.
Variable jwtManager : Manager.

(** Once the token has validated, [RefreshToken] depends on it only
    through the user id it carries. *)
Lemma RefreshToken_by_subject now jtiAccess jtiRefresh t t' userID w :
  ValidateRefreshToken L jwtManager now t = Ok userID ->
  ValidateRefreshToken L jwtManager now t' = Ok userID ->
  usecase.RefreshToken userRepo L jwtManager now jtiAccess jtiRefresh
    (dto.mkRefreshTokenRequest t) w =
  usecase.RefreshToken userRepo L jwtManager now jtiAccess jtiRefresh
    (dto.mkRefreshTokenRequest t') w.
Proof.
  intros H H'. unfold usecase.RefreshToken. cbn [dto.req_RefreshToken].
  by rewrite H, H'.
Qed.

Lemma RefreshToken_active_user now jtiAccess jtiRefresh t userID user w :
  ValidateRefreshToken L jwtManager now t = Ok userID ->
  repository.GetByID userRepo userID (usecase.db w) = Ok user ->
  entity.IsActive user = true ->
  is_ok (fst (usecase.RefreshToken userRepo L jwtManager now jtiAccess jtiRefresh
                (dto.mkRefreshTokenRequest t) w)) = true.
Proof.
  intros Hv Hget Hact. unfold usecase.RefreshToken. cbn [dto.req_RefreshToken].
  rewrite Hv. unfold usecase.bind, usecase.userRepo_GetByID.
  rewrite Hget, Hact. reflexivity.
Qed.

Lemma RefreshToken_rejected_token now jtiAccess jtiRefresh t e w :
  ValidateRefreshToken L jwtManager now t = Err e ->
  usecase.RefreshToken userRepo L jwtManager now jtiAccess jtiRefresh
    (dto.mkRefreshTokenRequest t) w = (Err errors.ErrInvalidToken, w).
Proof.
  intros Hv. unfold usecase.RefreshToken. cbn [dto.req_RefreshToken].
  by rewrite Hv.
Qed.
End RefreshFlow.

(** C1, as the code has it: an access token issued by
    [GenerateAccessToken] is accepted by [ValidateRefreshToken] of the same
    manager from its issue until its expiry, with the user id as result, so
    that [RefreshToken] treats it exactly as it treats a refresh token of
    that user and succeeds for an active user; from the expiry of the
    access token on, [ValidateRefreshToken] reports it expired and
    [RefreshToken] fails with the invalid-token error. *)
Theorem C1_access_token_refreshes_until_expiry
    {DB : Type} (userRepo : repository.UserRepository DB)
    (L : Jwt.Library) (m : Jwt.Manager)
    (now : Z) (jti userID email role : string) (accessToken : string)
    (now' : Z) (jtiAccess jtiRefresh : string) (w : usecase.World DB) :
  Jwt.reads_back L ->
  Jwt.GenerateAccessToken L m now jti userID email role = Ok accessToken ->
  (now <= now' < now + Jwt.accessTokenDuration m ->
     Jwt.ValidateRefreshToken L m now' accessToken = Ok userID /\
     (forall refreshToken,
        Jwt.ValidateRefreshToken L m now' refreshToken = Ok userID ->
        usecase.RefreshToken userRepo L m now' jtiAccess jtiRefresh
          (dto.mkRefreshTokenRequest accessToken) w =
        usecase.RefreshToken userRepo L m now' jtiAccess jtiRefresh
          (dto.mkRefreshTokenRequest refreshToken) w) /\
     (forall user,
        repository.GetByID userRepo userID (usecase.db w) = Ok user ->
        entity.IsActive user = true ->
        is_ok (fst (usecase.RefreshToken userRepo L m now' jtiAccess jtiRefresh
                      (dto.mkRefreshTokenRequest accessToken) w)) = true)) /\
  (now + Jwt.accessTokenDuration m <= now' ->
     Jwt.ValidateRefreshToken L m now' accessToken = Err Jwt.ErrExpiredToken /\
     usecase.RefreshToken userRepo L m now' jtiAccess jtiRefresh
       (dto.mkRefreshTokenRequest accessToken) w = (Err errors.ErrInvalidToken, w)).
Proof.
  intros Hrb Hgen.
  destruct (ValidateRefreshToken_access_token L m now jti userID email role
              accessToken now' Hrb Hgen) as [Hin Hout].
  split; intros Hwin.
  - specialize (Hin Hwin). split; [exact Hin|]. split.
    + intros refreshToken Hr. by apply RefreshToken_by_subject with userID.
    + intros user Hget Hact. by apply RefreshToken_active_user with userID user.
  - specialize (Hout Hwin). split; [exact Hout|].
    by apply RefreshToken_rejected_token with Jwt.ErrExpiredToken.
Qed.

(** C1 at the sample data: the access token of the active user [u1],
    presented to the refresh flow one second after its issue. *)
Lemma C1_witness :
  Jwt.ValidateRefreshToken Reference.lib Sample.manager 1001 Sample.access_token
    = Ok "u1" /\
  is_ok (fst (usecase.RefreshToken Sample.userRepo Reference.lib Sample.manager 1001
                "jti-b" "jti-c" (dto.mkRefreshTokenRequest Sample.access_token)
                (Sample.world [Sample.alice] ∅))) = true.
Proof.
  destruct (C1_access_token_refreshes_until_expiry Sample.userRepo Reference.lib
              Sample.manager 1000 "jti-a" "u1" "a@x.com" "user" Sample.access_token
              1001 "jti-b" "jti-c" (Sample.world [Sample.alice] ∅)
              ReferenceFacts.lib_reads_back eq_refl) as [Hin _].
  destruct Hin as (Hv & _ & Hactive); [simpl; lia|].
  split; [exact Hv|].
  apply (Hactive Sample.alice); reflexivity.
Defined.

(** C1 as stated fails: the refresh flow, given the access token of an
    active user, does not fail with the invalid-token error; it succeeds
    and returns a new pair of tokens. *)
Lemma C1_counterexample :
  Jwt.GenerateAccessToken Reference.lib Sample.manager 1000 "jti-a" "u1" "a@x.com" "user"
    = Ok Sample.access_token /\
  Jwt.ValidateRefreshToken Reference.lib Sample.manager 1001 Sample.access_token
    = Ok "u1" /\
  failed_with
    (fst (usecase.RefreshToken Sample.userRepo Reference.lib Sample.manager 1001
            "jti-b" "jti-c" (dto.mkRefreshTokenRequest Sample.access_token)
            (Sample.world [Sample.alice] ∅)))
    shared_ErrInvalidToken = false /\
  exists access refresh,
    fst (usecase.RefreshToken Sample.userRepo Reference.lib Sample.manager 1001
           "jti-b" "jti-c" (dto.mkRefreshTokenRequest Sample.access_token)
           (Sample.world [Sample.alice] ∅))
    = Ok (dto.mkRefreshTokenResponse access refresh "Bearer" 900).
Proof.
  split; [reflexivity|]. split; [vm_compute; reflexivity|].
  split; [vm_compute; reflexivity|].
  eexists _, _. vm_compute. reflexivity.
Qed.

(** ** C4: the two kinds of failure of [ValidateAccessToken] *)

Section AccessTokenFailures.
Import Jwt.
Variable L : Library.
Variable m : Manager.
Variable now : Z.

(** Whatever the parser answers, the validator's failure is
    [ErrExpiredToken] itself or wraps [ErrInvalidToken] and nothing
    else. *)
Lemma ValidateAccessToken_two_kinds tokenString :
  is_ok (ValidateAccessToken L m now tokenString) = false ->
  (Spec.expired_kind (ValidateAccessToken L m now tokenString) = true /\
   Spec.invalid_kind (ValidateAccessToken L m now tokenString) = false) \/
  (Spec.invalid_kind (ValidateAccessToken L m now tokenString) = true /\
   Spec.expired_kind (ValidateAccessToken L m now tokenString) = false).
Proof.
  unfold ValidateAccessToken.
  destruct (ParseWithClaims L unmarshal_Claims Registered (keyFunc m) now tokenString)
    as [token|err].
  - destruct (Valid token); cbn; [discriminate|]. intros _. right. done.
  - destruct (Is err lib_ErrTokenExpired); intros _; [left|right]; done.
Qed.

Lemma GetSigningMethod_HMAC alg a :
  GetSigningMethod alg = Some (SigningMethodHMAC a) -> a = alg.
Proof.
  unfold GetSigningMethod. destruct (existsb _ _); [by intros [= <-]|].
  by destruct (existsb _ _).
Qed.

(** Expiry is looked at only once the signature has verified. *)
Lemma ValidateAccessToken_expired_only_verified tokenString :
  Spec.expired_kind (ValidateAccessToken L m now tokenString) = true ->
  exists seg alg,
    split_token L tokenString = Some seg /\
    member "alg" (header seg) = Some (JString alg) /\
    GetSigningMethod alg = Some (SigningMethodHMAC alg) /\
    signature seg = hmac L alg (secretKey m) (signing_input seg).
Proof.
  unfold ValidateAccessToken, ParseWithClaims.
  destruct (split_token L tokenString) as [seg|] eqn:Hs; [|done].
  destruct (unmarshal_Claims (payload seg)) as [c|] eqn:Hu; [|done].
  destruct (member "alg" (header seg)) as [[alg|?]|] eqn:Ha; [|done..].
  destruct (GetSigningMethod alg) as [[a|a]|] eqn:Hm; [|done..].
  apply GetSigningMethod_HMAC in Hm as Heq. subst a.
  cbn [keyFunc Verify]. case_bool_decide as Hsig; [|done].
  intros _. by exists seg, alg.
Qed.

Lemma ValidateAccessToken_expired tokenString seg claims alg expires :
  split_token L tokenString = Some seg ->
  payload seg = marshal_Claims claims ->
  member "alg" (header seg) = Some (JString alg) ->
  GetSigningMethod alg = Some (SigningMethodHMAC alg) ->
  signature seg = hmac L alg (secretKey m) (signing_input seg) ->
  ExpiresAt (Registered claims) = Some expires ->
  expires <= now ->
  ValidateAccessToken L m now tokenString = Err ErrExpiredToken.
Proof.
  intros Hs Hp Ha Hm Hsig He Hle. unfold ValidateAccessToken, ParseWithClaims.
  rewrite Hs, Hp, JwtFacts.unmarshal_Claims_of_Claims, Ha, Hm. cbn [keyFunc Verify].
  rewrite bool_decide_true by done.
  destruct (validate_expired now (Registered claims) expires He Hle) as [rest ->].
  reflexivity.
Qed.

Lemma ValidateAccessToken_malformed tokenString :
  split_token L tokenString = None ->
  Spec.invalid_kind (ValidateAccessToken L m now tokenString) = true.
Proof.
  intros Hs. unfold ValidateAccessToken, ParseWithClaims. by rewrite Hs.
Qed.

Lemma ValidateAccessToken_no_alg tokenString seg :
  split_token L tokenString = Some seg ->
  (forall alg, member "alg" (header seg) <> Some (JString alg)) ->
  Spec.invalid_kind (ValidateAccessToken L m now tokenString) = true.
Proof.
  intros Hs Ha. unfold ValidateAccessToken, ParseWithClaims.
  rewrite Hs. destruct (unmarshal_Claims (payload seg)); [|done].
  destruct (member "alg" (header seg)) as [[alg|?]|]; [|done..].
  by destruct (Ha alg).
Qed.

Lemma ValidateAccessToken_not_HMAC tokenString seg alg :
  split_token L tokenString = Some seg ->
  member "alg" (header seg) = Some (JString alg) ->
  (forall a, GetSigningMethod alg <> Some (SigningMethodHMAC a)) ->
  Spec.invalid_kind (ValidateAccessToken L m now tokenString) = true.
Proof.
  intros Hs Ha Hm. unfold ValidateAccessToken, ParseWithClaims.
  rewrite Hs. destruct (unmarshal_Claims (payload seg)); [|done].
  rewrite Ha. destruct (GetSigningMethod alg) as [[a|a]|]; [|done..].
  by destruct (Hm a).
Qed.

Lemma ValidateAccessToken_bad_signature tokenString seg alg :
  split_token L tokenString = Some seg ->
  member "alg" (header seg) = Some (JString alg) ->
  GetSigningMethod alg = Some (SigningMethodHMAC alg) ->
  signature seg <> hmac L alg (secretKey m) (signing_input seg) ->
  Spec.invalid_kind (ValidateAccessToken L m now tokenString) = true.
Proof.
  intros Hs Ha Hm Hsig. unfold ValidateAccessToken, ParseWithClaims.
  rewrite Hs. destruct (unmarshal_Claims (payload seg)); [|done].
  rewrite Ha, Hm. cbn [keyFunc Verify]. by rewrite bool_decide_false.
Qed.

(** A number where a claim is a text. *)
Lemma ValidateAccessToken_number_for_text tokenString seg k n :
  split_token L tokenString = Some seg ->
  In k ["user_id"; "email"; "role"; "sub"; "jti"] ->
  member k (payload seg) = Some (JNumber n) ->
  Spec.invalid_kind (ValidateAccessToken L m now tokenString) = true.
Proof.
  intros Hs Hk Hn. unfold ValidateAccessToken, ParseWithClaims. rewrite Hs.
  assert (unmarshal_Claims (payload seg) = None) as ->; [|done].
  unfold unmarshal_Claims, unmarshal_RegisteredClaims.
  assert (string_field k (payload seg) = None) as Hfield
    by (unfold string_field; by rewrite Hn).
  destruct (string_field "user_id" (payload seg)) eqn:H1; [|done].
  destruct (string_field "email" (payload seg)) eqn:H2; [|done].
  destruct (string_field "role" (payload seg)) eqn:H3; [|done].
  destruct (string_field "sub" (payload seg)) eqn:H4; [|done].
  destruct (date_field "exp" (payload seg)); [|done].
  destruct (date_field "nbf" (payload seg)); [|done].
  destruct (date_field "iat" (payload seg)); [|done].
  destruct (string_field "jti" (payload seg)) eqn:H5; [|done].
  exfalso. destruct Hk as [<-|[<-|[<-|[<-|[<-|[]]]]]]; congruence.
Qed.

Lemma ValidateAccessToken_returns_claims tokenString claims :
  ValidateAccessToken L m now tokenString = Ok claims ->
  exists seg alg,
    split_token L tokenString = Some seg /\
    member "alg" (header seg) = Some (JString alg) /\
    GetSigningMethod alg = Some (SigningMethodHMAC alg) /\
    signature seg = hmac L alg (secretKey m) (signing_input seg) /\
    validate now (Registered claims) = [] /\
    (forall written, payload seg = marshal_Claims written -> claims = written).
Proof.
  unfold ValidateAccessToken, ParseWithClaims.
  destruct (split_token L tokenString) as [seg|] eqn:Hs; [|done].
  destruct (unmarshal_Claims (payload seg)) as [c|] eqn:Hu; [|done].
  destruct (member "alg" (header seg)) as [[alg|?]|] eqn:Ha; [|done..].
  destruct (GetSigningMethod alg) as [[a|a]|] eqn:Hm; [|done..].
  apply GetSigningMethod_HMAC in Hm as Heq. subst a.
  cbn [keyFunc Verify]. case_bool_decide as Hsig; [|done].
  destruct (validate now (Registered c)) eqn:Hv; [|by destruct (Is _ _)].
  cbn. intros [= <-]. exists seg, alg. do 5 (split; [done|]).
  intros written Hw. change (payload seg = marshal_Claims written) in Hw.
  rewrite Hw, JwtFacts.unmarshal_Claims_of_Claims in Hu. by injection Hu.
Qed.
End AccessTokenFailures.

(** C4, as the code has it: a failure of [ValidateAccessToken] is of
    exactly one of two kinds that the caller tells apart with [errors.Is].
    The expired-token error is answered only for a token whose HMAC
    signature verifies under the manager's secret, and it is answered for
    every such token that carries claims as the manager writes them and
    whose expiry has passed. A malformed token, a token whose header names
    no method or a method that is not HMAC, a token in which a claim that is
    a text holds a number, and a token whose signature does not verify
    under the manager's secret fail with the invalid-token error. A success
    returns claims that are not expired, from a token whose signature
    verifies; for a payload as the manager writes it they are the claims
    written. *)
Theorem C4_ValidateAccessToken_failure_kinds
    (L : Jwt.Library) (m : Jwt.Manager) (now : Z) (tokenString : string) :
  (is_ok (Jwt.ValidateAccessToken L m now tokenString) = false ->
     (Spec.expired_kind (Jwt.ValidateAccessToken L m now tokenString) = true /\
      Spec.invalid_kind (Jwt.ValidateAccessToken L m now tokenString) = false) \/
     (Spec.invalid_kind (Jwt.ValidateAccessToken L m now tokenString) = true /\
      Spec.expired_kind (Jwt.ValidateAccessToken L m now tokenString) = false)) /\
  (Spec.expired_kind (Jwt.ValidateAccessToken L m now tokenString) = true ->
     exists seg alg,
       Jwt.split_token L tokenString = Some seg /\
       Jwt.member "alg" (Jwt.header seg) = Some (Jwt.JString alg) /\
       Jwt.GetSigningMethod alg = Some (Jwt.SigningMethodHMAC alg) /\
       Jwt.signature seg = Jwt.hmac L alg (Jwt.secretKey m) (Jwt.signing_input seg)) /\
  (forall seg claims alg expires,
     Jwt.split_token L tokenString = Some seg ->
     Jwt.payload seg = Jwt.marshal_Claims claims ->
     Jwt.member "alg" (Jwt.header seg) = Some (Jwt.JString alg) ->
     Jwt.GetSigningMethod alg = Some (Jwt.SigningMethodHMAC alg) ->
     Jwt.signature seg = Jwt.hmac L alg (Jwt.secretKey m) (Jwt.signing_input seg) ->
     Jwt.ExpiresAt (Jwt.Registered claims) = Some expires ->
     expires <= now ->
     Jwt.ValidateAccessToken L m now tokenString = Err Jwt.ErrExpiredToken /\
     Spec.expired_kind (Jwt.ValidateAccessToken L m now tokenString) = true) /\
  (Jwt.split_token L tokenString = None ->
     Spec.invalid_kind (Jwt.ValidateAccessToken L m now tokenString) = true) /\
  (forall seg,
     Jwt.split_token L tokenString = Some seg ->
     (forall alg, Jwt.member "alg" (Jwt.header seg) <> Some (Jwt.JString alg)) ->
     Spec.invalid_kind (Jwt.ValidateAccessToken L m now tokenString) = true) /\
  (forall seg alg,
     Jwt.split_token L tokenString = Some seg ->
     Jwt.member "alg" (Jwt.header seg) = Some (Jwt.JString alg) ->
     (forall a, Jwt.GetSigningMethod alg <> Some (Jwt.SigningMethodHMAC a)) ->
     Spec.invalid_kind (Jwt.ValidateAccessToken L m now tokenString) = true) /\
  (forall seg k n,
     Jwt.split_token L tokenString = Some seg ->
     In k ["user_id"; "email"; "role"; "sub"; "jti"] ->
     Jwt.member k (Jwt.payload seg) = Some (Jwt.JNumber n) ->
     Spec.invalid_kind (Jwt.ValidateAccessToken L m now tokenString) = true) /\
  (forall seg alg,
     Jwt.split_token L tokenString = Some seg ->
     Jwt.member "alg" (Jwt.header seg) = Some (Jwt.JString alg) ->
     Jwt.GetSigningMethod alg = Some (Jwt.SigningMethodHMAC alg) ->
     Jwt.signature seg <> Jwt.hmac L alg (Jwt.secretKey m) (Jwt.signing_input seg) ->
     Spec.invalid_kind (Jwt.ValidateAccessToken L m now tokenString) = true) /\
  (forall claims,
     Jwt.ValidateAccessToken L m now tokenString = Ok claims ->
     exists seg alg,
       Jwt.split_token L tokenString = Some seg /\
       Jwt.member "alg" (Jwt.header seg) = Some (Jwt.JString alg) /\
       Jwt.GetSigningMethod alg = Some (Jwt.SigningMethodHMAC alg) /\
       Jwt.signature seg = Jwt.hmac L alg (Jwt.secretKey m) (Jwt.signing_input seg) /\
       Jwt.validate now (Jwt.Registered claims) = [] /\
       (forall written,
          Jwt.payload seg = Jwt.marshal_Claims written -> claims = written)).
Proof.
  split; [apply ValidateAccessToken_two_kinds|].
  split; [apply ValidateAccessToken_expired_only_verified|].
  split.
  { intros seg claims alg expires Hs Hp Ha Hm Hsig He Hle.
    assert (Jwt.ValidateAccessToken L m now tokenString = Err Jwt.ErrExpiredToken) as ->
      by eauto using ValidateAccessToken_expired.
    done. }
  split; [apply ValidateAccessToken_malformed|].
  split; [apply ValidateAccessToken_no_alg|].
  split; [apply ValidateAccessToken_not_HMAC|].
  split; [apply ValidateAccessToken_number_for_text|].
  split; [apply ValidateAccessToken_bad_signature|].
  apply ValidateAccessToken_returns_claims.
Qed.

(** C4 at the sample data: the access token of [u1] after its expiry, a
    text that is no token, the claims under an RS256 header, the claims
    signed with another secret, and the access token within its
    lifetime. *)
Lemma C4_witness :
  Jwt.ValidateAccessToken Reference.lib Sample.manager 2000 Sample.access_token
    = Err Jwt.ErrExpiredToken /\
  Spec.invalid_kind
    (Jwt.ValidateAccessToken Reference.lib Sample.manager 1001 "not a token") = true /\
  Spec.invalid_kind
    (Jwt.ValidateAccessToken Reference.lib Sample.manager 1001 Sample.rs256_token) = true /\
  Spec.invalid_kind
    (Jwt.ValidateAccessToken Reference.lib Sample.manager 1001 Sample.foreign_token) = true /\
  Jwt.validate 1001
    (Jwt.Registered (Jwt.access_claims Sample.manager 1000 "jti-a" "u1" "a@x.com" "user"))
    = [].
Proof.
  split.
  { destruct (C4_ValidateAccessToken_failure_kinds Reference.lib Sample.manager 2000
                Sample.access_token) as (_ & _ & Hexpired & _).
    refine (proj1 (Hexpired _ (Jwt.access_claims Sample.manager 1000 "jti-a" "u1"
                                 "a@x.com" "user") "HS256" 1900 _ _ _ _ _ _ _));
      [reflexivity|reflexivity|reflexivity|reflexivity|reflexivity|reflexivity|lia]. }
  split.
  { destruct (C4_ValidateAccessToken_failure_kinds Reference.lib Sample.manager 1001
                "not a token") as (_ & _ & _ & Hmalformed & _).
    apply Hmalformed. reflexivity. }
  split.
  { destruct (C4_ValidateAccessToken_failure_kinds Reference.lib Sample.manager 1001
                Sample.rs256_token) as (_ & _ & _ & _ & _ & Hmethod & _).
    refine (Hmethod _ "RS256" _ _ _); [reflexivity|reflexivity|].
    intros a. discriminate. }
  split.
  { destruct (C4_ValidateAccessToken_failure_kinds Reference.lib Sample.manager 1001
                Sample.foreign_token) as (_ & _ & _ & _ & _ & _ & _ & Hsecret & _).
    refine (Hsecret _ "HS256" _ _ _ _);
      [reflexivity|reflexivity|reflexivity|vm_compute; discriminate]. }
  destruct (C4_ValidateAccessToken_failure_kinds Reference.lib Sample.manager 1001
              Sample.access_token) as (_ & _ & _ & _ & _ & _ & _ & _ & Hok).
  destruct (Hok (Jwt.access_claims Sample.manager 1000 "jti-a" "u1" "a@x.com" "user"))
    as (seg & alg & _ & _ & _ & _ & Hvalid & _); [reflexivity|exact Hvalid].
Defined.

(** The claim at two inputs. A secret that differs from the manager's
    by a zero byte at its end: HMAC fills both keys with zero bytes to the
    same block, so the token signed with the other secret is the token the
    manager signs, and the manager accepts it. And a token whose signature
    verifies and whose expiry has passed, with a number for [sub]: the
    answer is the invalid-token error, not the expired-token error. *)
Lemma C4_counterexample :
  (Jwt.secretKey Sample.padded_manager <> Jwt.secretKey Sample.manager /\
   Jwt.GenerateAccessToken Reference.lib Sample.padded_manager 1000 "jti-a" "u1"
     "a@x.com" "user" = Ok Sample.access_token /\
   Jwt.ValidateAccessToken Reference.lib Sample.manager 1001 Sample.access_token
     = Ok (Jwt.access_claims Sample.padded_manager 1000 "jti-a" "u1" "a@x.com" "user") /\
   Spec.invalid_kind
     (Jwt.ValidateAccessToken Reference.lib Sample.manager 1001 Sample.access_token)
     = false) /\
  (exists seg,
     Jwt.split_token Reference.lib Sample.numbered_token = Some seg /\
     Jwt.member "alg" (Jwt.header seg) = Some (Jwt.JString "HS256") /\
     Jwt.signature seg
       = Jwt.hmac Reference.lib "HS256" (Jwt.secretKey Sample.manager)
           (Jwt.signing_input seg) /\
     Jwt.member "exp" (Jwt.payload seg) = Some (Jwt.JNumber 1900) /\
     Jwt.member "sub" (Jwt.payload seg) = Some (Jwt.JNumber 5)) /\
  Spec.expired_kind
    (Jwt.ValidateAccessToken Reference.lib Sample.manager 2000 Sample.numbered_token)
    = false /\
  Spec.invalid_kind
    (Jwt.ValidateAccessToken Reference.lib Sample.manager 2000 Sample.numbered_token)
    = true.
Proof.
  split.
  { split; [discriminate|]. split; [vm_compute; reflexivity|].
    split; vm_compute; reflexivity. }
  split.
  { eexists. split; [vm_compute; reflexivity|]. repeat split. }
  split; vm_compute; reflexivity.
Qed.

(** ** C3 and C10: the outcomes of [Login] and [RefreshToken] *)

Section Authentication.
Context {DB : Type}.
Variable userRepo : repository.UserRepository DB.
Variable B : crypto.Bcrypt.
Variable passwordHasher : crypto.PasswordHasher.
Variable L : Jwt.Library.
Variable jwtManager : Jwt.Manager.

Abbreviation Login := (usecase.Login userRepo B passwordHasher L jwtManager).
Abbreviation RefreshToken := (usecase.RefreshToken userRepo L jwtManager).

Lemma Login_not_found now jtiAccess jtiRefresh req w err :
  repository.GetByEmail userRepo (dto.login_Email req) (usecase.db w) = Err err ->
  Is err shared_ErrUserNotFound = true ->
  fst (Login now jtiAccess jtiRefresh req w) = Err errors.ErrInvalidCredentials.
Proof.
  intros Hget His. unfold usecase.Login, usecase.bind, usecase.userRepo_GetByEmail.
  by rewrite Hget, His.
Qed.

Lemma Login_not_active now jtiAccess jtiRefresh req w user :
  repository.GetByEmail userRepo (dto.login_Email req) (usecase.db w) = Ok user ->
  entity.IsActive user = false ->
  fst (Login now jtiAccess jtiRefresh req w) = Err errors.ErrUnauthorized.
Proof.
  intros Hget Hact. unfold usecase.Login, usecase.bind, usecase.userRepo_GetByEmail.
  by rewrite Hget, Hact.
Qed.

Lemma Login_wrong_password now jtiAccess jtiRefresh req w user :
  repository.GetByEmail userRepo (dto.login_Email req) (usecase.db w) = Ok user ->
  entity.IsActive user = true ->
  crypto.IsValid B passwordHasher (entity.Password user) (dto.login_Password req) = false ->
  fst (Login now jtiAccess jtiRefresh req w) = Err errors.ErrInvalidCredentials.
Proof.
  intros Hget Hact Hpw. unfold usecase.Login, usecase.bind, usecase.userRepo_GetByEmail.
  by rewrite Hget, Hact, Hpw.
Qed.

Lemma Login_success now jtiAccess jtiRefresh req w user :
  repository.GetByEmail userRepo (dto.login_Email req) (usecase.db w) = Ok user ->
  entity.IsActive user = true ->
  crypto.IsValid B passwordHasher (entity.Password user) (dto.login_Password req) = true ->
  exists accessToken refreshToken,
    Jwt.GenerateAccessToken L jwtManager now jtiAccess
      (entity.ID user) (entity.Email user) (entity.Role user) = Ok accessToken /\
    Jwt.GenerateRefreshToken L jwtManager now jtiRefresh (entity.ID user)
      = Ok refreshToken /\
    fst (Login now jtiAccess jtiRefresh req w) =
      Ok {| dto.User := usecase.toUserResponse user;
            dto.AccessToken := accessToken; dto.RefreshToken := refreshToken;
            dto.TokenType := "Bearer"; dto.ExpiresIn := 900 |}.
Proof.
  intros Hget Hact Hpw.
  destruct (GenerateAccessToken_ok L jwtManager now jtiAccess (entity.ID user)
              (entity.Email user) (entity.Role user)) as [a Ha].
  destruct (GenerateRefreshToken_ok L jwtManager now jtiRefresh (entity.ID user))
    as [r Hr].
  exists a, r. split; [done|]. split; [done|].
  unfold usecase.Login, usecase.bind, usecase.userRepo_GetByEmail.
  by rewrite Hget, Hact, Hpw, Ha, Hr.
Qed.

(** [Login] succeeds only for a user the store returned and
    [IsActive] accepts. *)
Lemma Login_ok_inv now jtiAccess jtiRefresh req w :
  is_ok (fst (Login now jtiAccess jtiRefresh req w)) = true ->
  exists user,
    repository.GetByEmail userRepo (dto.login_Email req) (usecase.db w) = Ok user /\
    entity.IsActive user = true /\
    crypto.IsValid B passwordHasher (entity.Password user) (dto.login_Password req)
      = true.
Proof.
  unfold usecase.Login, usecase.bind, usecase.userRepo_GetByEmail.
  destruct (repository.GetByEmail userRepo _ _) as [user|err] eqn:Hget.
  - destruct (entity.IsActive user) eqn:Hact; [|done].
    destruct (crypto.IsValid _ _ _ _) eqn:Hpw; [|done]. intros _. by exists user.
  - by destruct (Is err _).
Qed.

Lemma RefreshToken_not_active now jtiAccess jtiRefresh req w userID user :
  Jwt.ValidateRefreshToken L jwtManager now (dto.req_RefreshToken req) = Ok userID ->
  repository.GetByID userRepo userID (usecase.db w) = Ok user ->
  entity.IsActive user = false ->
  fst (RefreshToken now jtiAccess jtiRefresh req w) = Err errors.ErrUnauthorized.
Proof.
  intros Hv Hget Hact. unfold usecase.RefreshToken, usecase.bind, usecase.userRepo_GetByID.
  by rewrite Hv, Hget, Hact.
Qed.

Lemma RefreshToken_ok_inv now jtiAccess jtiRefresh req w :
  is_ok (fst (RefreshToken now jtiAccess jtiRefresh req w)) = true ->
  exists userID user,
    Jwt.ValidateRefreshToken L jwtManager now (dto.req_RefreshToken req) = Ok userID /\
    repository.GetByID userRepo userID (usecase.db w) = Ok user /\
    entity.IsActive user = true.
Proof.
  unfold usecase.RefreshToken, usecase.bind, usecase.userRepo_GetByID.
  destruct (Jwt.ValidateRefreshToken _ _ _ _) as [userID|] eqn:Hv; [|done].
  destruct (repository.GetByID userRepo _ _) as [user|err] eqn:Hget.
  - destruct (entity.IsActive user) eqn:Hact; [|done]. intros _. by exists userID, user.
  - by destruct (Is err _).
Qed.
End Authentication.

Lemma IsActive_spec user :
  entity.IsActive user = true <->
  entity.Status user = "active" /\ entity.DeletedAt user = None.
Proof.
  unfold entity.IsActive. rewrite andb_true_iff, String.eqb_eq, bool_decide_eq_true.
  done.
Qed.

(** C3, as the code has it: [Login] answers "invalid credentials" when
    the store reports no user for the email; "unauthorized" when the user
    it returns is not active, whatever the password; the same "invalid
    credentials" when the user is active and the password does not verify;
    and otherwise the user with an access and a refresh token issued at
    this moment. The two errors are different values, told apart by
    [errors.Is]. *)
Theorem C3_Login_outcomes
    {DB : Type} (userRepo : repository.UserRepository DB)
    (B : crypto.Bcrypt) (passwordHasher : crypto.PasswordHasher)
    (L : Jwt.Library) (jwtManager : Jwt.Manager)
    (now : Z) (jtiAccess jtiRefresh : string) (req : dto.LoginRequest)
    (w : usecase.World DB) :
  (forall err,
     repository.GetByEmail userRepo (dto.login_Email req) (usecase.db w) = Err err ->
     Is err shared_ErrUserNotFound = true ->
     fst (usecase.Login userRepo B passwordHasher L jwtManager now jtiAccess jtiRefresh
            req w) = Err errors.ErrInvalidCredentials) /\
  (forall user,
     repository.GetByEmail userRepo (dto.login_Email req) (usecase.db w) = Ok user ->
     (entity.IsActive user = false ->
        fst (usecase.Login userRepo B passwordHasher L jwtManager now jtiAccess
               jtiRefresh req w) = Err errors.ErrUnauthorized) /\
     (entity.IsActive user = true ->
      crypto.IsValid B passwordHasher (entity.Password user) (dto.login_Password req)
        = false ->
        fst (usecase.Login userRepo B passwordHasher L jwtManager now jtiAccess
               jtiRefresh req w) = Err errors.ErrInvalidCredentials) /\
     (entity.IsActive user = true ->
      crypto.IsValid B passwordHasher (entity.Password user) (dto.login_Password req)
        = true ->
        exists accessToken refreshToken,
          Jwt.GenerateAccessToken L jwtManager now jtiAccess
            (entity.ID user) (entity.Email user) (entity.Role user) = Ok accessToken /\
          Jwt.GenerateRefreshToken L jwtManager now jtiRefresh (entity.ID user)
            = Ok refreshToken /\
          fst (usecase.Login userRepo B passwordHasher L jwtManager now jtiAccess
                 jtiRefresh req w) =
            Ok {| dto.User := usecase.toUserResponse user;
                  dto.AccessToken := accessToken; dto.RefreshToken := refreshToken;
                  dto.TokenType := "Bearer"; dto.ExpiresIn := 900 |})) /\
  Is errors.ErrInvalidCredentials shared_ErrUnauthorized = false /\
  Is errors.ErrUnauthorized shared_ErrInvalidCredentials = false.
Proof.
  split; [intros err; apply Login_not_found|].
  split; [|done].
  intros user Hget. split; [by apply Login_not_active|].
  split; [by apply Login_wrong_password|by apply Login_success].
Qed.

(** C3 at the sample data: no row for the email; the banned user with
    her password; the active user with a wrong password; the active user
    with her password. *)
Lemma C3_witness :
  fst (usecase.Login Sample.userRepo Reference.bcrypt Sample.hasher Reference.lib
         Sample.manager 1000 "jti-a" "jti-r" (dto.mkLoginRequest "a@x.com" "Abcdef1!")
         (Sample.world [] ∅)) = Err errors.ErrInvalidCredentials /\
  fst (usecase.Login Sample.userRepo Reference.bcrypt Sample.hasher Reference.lib
         Sample.manager 1000 "jti-a" "jti-r" (dto.mkLoginRequest "a@x.com" "Abcdef1!")
         (Sample.world [Sample.banned_alice] ∅)) = Err errors.ErrUnauthorized /\
  fst (usecase.Login Sample.userRepo Reference.bcrypt Sample.hasher Reference.lib
         Sample.manager 1000 "jti-a" "jti-r" (dto.mkLoginRequest "a@x.com" "wrong")
         (Sample.world [Sample.alice] ∅)) = Err errors.ErrInvalidCredentials /\
  is_ok (fst (usecase.Login Sample.userRepo Reference.bcrypt Sample.hasher Reference.lib
         Sample.manager 1000 "jti-a" "jti-r" (dto.mkLoginRequest "a@x.com" "Abcdef1!")
         (Sample.world [Sample.alice] ∅))) = true.
Proof.
  split.
  { refine (proj1 (C3_Login_outcomes Sample.userRepo Reference.bcrypt Sample.hasher
                     Reference.lib Sample.manager 1000 "jti-a" "jti-r"
                     (dto.mkLoginRequest "a@x.com" "Abcdef1!") (Sample.world [] ∅))
              errors.ErrUserNotFound _ _); reflexivity. }
  split.
  { refine (proj1 (proj1 (proj2 (C3_Login_outcomes Sample.userRepo Reference.bcrypt
                     Sample.hasher Reference.lib Sample.manager 1000 "jti-a" "jti-r"
                     (dto.mkLoginRequest "a@x.com" "Abcdef1!")
                     (Sample.world [Sample.banned_alice] ∅)))
              Sample.banned_alice _) _); reflexivity. }
  split.
  { refine (proj1 (proj2 (proj1 (proj2 (C3_Login_outcomes Sample.userRepo
                     Reference.bcrypt Sample.hasher Reference.lib Sample.manager 1000
                     "jti-a" "jti-r" (dto.mkLoginRequest "a@x.com" "wrong")
                     (Sample.world [Sample.alice] ∅)))
              Sample.alice _)) _ _); reflexivity. }
  destruct (proj2 (proj2 (proj1 (proj2 (C3_Login_outcomes Sample.userRepo
                     Reference.bcrypt Sample.hasher Reference.lib Sample.manager 1000
                     "jti-a" "jti-r" (dto.mkLoginRequest "a@x.com" "Abcdef1!")
                     (Sample.world [Sample.alice] ∅)))
              Sample.alice eq_refl)) eq_refl eq_refl) as (a & r & _ & _ & ->).
  reflexivity.
Defined.

(** C3 as stated fails: a user exists for the email and the password
    does not verify, yet [Login] answers "unauthorized" and not "invalid
    credentials", because the user is banned and the status is checked
    first. *)
Lemma C3_counterexample :
  repository.GetByEmail Sample.userRepo "a@x.com" (Sample.server [Sample.banned_alice])
    = Ok Sample.banned_alice /\
  crypto.IsValid Reference.bcrypt Sample.hasher (entity.Password Sample.banned_alice)
    "wrong" = false /\
  fst (usecase.Login Sample.userRepo Reference.bcrypt Sample.hasher Reference.lib
         Sample.manager 1000 "jti-a" "jti-r" (dto.mkLoginRequest "a@x.com" "wrong")
         (Sample.world [Sample.banned_alice] ∅)) = Err errors.ErrUnauthorized /\
  failed_with
    (fst (usecase.Login Sample.userRepo Reference.bcrypt Sample.hasher Reference.lib
            Sample.manager 1000 "jti-a" "jti-r" (dto.mkLoginRequest "a@x.com" "wrong")
            (Sample.world [Sample.banned_alice] ∅)))
    shared_ErrInvalidCredentials = false.
Proof. repeat split; vm_compute; reflexivity. Qed.

(** C10: for the user record the store returns, [Login] and
    [RefreshToken] succeed only if its [Status] is "active" and its
    [DeletedAt] is nil; a record whose [Status] reads "active" and whose
    [DeletedAt] is set is answered "unauthorized" by both. *)
Theorem C10_authentication_needs_active_and_not_deleted
    {DB : Type} (userRepo : repository.UserRepository DB)
    (B : crypto.Bcrypt) (passwordHasher : crypto.PasswordHasher)
    (L : Jwt.Library) (jwtManager : Jwt.Manager)
    (now : Z) (jtiAccess jtiRefresh : string) (w : usecase.World DB)
    (user : entity.User) :
  (forall req,
     repository.GetByEmail userRepo (dto.login_Email req) (usecase.db w) = Ok user ->
     (is_ok (fst (usecase.Login userRepo B passwordHasher L jwtManager now jtiAccess
                    jtiRefresh req w)) = true ->
        entity.Status user = "active" /\ entity.DeletedAt user = None) /\
     (entity.Status user = "active" -> entity.DeletedAt user <> None ->
        fst (usecase.Login userRepo B passwordHasher L jwtManager now jtiAccess
               jtiRefresh req w) = Err errors.ErrUnauthorized)) /\
  (forall req userID,
     Jwt.ValidateRefreshToken L jwtManager now (dto.req_RefreshToken req) = Ok userID ->
     repository.GetByID userRepo userID (usecase.db w) = Ok user ->
     (is_ok (fst (usecase.RefreshToken userRepo L jwtManager now jtiAccess jtiRefresh
                    req w)) = true ->
        entity.Status user = "active" /\ entity.DeletedAt user = None) /\
     (entity.Status user = "active" -> entity.DeletedAt user <> None ->
        fst (usecase.RefreshToken userRepo L jwtManager now jtiAccess jtiRefresh
               req w) = Err errors.ErrUnauthorized)).
Proof.
  assert (Hinactive : entity.DeletedAt user <> None -> entity.IsActive user = false).
  { intros Hdel. destruct (entity.IsActive user) eqn:Hact; [|done].
    apply IsActive_spec in Hact as [_ ?]. done. }
  split.
  - intros req Hget. split.
    + intros Hok. apply Login_ok_inv in Hok as (user' & Hget' & Hact & _).
      rewrite Hget in Hget'. injection Hget' as <-. by apply IsActive_spec.
    + intros _ Hdel. apply Login_not_active with user; auto.
  - intros req userID Hv Hget. split.
    + intros Hok. apply RefreshToken_ok_inv in Hok as (userID' & user' & Hv' & Hget' & Hact).
      rewrite Hv in Hv'. injection Hv' as <-.
      rewrite Hget in Hget'. injection Hget' as <-. by apply IsActive_spec.
    + intros _ Hdel. apply RefreshToken_not_active with userID user; auto.
Qed.

(** C10 at a record that reads "active" and carries a deletion time. *)
Lemma C10_witness :
  fst (usecase.Login (Sample.store_of Sample.active_but_deleted)
         Reference.bcrypt Sample.hasher Reference.lib Sample.manager 1000
         "jti-a" "jti-r" (dto.mkLoginRequest "a@x.com" "Abcdef1!")
         (usecase.mkWorld tt ∅ [])) = Err errors.ErrUnauthorized /\
  fst (usecase.RefreshToken (Sample.store_of Sample.active_but_deleted)
         Reference.lib Sample.manager 1001 "jti-b" "jti-c"
         (dto.mkRefreshTokenRequest Sample.refresh_token)
         (usecase.mkWorld tt ∅ [])) = Err errors.ErrUnauthorized.
Proof.
  destruct (C10_authentication_needs_active_and_not_deleted
              (Sample.store_of Sample.active_but_deleted)
              Reference.bcrypt Sample.hasher Reference.lib Sample.manager 1000
              "jti-a" "jti-r" (usecase.mkWorld tt ∅ [])
              Sample.active_but_deleted)
    as [Hlogin _].
  destruct (C10_authentication_needs_active_and_not_deleted
              (Sample.store_of Sample.active_but_deleted)
              Reference.bcrypt Sample.hasher Reference.lib Sample.manager 1001
              "jti-b" "jti-c" (usecase.mkWorld tt ∅ [])
              Sample.active_but_deleted)
    as [_ Hrefresh].
  split.
  - apply (Hlogin (dto.mkLoginRequest "a@x.com" "Abcdef1!")); [reflexivity|reflexivity|].
    discriminate.
  - apply (Hrefresh (dto.mkRefreshTokenRequest Sample.refresh_token) "u1");
      [reflexivity|reflexivity|reflexivity|discriminate].
Defined.

(** ** C7: a unique-constraint violation on insert *)

(** C7, as the code has it: when the two duplicate pre-checks of
    [Register] pass and the insert then fails, a unique-constraint
    violation included, [Register] returns the generic internal error and
    neither "already exists" outcome. *)
Theorem C7_Register_insert_failure_is_internal
    {DB : Type} (userRepo : repository.UserRepository DB)
    (B : crypto.Bcrypt) (passwordHasher : crypto.PasswordHasher)
    (now : Z) (uuid salt : string) (req : dto.RegisterRequest)
    (w : usecase.World DB) (hashedPassword : string) (err : error) (db' : DB) :
  repository.ExistsByEmail userRepo (dto.reg_Email req) (usecase.db w) = Ok false ->
  repository.ExistsByUsername userRepo (dto.reg_Username req) (usecase.db w) = Ok false ->
  crypto.Hash B passwordHasher salt (dto.reg_Password req) = Ok hashedPassword ->
  repository.Create userRepo
    (entity.NewUser now uuid (dto.reg_Email req) (dto.reg_Username req) hashedPassword
       (dto.reg_FullName req) constants.RoleUser) (usecase.db w) = (Some err, db') ->
  fst (usecase.Register userRepo B passwordHasher now uuid salt req w)
    = Err errors.ErrInternal /\
  failed_with (fst (usecase.Register userRepo B passwordHasher now uuid salt req w))
    shared_ErrEmailAlreadyExists = false /\
  failed_with (fst (usecase.Register userRepo B passwordHasher now uuid salt req w))
    shared_ErrUsernameAlreadyExists = false.
Proof.
  intros Hemail Hname Hhash Hcreate.
  assert (fst (usecase.Register userRepo B passwordHasher now uuid salt req w)
          = Err errors.ErrInternal) as ->; [|done].
  unfold usecase.Register, usecase.bind, usecase.userRepo_ExistsByEmail,
    usecase.userRepo_ExistsByUsername, usecase.userRepo_Create.
  rewrite Hemail. cbn [usecase.logged usecase.db].
  rewrite Hname, Hhash. cbn [usecase.logged usecase.db].
  by rewrite Hcreate.
Qed.

(** C7 at the sample data: the email of a soft-deleted user is
    registered again; both pre-checks look at live rows only and pass,
    and the table's [UNIQUE (email)] refuses the insert. *)
Lemma C7_witness :
  fst (usecase.Register Sample.userRepo Reference.bcrypt Sample.hasher 1000 "u2" "salt"
         (dto.mkRegisterRequest "a@x.com" "alice2" "Abcdef1!" "Alice B")
         (Sample.world [Sample.deleted_alice] ∅)) = Err errors.ErrInternal.
Proof.
  refine (proj1 (C7_Register_insert_failure_is_internal Sample.userRepo Reference.bcrypt
                   Sample.hasher 1000 "u2" "salt"
                   (dto.mkRegisterRequest "a@x.com" "alice2" "Abcdef1!" "Alice B")
                   (Sample.world [Sample.deleted_alice] ∅) _ _ _ _ _ _ _));
    reflexivity.
Defined.

(** C7 as stated fails: the pre-checks pass, the insert fails with
    SQLSTATE 23505 (unique violation), and [Register] answers the internal
    error, not the conflict the pre-check answers with. This happens when
    the email is that of a soft-deleted user, and it happens in a race:
    a rival registration of the same email is inserted between this
    request's pre-checks and its insert. *)
Lemma C7_counterexample :
  (repository.ExistsByEmail Sample.userRepo "a@x.com"
     (Sample.server [Sample.deleted_alice]) = Ok false /\
   repository.ExistsByUsername Sample.userRepo "alice2"
     (Sample.server [Sample.deleted_alice]) = Ok false /\
   fst (repository.Create Sample.userRepo
          (entity.NewUser 1000 "u2" "a@x.com" "alice2"
             (Reference.enc_str "salt" ++ "Abcdef1!") "Alice B" constants.RoleUser)
          (Sample.server [Sample.deleted_alice]))
     = Some (Errorf "failed to create user: %w" [Sentinel (pg_Error "23505")]) /\
   fst (usecase.Register Sample.userRepo Reference.bcrypt Sample.hasher 1000 "u2" "salt"
          (dto.mkRegisterRequest "a@x.com" "alice2" "Abcdef1!" "Alice B")
          (Sample.world [Sample.deleted_alice] ∅)) = Err errors.ErrInternal) /\
  (repository.ExistsByEmail (Sample.racing_userRepo Sample.rival) "b@x.com"
     (Sample.server [Sample.alice]) = Ok false /\
   repository.ExistsByUsername (Sample.racing_userRepo Sample.rival) "bob"
     (Sample.server [Sample.alice]) = Ok false /\
   fst (repository.Create (Sample.racing_userRepo Sample.rival)
          (entity.NewUser 1000 "u2" "b@x.com" "bob"
             (Reference.enc_str "salt" ++ "Abcdef1!") "Bob B" constants.RoleUser)
          (Sample.server [Sample.alice]))
     = Some (Errorf "failed to create user: %w" [Sentinel (pg_Error "23505")]) /\
   fst (usecase.Register (Sample.racing_userRepo Sample.rival) Reference.bcrypt
          Sample.hasher 1000 "u2" "salt"
          (dto.mkRegisterRequest "b@x.com" "bob" "Abcdef1!" "Bob B")
          (Sample.world [Sample.alice] ∅)) = Err errors.ErrInternal) /\
  Is errors.ErrInternal shared_ErrEmailAlreadyExists = false /\
  fst (usecase.Register Sample.userRepo Reference.bcrypt Sample.hasher 1000 "u2" "salt"
         (dto.mkRegisterRequest "a@x.com" "alice" "Abcdef1!" "Alice B")
         (Sample.world [Sample.alice] ∅)) = Err errors.ErrEmailAlreadyExists.
Proof. repeat split; vm_compute; reflexivity. Qed.

(** ** C2: the profile cache *)

Section ProfileCache.
Context {DB : Type}.
Variable userRepo : repository.UserRepository DB.
Variable cacheReachable : bool.
Variable cacheEncodes : bool.

(** The calls of [GetProfile]: the store is queried first, on every
    call, and the cache is written after a hit in the store; the cache is
    never read. *)
Lemma GetProfile_calls userID w :
  usecase.calls (snd (usecase.GetProfile userRepo cacheReachable cacheEncodes userID w)) =
    (usecase.calls w ++
     usecase.Repo_GetByID userID ::
     match repository.GetByID userRepo userID (usecase.db w) with
     | Ok user =>
         [usecase.Cache_Set (constants.CacheKeyUserPrefix ++ userID) user
            constants.CacheTTLMedium]
     | Err _ => []
     end)%list.
Proof.
  unfold usecase.GetProfile, usecase.bind, usecase.userRepo_GetByID.
  destruct (repository.GetByID userRepo userID (usecase.db w)) as [user|err].
  - cbn. by rewrite <- app_assoc.
  - by destruct (Is err _).
Qed.

(** On every call [GetProfile] queries the store and makes no read of
    the cache. *)
Lemma GetProfile_queries_store_not_cache userID w :
  exists made,
    usecase.calls (snd (usecase.GetProfile userRepo cacheReachable cacheEncodes userID w))
      = (usecase.calls w ++ made)%list /\
    existsb usecase.is_store_query made = true /\
    existsb usecase.is_cache_read made = false.
Proof.
  eexists. split; [apply GetProfile_calls|].
  by destruct (repository.GetByID userRepo userID (usecase.db w)).
Qed.

(** The answer of [GetProfile] does not depend on what the cache
    holds. *)
Lemma GetProfile_ignores_cache userID d k k' log :
  fst (usecase.GetProfile userRepo cacheReachable cacheEncodes userID (usecase.mkWorld d k log)) =
  fst (usecase.GetProfile userRepo cacheReachable cacheEncodes userID (usecase.mkWorld d k' log)).
Proof.
  unfold usecase.GetProfile, usecase.bind, usecase.userRepo_GetByID.
  cbn [usecase.db]. destruct (repository.GetByID userRepo userID d) as [user|err].
  - reflexivity.
  - by destruct (Is err _).
Qed.
End ProfileCache.

(** C2 at a failing input: the cache holds the profile of [u1] under the
    key "user:u1" and the store has no such user. [GetProfile] makes no
    cache read, queries the store, and answers not-found. *)
Lemma C2_GetProfile_bypasses_cache :
  usecase.cache (Sample.world [] {[ "user:u1" := Sample.alice ]}) !! "user:u1"
    = Some Sample.alice /\
  usecase.GetProfile Sample.userRepo true true "u1"
    (Sample.world [] {[ "user:u1" := Sample.alice ]})
  = (Err errors.ErrUserNotFound,
     usecase.mkWorld (Sample.server []) {[ "user:u1" := Sample.alice ]}
       [usecase.Repo_GetByID "u1"]) /\
  usecase.GetProfile Sample.userRepo true false "u1"
    (Sample.world [] {[ "user:u1" := Sample.alice ]})
  = (Err errors.ErrUserNotFound,
     usecase.mkWorld (Sample.server []) {[ "user:u1" := Sample.alice ]}
       [usecase.Repo_GetByID "u1"]).
Proof. repeat split; reflexivity. Qed.

(** ** C5 and C6: the middleware *)

Module MiddlewareFacts.
Import gin middleware.

Lemma cut_space_spec s before after :
  cut_space s = Some (before, after) -> s = before ++ String " " after.
Proof.
  revert before. induction s as [|a s IH]; intros before; [done|].
  cbn [cut_space]. destruct (Ascii.eqb_spec a " ") as [->|Hne].
  - by intros [= <- <-].
  - destruct (cut_space s) as [[b' a']|]; [|done].
    intros [= <- <-]. rewrite append_cons. f_equal. by apply IH.
Qed.

Lemma SplitN_Bearer token : SplitN_space_2 ("Bearer " ++ token) = ["Bearer"; token].
Proof. reflexivity. Qed.

(** The header splits into "Bearer" and a token exactly when it is
    "Bearer ", then the token. *)
Lemma SplitN_not_Bearer s :
  (forall token, s <> "Bearer " ++ token) ->
  match SplitN_space_2 s with
  | [p0; _] => String.eqb p0 "Bearer" = false
  | _ => True
  end.
Proof.
  intros Hform. unfold SplitN_space_2.
  destruct (cut_space s) as [[before after]|] eqn:Hcut; [|done].
  destruct (String.eqb_spec before "Bearer") as [->|]; [|done].
  apply cut_space_spec in Hcut. by destruct (Hform after).
Qed.

Lemma aborted_with_facts code message c c' :
  Spec.aborted_with code message c c' ->
  IsAborted c' = true /\
  written c' = (written c ++ [(code, {| Success := false; Message := message |})])%list /\
  Keys c' = Keys c.
Proof. intros ->. done. Qed.

(** One turn of the engine's loop: the handler at the context's index
    is started, with the rest of the loop as its [c.Next()], and the loop
    goes on from the context the handler returns. *)
Lemma run_starts_handler fuel handlers c i h :
  index c = Z.of_nat i -> handlers !! i = Some h ->
  run (S fuel) handlers c =
    run fuel handlers (advance (h (fun c' => run fuel handlers (advance c')) c)).
Proof.
  intros Hi Hh. cbn [run]. rewrite Hi, Nat2Z.id, Hh.
  apply lookup_lt_Some in Hh.
  replace ((0 <=? Z.of_nat i) && (Z.of_nat i <? Z.of_nat (length handlers))) with true;
    [done|].
  symmetry. apply andb_true_iff. split; [apply Z.leb_le|apply Z.ltb_lt].
  - apply Nat2Z.is_nonneg.
  - apply Nat2Z.inj_lt. exact Hh.
Qed.

(** The loop ends once the index is past the chain. *)
Lemma run_past_the_end fuel handlers c :
  Z.of_nat (length handlers) <= index c -> run fuel handlers c = c.
Proof.
  intros Hpast. destruct fuel as [|fuel]; [done|]. cbn [run].
  replace (index c <? Z.of_nat (length handlers)) with false;
    [by rewrite andb_false_r|].
  symmetry. apply Z.ltb_ge. lia.
Qed.

(** The engine's loop stops at a handler that aborts: whatever handlers
    follow it in the chain, none is started. *)
Lemma run_stops_at_abort fuel handlers c i (h : HandlerFunc) c' :
  (length handlers < 63)%nat ->
  index c = Z.of_nat i -> handlers !! i = Some h ->
  (forall next, h next c = Abort c') ->
  run (S fuel) handlers c = advance (Abort c').
Proof.
  intros Hlen Hi Hh Habort.
  rewrite (run_starts_handler fuel handlers c i h Hi Hh), Habort.
  apply run_past_the_end. cbn [advance Abort index]. unfold abortIndex. lia.
Qed.

Section Auth.
Variable L : Jwt.Library.
Variable jwtManager : Jwt.Manager.
Variable now : Z.

Lemma AuthMiddleware_no_header next c :
  GetHeader c constants.HeaderAuthorization = "" ->
  AuthMiddleware L jwtManager now next c =
    Abort (response.Unauthorized "Authorization header is required" c).
Proof. intros H. unfold AuthMiddleware. by rewrite H. Qed.

Lemma AuthMiddleware_bad_format next c :
  GetHeader c constants.HeaderAuthorization <> "" ->
  (forall token, GetHeader c constants.HeaderAuthorization <> "Bearer " ++ token) ->
  AuthMiddleware L jwtManager now next c =
    Abort (response.Unauthorized "Invalid authorization header format" c).
Proof.
  intros Hne Hform. unfold AuthMiddleware.
  destruct (String.eqb_spec (GetHeader c constants.HeaderAuthorization) ""); [done|].
  apply SplitN_not_Bearer in Hform.
  destruct (SplitN_space_2 _) as [|p0 [|token [|]]]; try done.
  by rewrite Hform.
Qed.

Lemma AuthMiddleware_bad_token next c token :
  GetHeader c constants.HeaderAuthorization = "Bearer " ++ token ->
  is_ok (Jwt.ValidateAccessToken L jwtManager now token) = false ->
  AuthMiddleware L jwtManager now next c =
    Abort (response.Unauthorized "Invalid or expired token" c).
Proof.
  intros Hh Hv. unfold AuthMiddleware. rewrite Hh, SplitN_Bearer.
  change (String.eqb ("Bearer " ++ token) "") with false.
  change (String.eqb "Bearer" "Bearer") with true. cbn [negb].
  by destruct (Jwt.ValidateAccessToken L jwtManager now token).
Qed.

Lemma AuthMiddleware_accepts next c token claims :
  GetHeader c constants.HeaderAuthorization = "Bearer " ++ token ->
  Jwt.ValidateAccessToken L jwtManager now token = Ok claims ->
  AuthMiddleware L jwtManager now next c =
    next (Set_ constants.ContextKeyUserRole (Jwt.Role claims)
           (Set_ constants.ContextKeyUserEmail (Jwt.Email claims)
             (Set_ constants.ContextKeyUserID (Jwt.UserID claims) c))).
Proof.
  intros Hh Hv. unfold AuthMiddleware. rewrite Hh, SplitN_Bearer.
  change (String.eqb ("Bearer " ++ token) "") with false.
  change (String.eqb "Bearer" "Bearer") with true. cbn [negb].
  by rewrite Hv.
Qed.
End Auth.

Lemma GetString_Set_eq key value c : GetString (Set_ key value c) key = value.
Proof. unfold GetString, Set_. cbn. by rewrite lookup_insert_eq. Qed.

Lemma GetString_Set_ne key key' value c :
  key <> key' -> GetString (Set_ key value c) key' = GetString c key'.
Proof. intros Hne. unfold GetString, Set_. cbn. by rewrite lookup_insert_ne. Qed.

End MiddlewareFacts.

(** C5: when the Authorization header is absent, is not "Bearer "
    followed by a token, or carries a token that [ValidateAccessToken]
    refuses, the middleware answers 401 and aborts, and the engine starts
    none of the handlers that follow it in the chain; when the token
    validates, the middleware sets the user id, the email and the role of
    the claims on the context and passes that context on with
    [c.Next()]. *)
Theorem C5_AuthMiddleware_guards_the_chain
    (L : Jwt.Library) (jwtManager : Jwt.Manager) (now : Z) (c : gin.Context) :
  ((gin.GetHeader c constants.HeaderAuthorization = "" \/
    (forall token, gin.GetHeader c constants.HeaderAuthorization <> "Bearer " ++ token) \/
    (exists token,
       gin.GetHeader c constants.HeaderAuthorization = "Bearer " ++ token /\
       is_ok (Jwt.ValidateAccessToken L jwtManager now token) = false)) ->
   exists message,
     (forall next,
        Spec.aborted_with response.StatusUnauthorized message c
          (middleware.AuthMiddleware L jwtManager now next c) /\
        gin.IsAborted (middleware.AuthMiddleware L jwtManager now next c) = true /\
        gin.written (middleware.AuthMiddleware L jwtManager now next c) =
          (gin.written c ++
           [(401, {| gin.Success := false; gin.Message := message |})])%list) /\
     (forall handlers i fuel,
        (length handlers < 63)%nat ->
        handlers !! i = Some (middleware.AuthMiddleware L jwtManager now) ->
        gin.index c = Z.of_nat i ->
        gin.run (S fuel) handlers c =
        gin.advance (gin.Abort (response.Unauthorized message c)))) /\
  (forall token claims,
     gin.GetHeader c constants.HeaderAuthorization = "Bearer " ++ token ->
     Jwt.ValidateAccessToken L jwtManager now token = Ok claims ->
     exists c',
       (forall next, middleware.AuthMiddleware L jwtManager now next c = next c') /\
       gin.GetString c' constants.ContextKeyUserID = Jwt.UserID claims /\
       gin.GetString c' constants.ContextKeyUserEmail = Jwt.Email claims /\
       gin.GetString c' constants.ContextKeyUserRole = Jwt.Role claims /\
       gin.written c' = gin.written c /\
       gin.index c' = gin.index c /\
       (forall handlers i fuel h,
          handlers !! i = Some (middleware.AuthMiddleware L jwtManager now) ->
          handlers !! S i = Some h ->
          gin.index c = Z.of_nat i ->
          gin.run (S (S fuel)) handlers c =
          gin.run (S fuel) handlers
            (gin.advance
               (gin.run fuel handlers
                  (gin.advance
                     (h (fun c0 => gin.run fuel handlers (gin.advance c0))
                        (gin.advance c'))))))).
Proof.
  split.
  - assert (Hreject : forall message,
              (forall next,
                 middleware.AuthMiddleware L jwtManager now next c =
                 gin.Abort (response.Unauthorized message c)) ->
              exists message,
                (forall next,
                   Spec.aborted_with response.StatusUnauthorized message c
                     (middleware.AuthMiddleware L jwtManager now next c) /\
                   gin.IsAborted (middleware.AuthMiddleware L jwtManager now next c)
                     = true /\
                   gin.written (middleware.AuthMiddleware L jwtManager now next c) =
                     (gin.written c ++
                      [(401, {| gin.Success := false; gin.Message := message |})])%list) /\
                (forall handlers i fuel,
                   (length handlers < 63)%nat ->
                   handlers !! i = Some (middleware.AuthMiddleware L jwtManager now) ->
                   gin.index c = Z.of_nat i ->
                   gin.run (S fuel) handlers c =
                   gin.advance (gin.Abort (response.Unauthorized message c)))).
    { intros message Hall. exists message. split.
      - intros next. rewrite (Hall next). done.
      - intros handlers i fuel Hlen Hh Hi.
        by apply MiddlewareFacts.run_stops_at_abort
             with i (middleware.AuthMiddleware L jwtManager now). }
    intros [Hempty|[Hform|(token & Hh & Hv)]].
    + apply (Hreject "Authorization header is required").
      intros next. by apply MiddlewareFacts.AuthMiddleware_no_header.
    + destruct (String.eqb_spec (gin.GetHeader c constants.HeaderAuthorization) "")
        as [Hempty|Hne].
      * apply (Hreject "Authorization header is required").
        intros next. by apply MiddlewareFacts.AuthMiddleware_no_header.
      * apply (Hreject "Invalid authorization header format").
        intros next. by apply MiddlewareFacts.AuthMiddleware_bad_format.
    + apply (Hreject "Invalid or expired token").
      intros next. by apply MiddlewareFacts.AuthMiddleware_bad_token with token.
  - intros token claims Hh Hv. eexists. split.
    + intros next. by apply MiddlewareFacts.AuthMiddleware_accepts with token.
    + rewrite !MiddlewareFacts.GetString_Set_ne by done.
      rewrite !MiddlewareFacts.GetString_Set_eq.
      rewrite MiddlewareFacts.GetString_Set_ne by done.
      rewrite !MiddlewareFacts.GetString_Set_eq.
      do 5 (split; [done|]).
      intros handlers i fuel h Hauth Hnext Hi.
      rewrite (MiddlewareFacts.run_starts_handler (S fuel) handlers c i _ Hi Hauth).
      rewrite (MiddlewareFacts.AuthMiddleware_accepts L jwtManager now _ c token claims
                 Hh Hv).
      f_equal. f_equal.
      apply (MiddlewareFacts.run_starts_handler fuel handlers _ (S i) h); [|done].
      cbn [gin.advance gin.Set_ gin.index]. lia.
Qed.

(** C5 at the sample data: a request without the header and a request
    with a Basic header on the admin route, and a request bearing the
    access token of [u1] on a user route. *)
Lemma C5_witness :
  gin.written
    (gin.handleHTTPRequest 3
       (router.users_admin_route Reference.lib Sample.manager 1001 Sample.handler)
       (Sample.request None))
    = [(401, {| gin.Success := false;
                gin.Message := "Authorization header is required" |})] /\
  gin.written
    (gin.handleHTTPRequest 3
       (router.users_admin_route Reference.lib Sample.manager 1001 Sample.handler)
       (Sample.request (Some "Basic dXNlcjpwYXNz")))
    = [(401, {| gin.Success := false;
                gin.Message := "Invalid authorization header format" |})] /\
  (exists c',
     (forall next,
        middleware.AuthMiddleware Reference.lib Sample.manager 1001 next
          (Sample.request (Some ("Bearer " ++ Sample.access_token))) = next c') /\
     gin.GetString c' "user_id" = "u1" /\
     gin.GetString c' "user_email" = "a@x.com" /\
     gin.GetString c' "user_role" = "user").
Proof.
  split.
  { destruct (proj1 (C5_AuthMiddleware_guards_the_chain Reference.lib Sample.manager
                       1001 (gin.advance (gin.reset (Sample.request None))))
                (or_introl eq_refl))
      as (message & Hone & Hchain).
    unfold gin.handleHTTPRequest, gin.Next.
    rewrite (Hchain _ 0%nat 2%nat) by (reflexivity || (simpl; lia)).
    destruct (Hone (fun c0 => c0)) as (_ & _ & Hw).
    vm_compute in Hw. injection Hw as <-. reflexivity. }
  split.
  { destruct (proj1 (C5_AuthMiddleware_guards_the_chain Reference.lib Sample.manager
                       1001 (gin.advance (gin.reset
                                            (Sample.request (Some "Basic dXNlcjpwYXNz"))))))
      as (message & Hone & Hchain).
    { right. left. intros token. vm_compute. discriminate. }
    unfold gin.handleHTTPRequest, gin.Next.
    rewrite (Hchain _ 0%nat 2%nat) by (reflexivity || (simpl; lia)).
    destruct (Hone (fun c0 => c0)) as (_ & _ & Hw).
    vm_compute in Hw. injection Hw as <-. reflexivity. }
  destruct (proj2 (C5_AuthMiddleware_guards_the_chain Reference.lib Sample.manager
                     1001 (Sample.request (Some ("Bearer " ++ Sample.access_token))))
              Sample.access_token
              (Jwt.access_claims Sample.manager 1000 "jti-a" "u1" "a@x.com" "user")
              eq_refl eq_refl) as (c' & Hnext & Hid & Hemail & Hrole & _).
  exists c'. split; [exact Hnext|]. split; [exact Hid|]. split; [exact Hemail|exact Hrole].
Defined.

Lemma existsb_eqb_In (s : string) (l : list string) :
  existsb (fun x => String.eqb s x) l = true <-> In s l.
Proof.
  rewrite existsb_exists. split.
  - intros (x & Hin & ->%String.eqb_eq). done.
  - intros Hin. exists s. by rewrite String.eqb_refl.
Qed.

Section RoleGate.
Import gin middleware.
Variable roles : list string.

Lemma RequireRole_no_role next c :
  GetString c constants.ContextKeyUserRole = "" ->
  RequireRole roles next c = Abort (response.Unauthorized "Unauthorized" c).
Proof. intros H. unfold RequireRole. by rewrite H. Qed.

Lemma RequireRole_not_member next c :
  GetString c constants.ContextKeyUserRole <> "" ->
  ~ In (GetString c constants.ContextKeyUserRole) roles ->
  RequireRole roles next c = Abort (response.Forbidden "Insufficient permissions" c).
Proof.
  intros Hne Hnot. unfold RequireRole.
  destruct (String.eqb_spec (GetString c constants.ContextKeyUserRole) ""); [done|].
  destruct (existsb _ roles) eqn:Hex; [|done].
  by apply existsb_eqb_In in Hex.
Qed.

Lemma RequireRole_member next c :
  GetString c constants.ContextKeyUserRole <> "" ->
  In (GetString c constants.ContextKeyUserRole) roles ->
  RequireRole roles next c = next c.
Proof.
  intros Hne Hin. unfold RequireRole.
  destruct (String.eqb_spec (GetString c constants.ContextKeyUserRole) ""); [done|].
  apply existsb_eqb_In in Hin. by rewrite Hin.
Qed.
End RoleGate.

(** C6, as the code has it: a role gate answers 401 and aborts when the
    context carries no role (the empty string); answers 403 and aborts
    when the role is not empty and is none of the allowed roles; and
    passes the request on when the role is one of them. When it aborts,
    the engine starts none of the handlers that follow the gate; when it
    passes the request on, the engine starts the next handler of the chain
    on the same context. A request with the role "user" is answered 403 by
    the admin-only gate and passed on by a gate that allows "user". *)
Theorem C6_RequireRole_outcomes (roles : list string) (c : gin.Context) :
  (gin.GetString c constants.ContextKeyUserRole = "" ->
     forall next,
       Spec.aborted_with response.StatusUnauthorized "Unauthorized" c
         (middleware.RequireRole roles next c)) /\
  (gin.GetString c constants.ContextKeyUserRole <> "" ->
   ~ In (gin.GetString c constants.ContextKeyUserRole) roles ->
     (forall next,
        Spec.aborted_with response.StatusForbidden "Insufficient permissions" c
          (middleware.RequireRole roles next c)) /\
     (forall handlers i fuel,
        (length handlers < 63)%nat ->
        handlers !! i = Some (middleware.RequireRole roles) ->
        gin.index c = Z.of_nat i ->
        gin.run (S fuel) handlers c =
        gin.advance (gin.Abort (response.Forbidden "Insufficient permissions" c)))) /\
  (gin.GetString c constants.ContextKeyUserRole <> "" ->
   In (gin.GetString c constants.ContextKeyUserRole) roles ->
     (forall next, middleware.RequireRole roles next c = next c) /\
     (forall handlers i fuel h,
        handlers !! i = Some (middleware.RequireRole roles) ->
        handlers !! S i = Some h ->
        gin.index c = Z.of_nat i ->
        gin.run (S (S fuel)) handlers c =
        gin.run (S fuel) handlers
          (gin.advance
             (gin.run fuel handlers
                (gin.advance
                   (h (fun c0 => gin.run fuel handlers (gin.advance c0))
                      (gin.advance c))))))) /\
  (gin.GetString c constants.ContextKeyUserRole = "user" ->
     forall next,
       Spec.aborted_with response.StatusForbidden "Insufficient permissions" c
         (middleware.RequireRole [constants.RoleAdmin] next c) /\
       middleware.RequireRole [constants.RoleUser] next c = next c) /\
  response.StatusForbidden <> response.StatusUnauthorized.
Proof.
  split; [intros Hrole next; by apply RequireRole_no_role|].
  split.
  { intros Hne Hnot. split; [intros next; by apply RequireRole_not_member|].
    intros handlers i fuel Hlen Hgate Hi.
    apply MiddlewareFacts.run_stops_at_abort with i (middleware.RequireRole roles);
      try done.
    intros next. by apply RequireRole_not_member. }
  split.
  { intros Hne Hin. split; [intros next; by apply RequireRole_member|].
    intros handlers i fuel h Hgate Hnext Hi.
    rewrite (MiddlewareFacts.run_starts_handler (S fuel) handlers c i _ Hi Hgate).
    rewrite (RequireRole_member roles _ c Hne Hin).
    f_equal. f_equal.
    apply (MiddlewareFacts.run_starts_handler fuel handlers _ (S i) h); [|done].
    cbn [gin.advance gin.index]. lia. }
  split; [|done].
  intros Hrole next. split.
  - apply RequireRole_not_member; rewrite Hrole; [done|].
    intros [?|[]]. done.
  - apply RequireRole_member; rewrite Hrole; [done|]. by left.
Qed.

(** C6 at the sample data: a context whose role is "user", behind the
    admin-only gate and behind a gate that allows "user". *)
Lemma C6_witness :
  Spec.aborted_with 403 "Insufficient permissions"
    (gin.Set_ "user_role" "user" (Sample.request None))
    (middleware.RequireRole ["admin"] (fun c => c)
       (gin.Set_ "user_role" "user" (Sample.request None))) /\
  middleware.RequireRole ["user"] (fun c => c)
    (gin.Set_ "user_role" "user" (Sample.request None))
  = gin.Set_ "user_role" "user" (Sample.request None).
Proof.
  destruct (C6_RequireRole_outcomes []
              (gin.Set_ "user_role" "user" (Sample.request None)))
    as (_ & _ & _ & Huser & _).
  apply (Huser eq_refl (fun c => c)).
Defined.

(** C6 as stated fails: on the admin route, a request that bears the
    refresh token of [u1] passes the authentication middleware with an
    empty role; the role is not a member of the allowed set, yet the gate
    answers 401 (unauthorized), not 403 (forbidden). The same holds of the
    gate alone on a context without a role. *)
Lemma C6_counterexample :
  ~ In (gin.GetString (Sample.request None) constants.ContextKeyUserRole)
      [constants.RoleAdmin] /\
  gin.written (middleware.RequireRole [constants.RoleAdmin] (fun c => c)
                 (Sample.request None))
    = [(401, {| gin.Success := false; gin.Message := "Unauthorized" |})] /\
  is_ok (Jwt.ValidateAccessToken Reference.lib Sample.manager 1001 Sample.refresh_token)
    = true /\
  gin.written
    (gin.handleHTTPRequest 3
       (router.users_admin_route Reference.lib Sample.manager 1001 Sample.handler)
       (Sample.request (Some ("Bearer " ++ Sample.refresh_token))))
    = [(401, {| gin.Success := false; gin.Message := "Unauthorized" |})].
Proof.
  split; [intros [?|[]]; done|].
  repeat split; vm_compute; reflexivity.
Qed.

(** ** C8: soft delete *)

Module PostgresFacts.
Import entity repository repository.Postgres.

Lemma NoDup_map_eq {A B : Type} (f : A -> B) (l : list A) (x y : A) :
  NoDup (map f l) -> In x l -> In y l -> f x = f y -> x = y.
Proof.
  induction l as [|a l IH]; [done|].
  cbn [map]. rewrite NoDup_cons. intros [Hnot Hnd] [->|Hx] [->|Hy] Heq; auto.
  - destruct Hnot. rewrite Heq. apply list_elem_of_In, in_map, Hy.
  - destruct Hnot. rewrite <- Heq. apply list_elem_of_In, in_map, Hx.
Qed.

Lemma deleted_row_not_live now u : live (deleted_row now u) = false.
Proof. unfold live. by rewrite bool_decide_false. Qed.

Section Delete.
Variable id : string.
Variable now : Z.

Local Abbreviation after_delete := (after_delete id now).

Lemma after_delete_ID u : ID (after_delete u) = ID u.
Proof. unfold after_delete. by destruct (_ && _). Qed.

Lemma after_delete_Email u : Email (after_delete u) = Email u.
Proof. unfold after_delete. by destruct (_ && _). Qed.

Lemma after_delete_Username u : Username (after_delete u) = Username u.
Proof. unfold after_delete. by destruct (_ && _). Qed.

(** A row that is live after the delete is a row of before, unchanged,
    with another id. *)
Lemma after_delete_live u :
  live (after_delete u) = true ->
  after_delete u = u /\ live u = true /\ ID u <> id.
Proof.
  unfold after_delete.
  destruct (String.eqb_spec (ID u) id) as [Heq|Hne]; cbn [andb].
  - destruct (live u) eqn:Hlive; [done|]. by rewrite Hlive.
  - done.
Qed.

Lemma live_after_delete rows u :
  In u (map after_delete rows) -> live u = true ->
  In u rows /\ ID u <> id.
Proof.
  rewrite in_map_iff. intros (r & <- & Hin) Hlive.
  apply after_delete_live in Hlive as (-> & _ & Hne). done.
Qed.

(** No query that asks for [id] among the live rows finds a row. *)
Lemma no_live_row_with_id rows :
  List.filter (fun u => String.eqb (ID u) id && live u) (map after_delete rows) = [].
Proof.
  destruct (List.filter _ _) as [|u rest] eqn:Hf; [done|].
  assert (Hin : In u (List.filter (fun u => String.eqb (ID u) id && live u)
                        (map after_delete rows))) by (rewrite Hf; by left).
  apply filter_In in Hin as [Hin Hp]. apply andb_true_iff in Hp as [Hid Hlive].
  apply live_after_delete in Hin as [_ Hne]; [|done].
  by apply String.eqb_eq in Hid.
Qed.

(** Under the table's constraints, no query on a column of the deleted
    row finds a live row. *)
Lemma no_live_row_with_column (col : User -> string) rows u :
  NoDup (map col rows) -> In u rows -> ID u = id ->
  List.filter (fun r => String.eqb (col r) (col u) && live r)
    (List.filter (fun r => negb (String.eqb (ID r) id)) rows) = [].
Proof.
  intros Hnd Hu Hid.
  destruct (List.filter _ _) as [|r rest] eqn:Hf; [done|].
  assert (Hin : In r (List.filter (fun r => String.eqb (col r) (col u) && live r)
                        (List.filter (fun r => negb (String.eqb (ID r) id)) rows)))
    by (rewrite Hf; by left).
  apply filter_In in Hin as [Hin Hp]. apply filter_In in Hin as [Hin Hne].
  apply andb_true_iff in Hp as [Hcol _]. apply String.eqb_eq in Hcol.
  assert (r = u) as -> by eauto using NoDup_map_eq.
  rewrite Hid, String.eqb_refl in Hne. done.
Qed.

(** The live rows after the delete are the live rows of before with
    another id. *)
Lemma filter_live_after_delete (p : User -> bool) rows :
  (forall u, p (after_delete u) = p u) ->
  List.filter (fun r => p r && live r) (map after_delete rows) =
  List.filter (fun r => p r && live r)
    (List.filter (fun r => negb (String.eqb (ID r) id)) rows).
Proof.
  intros Hp. induction rows as [|r rows IH]; [done|].
  cbn [map List.filter]. rewrite IH, Hp.
  assert (Hcases : (ID r = id /\ live (after_delete r) = false) \/
                   (ID r <> id /\ after_delete r = r)).
  { unfold Postgres.after_delete.
    destruct (String.eqb_spec (ID r) id) as [Heq|Hne]; [left|right; done].
    split; [done|]. cbn [andb]. destruct (live r) eqn:Hlive; [|done].
    apply deleted_row_not_live. }
  destruct Hcases as [[Heq Hdead]|[Hne Hsame]].
  - rewrite Hdead, andb_false_r. apply String.eqb_eq in Heq. by rewrite Heq.
  - rewrite Hsame. apply String.eqb_neq in Hne. by rewrite Hne.
Qed.

Lemma Delete_live_row db u :
  unreachable db = false -> In u (users db) -> ID u = id -> DeletedAt u = None ->
  NOW db = now ->
  Delete id db = (None, with_users db (map after_delete (users db))).
Proof.
  intros Hup Hin Hid Hlive Hnow. unfold Delete. rewrite Hup.
  destruct (List.filter _ (users db)) as [|r rest] eqn:Hf.
  - assert (Hu : In u (List.filter (fun u => String.eqb (ID u) id && live u) (users db))).
    { apply filter_In. split; [done|]. rewrite Hid, String.eqb_refl. unfold live.
      by rewrite bool_decide_true. }
    rewrite Hf in Hu. done.
  - rewrite Hnow. reflexivity.
Qed.
End Delete.

End PostgresFacts.

Module SoftDelete.
Import entity repository repository.Postgres.


Lemma QueryRow_none where_ db :
  unreachable db = false -> List.filter where_ (users db) = [] ->
  QueryRow where_ db = Err (Sentinel pgx_ErrNoRows).
Proof. intros Hup Hf. unfold QueryRow. by rewrite Hup, Hf. Qed.

Section AfterDelete.
Variable ILIKE : string -> string -> bool.
Variable db : Database.
Variable u : User.
Hypothesis reachable : unreachable db = false.
Hypothesis stored : In u (users db).
Hypothesis not_deleted : DeletedAt u = None.

Local Abbreviation db' :=
  (with_users db (map (after_delete (ID u) (NOW db)) (users db))).

Lemma Delete_result : Delete (ID u) db = (None, db').
Proof. by apply PostgresFacts.Delete_live_row with u. Qed.




Lemma GetByID_after : GetByID (ID u) db' = Err errors.ErrUserNotFound.
Proof.
  unfold GetByID. rewrite QueryRow_none; [done|done|].
  apply PostgresFacts.no_live_row_with_id.
Qed.

Lemma Delete_after : Delete (ID u) db' = (Some errors.ErrUserNotFound, db').
Proof.
  unfold Delete. cbn [users unreachable with_users]. rewrite reachable.
  by rewrite PostgresFacts.no_live_row_with_id.
Qed.


Lemma no_live_row_of_column (col : User -> string) :
  (forall r, col (after_delete (ID u) (NOW db) r) = col r) ->
  NoDup (map col (users db)) ->
  List.filter (fun r => String.eqb (col r) (col u) && live r) (users db') = [].
Proof.
  intros Hcol Hnd. cbn [users with_users].
  rewrite (PostgresFacts.filter_live_after_delete (ID u) (NOW db)
             (fun r => String.eqb (col r) (col u))).
  - by apply PostgresFacts.no_live_row_with_column.
  - intros r. by rewrite Hcol.
Qed.

Lemma GetByEmail_after :
  NoDup (map Email (users db)) ->
  GetByEmail (Email u) db' = Err errors.ErrUserNotFound.
Proof.
  intros Hnd. unfold GetByEmail. rewrite QueryRow_none; [done|done|].
  apply (no_live_row_of_column Email); [|done].
  apply PostgresFacts.after_delete_Email.
Qed.




End AfterDelete.

End SoftDelete.

Module RegisterFacts.
Import entity repository.

(** A successful insert appends the row, with no deletion time. *)
Lemma Create_appends user db db' :
  Postgres.Create user db = (None, db') ->
  exists row,
    users db' = (users db ++ [row])%list /\
    ID row = ID user /\ Email row = Email user /\ Username row = Username user /\
    Status row = Status user /\ DeletedAt row = None.
Proof.
  unfold Postgres.Create. destruct (unreachable db); [done|].
  destruct (refused _ _); [done|]. intros [= <-].
  eexists. split; [reflexivity|]. done.
Qed.

(** [Register] answers with a user only after it has inserted the user
    [NewUser] built, whose status is "active". *)
Lemma Register_ok_inv {DB : Type} (userRepo : UserRepository DB) B passwordHasher
    now uuid salt req w resp w' :
  usecase.Register userRepo B passwordHasher now uuid salt req w = (Ok resp, w') ->
  exists hashedPassword,
    Create userRepo
      (NewUser now uuid (dto.reg_Email req) (dto.reg_Username req) hashedPassword
         (dto.reg_FullName req) constants.RoleUser) (usecase.db w)
      = (None, usecase.db w') /\
    resp = usecase.toUserResponse
             (NewUser now uuid (dto.reg_Email req) (dto.reg_Username req) hashedPassword
                (dto.reg_FullName req) constants.RoleUser).
Proof.
  unfold usecase.Register, usecase.bind, usecase.userRepo_ExistsByEmail,
    usecase.userRepo_ExistsByUsername, usecase.userRepo_Create.
  destruct (ExistsByEmail userRepo _ _) as [[|]|]; [done| |done].
  cbn [usecase.logged usecase.db].
  destruct (ExistsByUsername userRepo _ _) as [[|]|]; [done| |done].
  cbn [usecase.logged usecase.db].
  destruct (crypto.Hash B passwordHasher salt _) as [hashedPassword|]; [|done].
  destruct (Create userRepo _ _) as [[e|] d] eqn:Hcreate; [done|].
  cbn. intros [= <- <-]. by exists hashedPassword.
Qed.

End RegisterFacts.



(** ** Further properties of the code *)

Section CacheInvalidation.
Context {DB : Type}.
Variable userRepo : repository.UserRepository DB.
Variable cacheReachable : bool.
Variable cacheEncodes : bool.

Lemma UpdateProfile_ok_inv now userID req w resp w' :
  usecase.UpdateProfile userRepo cacheReachable now userID req w = (Ok resp, w') ->
  exists d user0,
    repository.GetByID userRepo userID (usecase.db w) = Ok user0 /\
    w' = usecase.mkWorld d
           (if cacheReachable
            then delete (constants.CacheKeyUserPrefix ++ userID) (usecase.cache w)
            else usecase.cache w)
           (usecase.calls w ++
            [usecase.Repo_GetByID userID;
             usecase.Repo_Update (entity.UpdateProfile now (dto.upd_FullName req) user0);
             usecase.Cache_Delete (constants.CacheKeyUserPrefix ++ userID)])%list.
Proof.
  unfold usecase.UpdateProfile, usecase.bind, usecase.userRepo_GetByID,
    usecase.userRepo_Update, usecase.cache_Delete.
  destruct (repository.GetByID userRepo userID (usecase.db w)) as [user0|err].
  - cbn [usecase.logged usecase.db usecase.cache usecase.calls].
    destruct (repository.Update userRepo _ _) as [[e|] d]; [done|].
    unfold usecase.logged, usecase.ret. cbn [usecase.db usecase.cache usecase.calls].
    intros [= <- <-]. exists d, user0. split; [done|].
    by rewrite <- !app_assoc.
  - by destruct (Is err _).
Qed.

Lemma DeleteUser_ok_inv userID w w' :
  usecase.DeleteUser userRepo cacheReachable userID w = (None, w') ->
  exists d,
    w' = usecase.mkWorld d
           (if cacheReachable
            then delete (constants.CacheKeyUserPrefix ++ userID) (usecase.cache w)
            else usecase.cache w)
           (usecase.calls w ++
            [usecase.Repo_Delete userID;
             usecase.Cache_Delete (constants.CacheKeyUserPrefix ++ userID)])%list.
Proof.
  unfold usecase.DeleteUser, usecase.bind, usecase.userRepo_Delete, usecase.cache_Delete.
  destruct (repository.Delete userRepo userID (usecase.db w)) as [[e|] d].
  - by destruct (Is e _).
  - unfold usecase.logged, usecase.ret. cbn [usecase.db usecase.cache usecase.calls].
    intros [= <-]. exists d. by rewrite <- !app_assoc.
Qed.

Lemma GetProfile_ok_inv userID w resp w' :
  usecase.GetProfile userRepo cacheReachable cacheEncodes userID w = (Ok resp, w') ->
  exists user,
    repository.GetByID userRepo userID (usecase.db w) = Ok user /\
    resp = usecase.toUserResponse user /\
    usecase.cache w' =
      (if cacheReachable && cacheEncodes
       then <[constants.CacheKeyUserPrefix ++ userID := user]> (usecase.cache w)
       else usecase.cache w) /\
    last (usecase.calls w')
      = Some (usecase.Cache_Set (constants.CacheKeyUserPrefix ++ userID) user
                constants.CacheTTLMedium).
Proof.
  unfold usecase.GetProfile, usecase.bind, usecase.userRepo_GetByID, usecase.cache_Set.
  destruct (repository.GetByID userRepo userID (usecase.db w)) as [user|err].
  - unfold usecase.logged, usecase.ret. cbn [usecase.db usecase.cache usecase.calls].
    intros [= <- <-]. exists user. cbn [usecase.cache usecase.calls].
    rewrite <- app_assoc, last_app. done.
  - by destruct (Is err _).
Qed.
End CacheInvalidation.

(** X1: the cache is written and invalidated by key "user:" + id. A
    successful [GetProfile] ends with a cache write of the user the store
    returned under that key (and the key then holds that user if the cache
    client encodes the value); after a successful [UpdateProfile] and after
    a successful [DeleteUser] the key is gone, the delete being the last
    call made. *)
Theorem X1_profile_cache_written_and_invalidated
    {DB : Type} (userRepo : repository.UserRepository DB) (userID : string)
    (w : usecase.World DB) :
  (forall cacheReachable cacheEncodes resp w',
     usecase.GetProfile userRepo cacheReachable cacheEncodes userID w = (Ok resp, w') ->
     exists user,
       repository.GetByID userRepo userID (usecase.db w) = Ok user /\
       last (usecase.calls w')
         = Some (usecase.Cache_Set (constants.CacheKeyUserPrefix ++ userID) user
                   constants.CacheTTLMedium) /\
       (cacheReachable = true -> cacheEncodes = true ->
          usecase.cache w' !! (constants.CacheKeyUserPrefix ++ userID) = Some user)) /\
  (forall cacheReachable now req resp w',
     usecase.UpdateProfile userRepo cacheReachable now userID req w = (Ok resp, w') ->
     last (usecase.calls w')
       = Some (usecase.Cache_Delete (constants.CacheKeyUserPrefix ++ userID)) /\
     (cacheReachable = true ->
        usecase.cache w' !! (constants.CacheKeyUserPrefix ++ userID) = None)) /\
  (forall cacheReachable w',
     usecase.DeleteUser userRepo cacheReachable userID w = (None, w') ->
     last (usecase.calls w')
       = Some (usecase.Cache_Delete (constants.CacheKeyUserPrefix ++ userID)) /\
     (cacheReachable = true ->
        usecase.cache w' !! (constants.CacheKeyUserPrefix ++ userID) = None)).
Proof.
  split; [|split].
  - intros cacheReachable cacheEncodes resp w' H.
    apply GetProfile_ok_inv in H as (user & Hget & _ & Hcache & Hlast).
    exists user. split; [done|]. split; [done|].
    intros -> ->. rewrite Hcache. apply lookup_insert_eq.
  - intros cacheReachable now req resp w' H.
    apply UpdateProfile_ok_inv in H as (d & user0 & _ & ->).
    cbn [usecase.cache usecase.calls]. split; [by rewrite last_app|].
    intros ->. apply lookup_delete_eq.
  - intros cacheReachable w' H. apply DeleteUser_ok_inv in H as (d & ->).
    cbn [usecase.cache usecase.calls]. split; [by rewrite last_app|].
    intros ->. apply lookup_delete_eq.
Qed.

(** X1 at the sample data: the profile of [u1] is cached under
    "user:u1" and the user is then deleted. *)
Lemma X1_witness :
  usecase.cache
    (snd (usecase.DeleteUser Sample.userRepo true "u1"
            (Sample.world [Sample.alice] {[ "user:u1" := Sample.alice ]})))
    !! "user:u1" = None.
Proof.
  destruct (X1_profile_cache_written_and_invalidated Sample.userRepo "u1"
              (Sample.world [Sample.alice] {[ "user:u1" := Sample.alice ]}))
    as (_ & _ & Hdelete).
  apply (Hdelete true _); reflexivity.
Defined.

(** X2: an access token issued by [GenerateAccessToken] validates, under
    the same manager, from its issue until its expiry, with the claims it
    was issued with; from its expiry on it fails with the expired-token
    error. *)
Theorem X2_access_token_valid_then_expired
    (L : Jwt.Library) (m : Jwt.Manager) (now : Z) (jti userID email role : string)
    (t : string) (now' : Z) :
  Jwt.reads_back L ->
  Jwt.GenerateAccessToken L m now jti userID email role = Ok t ->
  (now <= now' < now + Jwt.accessTokenDuration m ->
     Jwt.ValidateAccessToken L m now' t
       = Ok (Jwt.access_claims m now jti userID email role)) /\
  (now + Jwt.accessTokenDuration m <= now' ->
     Jwt.ValidateAccessToken L m now' t = Err Jwt.ErrExpiredToken).
Proof.
  intros Hrb Hgen. split; intros Hwin.
  - by apply ValidateAccessToken_access_token.
  - unfold Jwt.GenerateAccessToken in Hgen. unfold Jwt.ValidateAccessToken.
    rewrite (ParseWithClaims_own_token L _ _ m now' _ _ t Hrb Hgen
               (JwtFacts.unmarshal_Claims_of_Claims _)).
    destruct (validate_expired now'
                (Jwt.Registered (Jwt.access_claims m now jti userID email role))
                (now + Jwt.accessTokenDuration m)) as [rest ->]; [reflexivity|done|].
    reflexivity.
Qed.

Lemma X2_witness :
  Jwt.ValidateAccessToken Reference.lib Sample.manager 1000 Sample.access_token
    = Ok (Jwt.access_claims Sample.manager 1000 "jti-a" "u1" "a@x.com" "user") /\
  Jwt.ValidateAccessToken Reference.lib Sample.manager 1900 Sample.access_token
    = Err Jwt.ErrExpiredToken.
Proof.
  split.
  - apply (X2_access_token_valid_then_expired Reference.lib Sample.manager 1000 "jti-a"
             "u1" "a@x.com" "user" Sample.access_token 1000
             ReferenceFacts.lib_reads_back eq_refl). simpl. lia.
  - apply (X2_access_token_valid_then_expired Reference.lib Sample.manager 1000 "jti-a"
             "u1" "a@x.com" "user" Sample.access_token 1900
             ReferenceFacts.lib_reads_back eq_refl). simpl. lia.
Defined.

Lemma unmarshal_Claims_of_Registered r :
  Jwt.unmarshal_Claims (Jwt.marshal_RegisteredClaims r) = Some (Jwt.mkClaims "" "" "" r).
Proof.
  destruct r as [sub exp nbf iat jti].
  unfold Jwt.marshal_RegisteredClaims;
    cbn [Jwt.Subject Jwt.ExpiresAt Jwt.NotBefore Jwt.IssuedAt Jwt.ID].
  destruct (JwtFacts.omit_string_cases "sub" sub) as [[-> ->]|[? ->]];
  destruct (JwtFacts.omit_string_cases "jti" jti) as [[-> ->]|[? ->]];
  destruct exp, nbf, iat; reflexivity.
Qed.

(** X3: a refresh token issued by [GenerateRefreshToken] is accepted by
    [ValidateAccessToken] of the same manager during its lifetime; the
    claims it returns carry an empty user id, email and role. *)
Theorem X3_refresh_token_validates_as_access_token
    (L : Jwt.Library) (m : Jwt.Manager) (now : Z) (jti userID : string)
    (t : string) (now' : Z) :
  Jwt.reads_back L ->
  Jwt.GenerateRefreshToken L m now jti userID = Ok t ->
  now <= now' < now + Jwt.refreshTokenDuration m ->
  Jwt.ValidateAccessToken L m now' t
    = Ok (Jwt.mkClaims "" "" "" (Jwt.refresh_claims m now jti userID)).
Proof.
  intros Hrb Hgen Hwin. unfold Jwt.GenerateRefreshToken in Hgen.
  unfold Jwt.ValidateAccessToken.
  rewrite (ParseWithClaims_own_token L _ _ m now' _ _ t Hrb Hgen
             (unmarshal_Claims_of_Registered _)).
  rewrite (validate_in_window now' _ now (now + Jwt.refreshTokenDuration m));
    [reflexivity|reflexivity|reflexivity|done].
Qed.

Lemma X3_witness :
  Jwt.ValidateAccessToken Reference.lib Sample.manager 1001 Sample.refresh_token
    = Ok (Jwt.mkClaims "" "" "" (Jwt.refresh_claims Sample.manager 1000 "jti-r" "u1")).
Proof.
  apply (X3_refresh_token_validates_as_access_token Reference.lib Sample.manager 1000
           "jti-r" "u1" Sample.refresh_token 1001 ReferenceFacts.lib_reads_back eq_refl).
  simpl. lia.
Defined.

Module ConstraintFacts.
Import entity repository repository.Postgres.

Lemma NoDup_map_through {A B C : Type} (k : A -> B) (g : A -> C) (l : list A) :
  NoDup (map k l) ->
  (forall x y, In x l -> In y l -> g x = g y -> k x = k y) ->
  NoDup (map g l).
Proof.
  induction l as [|a l IH]; [constructor|].
  cbn [map]. rewrite !NoDup_cons. intros [Hnot Hnd] Hsame. split.
  - intros Hin. apply list_elem_of_In, in_map_iff in Hin as (y & Hy & Hin).
    apply Hnot. apply list_elem_of_In, in_map_iff. exists y. split; [|done].
    symmetry. apply Hsame; [by left|by right|done].
  - apply IH; [done|]. intros x y Hx Hy. apply Hsame; by right.
Qed.

Lemma no_clash_in others row o :
  existsb (clashes row) others = false -> In o others ->
  ID o <> ID row /\ Email o <> Email row /\ Username o <> Username row.
Proof.
  intros Hex Hin. destruct (clashes row o) eqn:Hc.
  - assert (existsb (clashes row) others = true) as Ht
      by (apply existsb_exists; eauto). by rewrite Ht in Hex.
  - unfold clashes in Hc. rewrite !orb_false_iff, !String.eqb_neq in Hc.
    destruct Hc as [[? ?] ?]. done.
Qed.

Lemma refused_None others row :
  refused others row = None -> existsb (clashes row) others = false.
Proof.
  unfold refused. destruct (fits row); [|done]. destruct (checks row); [|done].
  cbn. by destruct (existsb _ _).
Qed.

Lemma NoDup_map_snoc {A B : Type} (f : A -> B) (l : list A) (a : A) :
  NoDup (map f l) -> (forall o, In o l -> f o <> f a) -> NoDup (map f (l ++ [a])).
Proof.
  intros Hnd Hnew. rewrite map_app. cbn [map]. apply NoDup_app. split; [done|].
  split; [|apply NoDup_singleton].
  intros x Hx Hx'. apply list_elem_of_In, in_map_iff in Hx as (o & <- & Ho).
  apply list_elem_of_singleton in Hx'. by apply (Hnew o).
Qed.

Lemma Create_constrained user db e db' :
  Spec.constrained db -> Create user db = (e, db') -> Spec.constrained db'.
Proof.
  intros (Hid & Hemail & Hname). unfold Create.
  destruct (unreachable db); [by intros [= _ <-]|].
  destruct (refused _ _) eqn:Href; [by intros [= _ <-]|]. intros [= _ <-].
  apply refused_None in Href.
  unfold Spec.constrained. cbn [users with_users].
  split; [|split]; apply NoDup_map_snoc; try done; intros o Ho;
    by destruct (no_clash_in _ _ o Href Ho) as (? & ? & ?).
Qed.

Lemma Delete_constrained id db e db' :
  Spec.constrained db -> Delete id db = (e, db') -> Spec.constrained db'.
Proof.
  intros (Hid & Hemail & Hname). unfold Delete.
  destruct (unreachable db); [by intros [= _ <-]|].
  destruct (List.filter _ _); [by intros [= _ <-]|]. intros [= _ <-].
  unfold Spec.constrained. cbn [users with_users]. rewrite !map_map.
  rewrite (map_ext _ ID) by apply PostgresFacts.after_delete_ID.
  rewrite (map_ext (fun x => Email _) Email) by apply PostgresFacts.after_delete_Email.
  by rewrite (map_ext (fun x => Username _) Username)
    by apply PostgresFacts.after_delete_Username.
Qed.

Lemma filter_singleton_In {A} (p : A -> bool) (l : list A) (a x : A) :
  List.filter p l = [a] -> In x l -> p x = true -> x = a.
Proof.
  intros Hf Hin Hp.
  assert (In x (List.filter p l)) as Hx by (by apply filter_In).
  rewrite Hf in Hx. by destruct Hx as [->|[]].
Qed.

Lemma Update_constrained user db e db' :
  Spec.constrained db -> Update user db = (e, db') -> Spec.constrained db'.
Proof.
  intros (Hid & Hemail & Hname). unfold Update.
  destruct (unreachable db); [by intros [= _ <-]|]. cbv zeta.
  destruct (List.filter (fun u => String.eqb (ID u) (ID user) && live u) (users db))
    as [|old [|]] eqn:Hhit; [by intros [= _ <-]| |by intros [= _ <-]].
  destruct (refused _ _) eqn:Href; [by intros [= _ <-]|]. intros [= _ <-].
  apply refused_None in Href.
  set (hit := fun u => String.eqb (ID u) (ID user) && live u) in *.
  set (f := fun u => if hit u then updated_row user u else u).
  assert (Hother : forall y, In y (users db) -> hit y = false ->
            ID y <> ID old /\ Email y <> Email user /\ Username y <> Username user).
  { intros y Hy Hny.
    destruct (no_clash_in _ (updated_row user old) y Href) as (? & ? & ?); [|done].
    apply filter_In. split; [done|]. change (negb (hit y) = true). by rewrite Hny. }
  assert (Hcol : forall (col : User -> string),
            (forall u, hit u = true -> col (f u) = col (updated_row user old)) ->
            (forall y, In y (users db) -> hit y = false ->
               col y <> col (updated_row user old)) ->
            NoDup (map col (users db)) ->
            NoDup (map (fun u => col (f u)) (users db))).
  { intros col Hnew Hfresh Hnd.
    apply (NoDup_map_through ID); [done|].
    intros x y Hx Hy. unfold f.
    destruct (hit x) eqn:Hhx, (hit y) eqn:Hhy.
    - intros _.
      by rewrite (filter_singleton_In hit _ old x Hhit Hx Hhx),
                 (filter_singleton_In hit _ old y Hhit Hy Hhy).
    - rewrite (filter_singleton_In hit _ old x Hhit Hx Hhx).
      intros Heq. by destruct (Hfresh y Hy Hhy).
    - rewrite (filter_singleton_In hit _ old y Hhit Hy Hhy).
      intros Heq. by destruct (Hfresh x Hx Hhx).
    - intros Heq. f_equal. by apply (PostgresFacts.NoDup_map_eq col (users db)). }
  unfold Spec.constrained. cbn [users with_users]. rewrite !map_map.
  split; [|split].
  - rewrite (map_ext _ ID); [done|]. intros u. by destruct (_ && _).
  - apply (Hcol Email); [|intros y Hy Hny; by destruct (Hother y Hy Hny) as (?&?&?)|done].
    intros u Hu. unfold f. by rewrite Hu.
  - apply (Hcol Username);
      [|intros y Hy Hny; by destruct (Hother y Hy Hny) as (?&?&?)|done].
    intros u Hu. unfold f. by rewrite Hu.
Qed.

End ConstraintFacts.

(** X4: the statements of [PostgresUserRepository] keep the table's key
    constraints: after [Create], [Update] or [Delete], successful or not,
    ids, emails and usernames are still unique among all rows. *)
Theorem X4_table_constraints_preserved (db : repository.Database) :
  Spec.constrained db ->
  (forall user e db',
     repository.Postgres.Create user db = (e, db') -> Spec.constrained db') /\
  (forall user e db',
     repository.Postgres.Update user db = (e, db') -> Spec.constrained db') /\
  (forall id e db',
     repository.Postgres.Delete id db = (e, db') -> Spec.constrained db').
Proof.
  intros Hc. split; [|split].
  - intros user e db'. by apply ConstraintFacts.Create_constrained.
  - intros user e db'. by apply ConstraintFacts.Update_constrained.
  - intros id e db'. by apply ConstraintFacts.Delete_constrained.
Qed.

Lemma X4_witness :
  Spec.constrained (snd (repository.Postgres.Delete "u1" (Sample.server [Sample.alice]))).
Proof.
  destruct (X4_table_constraints_preserved (Sample.server [Sample.alice]))
    as (_ & _ & Hdelete).
  - repeat split; repeat constructor; intros Hin; inversion Hin.
  - apply (Hdelete "u1" (fst (repository.Postgres.Delete "u1"
                                (Sample.server [Sample.alice])))).
    reflexivity.
Defined.

(** X5: after a registration has succeeded on the Postgres repository, a
    second registration with the same email is answered "email already
    exists" and leaves the table as it is. *)
Theorem X5_second_registration_conflicts
    (ILIKE : string -> string -> bool) (B : crypto.Bcrypt)
    (passwordHasher : crypto.PasswordHasher)
    (now : Z) (uuid salt : string) (req : dto.RegisterRequest)
    (w : usecase.World repository.Database) (resp : dto.UserResponse)
    (w1 : usecase.World repository.Database)
    (now' : Z) (uuid' salt' : string) (req' : dto.RegisterRequest) :
  usecase.Register (repository.Postgres.NewPostgresUserRepository ILIKE) B
    passwordHasher now uuid salt req w = (Ok resp, w1) ->
  dto.reg_Email req' = dto.reg_Email req ->
  fst (usecase.Register (repository.Postgres.NewPostgresUserRepository ILIKE) B
         passwordHasher now' uuid' salt' req' w1) = Err errors.ErrEmailAlreadyExists /\
  usecase.db (snd (usecase.Register (repository.Postgres.NewPostgresUserRepository ILIKE)
                     B passwordHasher now' uuid' salt' req' w1)) = usecase.db w1.
Proof.
  intros Hreg Hsame.
  apply RegisterFacts.Register_ok_inv in Hreg as (hashed & Hcreate & _).
  cbn [repository.Create repository.Postgres.NewPostgresUserRepository] in Hcreate.
  assert (Hup : repository.unreachable (usecase.db w1) = false).
  { unfold repository.Postgres.Create in Hcreate.
    destruct (repository.unreachable (usecase.db w)) eqn:Hup; [done|].
    destruct (repository.refused _ _); [done|]. by injection Hcreate as <-. }
  apply RegisterFacts.Create_appends in Hcreate
    as (row & Hrows & _ & Hemail & _ & _ & Hlive).
  assert (Hexists : repository.Postgres.ExistsByEmail (dto.reg_Email req')
                      (usecase.db w1) = Ok true).
  { unfold repository.Postgres.ExistsByEmail. rewrite Hup. f_equal.
    apply existsb_exists. exists row. split.
    - rewrite Hrows. apply in_or_app. right. by left.
    - rewrite Hsame, Hemail. cbn [entity.NewUser entity.Email].
      rewrite String.eqb_refl. unfold repository.live. by rewrite Hlive. }
  unfold usecase.Register, usecase.bind, usecase.userRepo_ExistsByEmail.
  cbn [repository.ExistsByEmail repository.Postgres.NewPostgresUserRepository].
  by rewrite Hexists.
Qed.

Lemma X5_witness :
  fst (usecase.Register Sample.userRepo Reference.bcrypt Sample.hasher 1001 "u3" "salt"
         (dto.mkRegisterRequest "b@x.com" "bob2" "Abcdef1!" "Bob B")
         (snd (usecase.Register Sample.userRepo Reference.bcrypt Sample.hasher 1000 "u2"
                 "salt" (dto.mkRegisterRequest "b@x.com" "bob" "Abcdef1!" "Bob B")
                 (Sample.world [Sample.alice] ∅))))
    = Err errors.ErrEmailAlreadyExists.
Proof.
  pose proof (X5_second_registration_conflicts Reference.ILIKE Reference.bcrypt
                Sample.hasher 1000 "u2" "salt"
                (dto.mkRegisterRequest "b@x.com" "bob" "Abcdef1!" "Bob B")
                (Sample.world [Sample.alice] ∅)) as Hsecond.
  destruct (usecase.Register Sample.userRepo Reference.bcrypt Sample.hasher 1000 "u2"
              "salt" (dto.mkRegisterRequest "b@x.com" "bob" "Abcdef1!" "Bob B")
              (Sample.world [Sample.alice] ∅)) as [[resp|e] w1] eqn:Hfirst.
  - apply (Hsecond resp w1 1001 "u3" "salt"
             (dto.mkRegisterRequest "b@x.com" "bob2" "Abcdef1!" "Bob B") Hfirst eq_refl).
  - vm_compute in Hfirst. discriminate Hfirst.
Defined.

(** X6: on the Postgres repository, once a user has been deleted,
    [Login] with that user's email is answered "invalid credentials",
    whatever the password: the deleted row is not found, so the check of
    the account's status is not reached. *)
Theorem X6_login_after_delete_is_invalid_credentials
    (ILIKE : string -> string -> bool) (B : crypto.Bcrypt)
    (passwordHasher : crypto.PasswordHasher) (L : Jwt.Library) (m : Jwt.Manager)
    (db : repository.Database) (u : entity.User) (db' : repository.Database)
    (now : Z) (jtiAccess jtiRefresh : string) (password : string)
    (cached : gmap string entity.User) (log : list usecase.Call) :
  repository.unreachable db = false ->
  In u (repository.users db) ->
  entity.DeletedAt u = None ->
  Spec.constrained db ->
  repository.Postgres.Delete (entity.ID u) db = (None, db') ->
  fst (usecase.Login (repository.Postgres.NewPostgresUserRepository ILIKE) B
         passwordHasher L m now jtiAccess jtiRefresh
         (dto.mkLoginRequest (entity.Email u) password)
         (usecase.mkWorld db' cached log)) = Err errors.ErrInvalidCredentials.
Proof.
  intros Hup Hin Hlive (_ & Hemail & _) Hdel.
  rewrite (SoftDelete.Delete_result db u Hup Hin Hlive) in Hdel. injection Hdel as <-.
  apply Login_not_found with errors.ErrUserNotFound; [|done].
  by apply SoftDelete.GetByEmail_after.
Qed.

Lemma X6_witness :
  fst (usecase.Login Sample.userRepo Reference.bcrypt Sample.hasher Reference.lib
         Sample.manager 1001 "jti-a" "jti-r" (dto.mkLoginRequest "a@x.com" "Abcdef1!")
         (Sample.world [repository.Postgres.deleted_row 1000 Sample.alice] ∅))
    = Err errors.ErrInvalidCredentials.
Proof.
  apply (X6_login_after_delete_is_invalid_credentials Reference.ILIKE Reference.bcrypt
           Sample.hasher Reference.lib Sample.manager
           (Sample.server [Sample.alice]) Sample.alice
           (Sample.server [repository.Postgres.deleted_row 1000 Sample.alice])
           1001 "jti-a" "jti-r" "Abcdef1!" ∅ []).
  - reflexivity.
  - by left.
  - reflexivity.
  - repeat split; repeat constructor; intros Hin; inversion Hin.
  - reflexivity.
Defined.

Module ReferenceLaws.

Lemma first_bytes_all n s :
  (String.length s <= n)%nat -> Reference.first_bytes n s = s.
Proof.
  revert s. induction n as [|n IH]; intros [|a s]; cbn; try done; try lia.
  intros H. rewrite IH; [done|lia].
Qed.

Lemma bcrypt_verifies_own_hash : Laws.verifies_own_hash Reference.bcrypt.
Proof.
  intros salt password cost hashed. cbn. unfold Reference.GenerateFromPassword.
  destruct (Nat.ltb_spec 72 (String.length password)); [done|]. intros [= <-].
  unfold Reference.CompareHashAndPassword.
  by rewrite ReferenceFacts.dec_enc_str, first_bytes_all, String.eqb_refl.
Qed.


End ReferenceLaws.

(** ** The repository: insert, look up, update *)

Module StoreFacts.
Import entity repository repository.Postgres.

Lemma Create_ok_inv user db db' :
  Create user db = (None, db') ->
  unreachable db = false /\
  refused (users db) (Rows.inserted user) = None /\
  db' = with_users db (users db ++ [Rows.inserted user]).
Proof.
  unfold Create. destruct (unreachable db); [done|].
  fold (Rows.inserted user).
  destruct (refused _ _) eqn:Href; [done|]. by intros [= <-].
Qed.

Lemma filter_none {A} (p : A -> bool) (l : list A) :
  (forall x, In x l -> p x = false) -> List.filter p l = [].
Proof.
  induction l as [|a l IH]; [done|]. intros H. cbn.
  rewrite (H a) by (by left). apply IH. intros x Hx. apply H. by right.
Qed.

(** A one-user query on a table that got one more row: the rows of
    before come first. *)
Lemma QueryRow_snoc where_ db row :
  unreachable db = false ->
  (forall o, In o (users db) -> where_ o = false) ->
  where_ row = true ->
  QueryRow where_ (with_users db (users db ++ [row])) = Ok row.
Proof.
  intros Hup Hnone Hrow. unfold QueryRow. cbn [unreachable users with_users].
  rewrite Hup, List.filter_app, (filter_none _ _ Hnone). cbn. by rewrite Hrow.
Qed.

Lemma QueryRow_snoc_other where_ db row :
  where_ row = false ->
  QueryRow where_ (with_users db (users db ++ [row])) = QueryRow where_ db.
Proof.
  intros Hrow. unfold QueryRow. cbn [unreachable users with_users].
  rewrite List.filter_app. cbn. by rewrite Hrow, app_nil_r.
Qed.

Lemma inserted_live user : live (Rows.inserted user) = true.
Proof. reflexivity. Qed.

End StoreFacts.

Module CreateFacts.

Lemma Create_then_lookup (user : entity.User) (db db' : repository.Database) :
  repository.Postgres.Create user db = (None, db') ->
  repository.Postgres.GetByID (entity.ID user) db' = Ok (Rows.inserted user) /\
  repository.Postgres.GetByEmail (entity.Email user) db' = Ok (Rows.inserted user) /\
  repository.Postgres.GetByUsername (entity.Username user) db'
    = Ok (Rows.inserted user) /\
  repository.Postgres.ExistsByEmail (entity.Email user) db' = Ok true /\
  repository.Postgres.ExistsByUsername (entity.Username user) db' = Ok true /\
  (forall o, In o (repository.users db) ->
     entity.ID o <> entity.ID user /\ entity.Email o <> entity.Email user /\
     entity.Username o <> entity.Username user) /\
  (forall id, id <> entity.ID user ->
     repository.Postgres.GetByID id db' = repository.Postgres.GetByID id db).
Proof.
  intros Hcreate.
  apply StoreFacts.Create_ok_inv in Hcreate as (Hup & Href & ->).
  apply ConstraintFacts.refused_None in Href.
  assert (Hfresh : forall o, In o (repository.users db) ->
            entity.ID o <> entity.ID user /\ entity.Email o <> entity.Email user /\
            entity.Username o <> entity.Username user).
  { intros o Ho. apply (ConstraintFacts.no_clash_in _ _ o Href Ho). }
  assert (Hcol : forall (col : entity.User -> string) v,
            col (Rows.inserted user) = v ->
            (forall o, In o (repository.users db) -> col o <> v) ->
            repository.QueryRow
              (fun u => String.eqb (col u) v && repository.live u)
              (repository.with_users db (repository.users db ++ [Rows.inserted user]))
            = Ok (Rows.inserted user)).
  { intros col v Hv Hne. apply StoreFacts.QueryRow_snoc; [done| |].
    - intros o Ho. apply andb_false_iff. left. apply String.eqb_neq. by apply Hne.
    - by rewrite Hv, String.eqb_refl. }
  assert (Hex : forall (col : entity.User -> string) v,
            col (Rows.inserted user) = v ->
            existsb (fun u => String.eqb (col u) v && repository.live u)
              (repository.users db ++ [Rows.inserted user]) = true).
  { intros col v Hv. apply existsb_exists. exists (Rows.inserted user). split.
    - apply in_or_app. right. by left.
    - by rewrite Hv, String.eqb_refl. }
  split; [|split; [|split; [|split; [|split; [|split]]]]].
  - unfold repository.Postgres.GetByID.
    rewrite (Hcol entity.ID); [done|done|].
    intros o Ho. by destruct (Hfresh o Ho) as (?&?&?).
  - unfold repository.Postgres.GetByEmail.
    rewrite (Hcol entity.Email); [done|done|].
    intros o Ho. by destruct (Hfresh o Ho) as (?&?&?).
  - unfold repository.Postgres.GetByUsername.
    rewrite (Hcol entity.Username); [done|done|].
    intros o Ho. by destruct (Hfresh o Ho) as (?&?&?).
  - unfold repository.Postgres.ExistsByEmail.
    cbn [repository.unreachable repository.users repository.with_users].
    by rewrite Hup, (Hex entity.Email).
  - unfold repository.Postgres.ExistsByUsername.
    cbn [repository.unreachable repository.users repository.with_users].
    by rewrite Hup, (Hex entity.Username).
  - exact Hfresh.
  - intros id Hid. unfold repository.Postgres.GetByID.
    rewrite StoreFacts.QueryRow_snoc_other; [done|].
    apply andb_false_iff. left. apply String.eqb_neq. cbn. congruence.
Qed.


(** bcrypt accepting its own hashes, at the hasher. *)
Lemma Hash_IsValid B passwordHasher salt password hashed :
  Laws.verifies_own_hash B ->
  crypto.Hash B passwordHasher salt password = Ok hashed ->
  crypto.IsValid B passwordHasher hashed password = true.
Proof.
  intros Hlaw. unfold crypto.Hash, crypto.IsValid, crypto.Compare.
  destruct (crypto.GenerateFromPassword B salt password _) as [h|] eqn:Hgen; [|done].
  intros [= <-]. by rewrite (Hlaw _ _ _ _ Hgen).
Qed.

(** What a successful [Register] found and did. *)
Lemma Register_ok_trace {DB : Type} (userRepo : repository.UserRepository DB)
    B passwordHasher now uuid salt req w resp w' :
  usecase.Register userRepo B passwordHasher now uuid salt req w = (Ok resp, w') ->
  exists hashedPassword,
    repository.ExistsByEmail userRepo (dto.reg_Email req) (usecase.db w) = Ok false /\
    repository.ExistsByUsername userRepo (dto.reg_Username req) (usecase.db w)
      = Ok false /\
    crypto.Hash B passwordHasher salt (dto.reg_Password req) = Ok hashedPassword /\
    repository.Create userRepo
      (entity.NewUser now uuid (dto.reg_Email req) (dto.reg_Username req) hashedPassword
         (dto.reg_FullName req) constants.RoleUser) (usecase.db w)
      = (None, usecase.db w') /\
    resp = usecase.toUserResponse
             (entity.NewUser now uuid (dto.reg_Email req) (dto.reg_Username req)
                hashedPassword (dto.reg_FullName req) constants.RoleUser) /\
    usecase.cache w' = usecase.cache w.
Proof.
  unfold usecase.Register, usecase.bind, usecase.userRepo_ExistsByEmail,
    usecase.userRepo_ExistsByUsername, usecase.userRepo_Create.
  destruct (repository.ExistsByEmail userRepo _ _) as [[|]|]; [done| |done].
  cbn [usecase.logged usecase.db].
  destruct (repository.ExistsByUsername userRepo _ _) as [[|]|]; [done| |done].
  cbn [usecase.logged usecase.db].
  destruct (crypto.Hash B passwordHasher salt _) as [hashedPassword|]; [|done].
  destruct (repository.Create userRepo _ _) as [[e|] d] eqn:Hcreate; [done|].
  cbn. intros [= <- <-]. by exists hashedPassword.
Qed.

End CreateFacts.

(** X7: a successful [Create] is read back. The row it stored, the
    entity with no deletion time, is what [GetByID], [GetByEmail] and
    [GetByUsername] return for the entity's id, email and username, and
    both existence checks answer true; no row of before, soft-deleted or
    not, shared the id, the email or the username; a query for another id
    answers as before. *)
Theorem X7_create_then_lookup (user : entity.User) (db db' : repository.Database) :
  repository.Postgres.Create user db = (None, db') ->
  repository.Postgres.GetByID (entity.ID user) db' = Ok (Rows.inserted user) /\
  repository.Postgres.GetByEmail (entity.Email user) db' = Ok (Rows.inserted user) /\
  repository.Postgres.GetByUsername (entity.Username user) db'
    = Ok (Rows.inserted user) /\
  repository.Postgres.ExistsByEmail (entity.Email user) db' = Ok true /\
  repository.Postgres.ExistsByUsername (entity.Username user) db' = Ok true /\
  (forall o, In o (repository.users db) ->
     entity.ID o <> entity.ID user /\ entity.Email o <> entity.Email user /\
     entity.Username o <> entity.Username user) /\
  (forall id, id <> entity.ID user ->
     repository.Postgres.GetByID id db' = repository.Postgres.GetByID id db).
Proof. apply CreateFacts.Create_then_lookup. Qed.

(** X7 at the sample data: a second user is inserted beside [alice]. *)
Lemma X7_witness :
  repository.Postgres.GetByUsername "bob9"
    (snd (repository.Postgres.Create Sample.rival (Sample.server [Sample.alice])))
  = Ok Sample.rival.
Proof.
  refine (proj1 (proj2 (proj2 (X7_create_then_lookup Sample.rival
                   (Sample.server [Sample.alice]) _ _)))).
  reflexivity.
Defined.

(** X8: on the Postgres repository, a registration that succeeded can
    log in. If bcrypt accepts the password a hash was generated from, then
    after a successful [Register] a [Login] with the email and the
    password of the request succeeds and returns the registered user, whose
    role is "user" and whose status is "active" whatever the request
    held. *)
Theorem X8_register_then_login
    (ILIKE : string -> string -> bool) (B : crypto.Bcrypt)
    (passwordHasher : crypto.PasswordHasher) (L : Jwt.Library) (jwtManager : Jwt.Manager)
    (now : Z) (uuid salt : string) (req : dto.RegisterRequest)
    (w w1 : usecase.World repository.Database) (resp : dto.UserResponse)
    (now' : Z) (jtiAccess jtiRefresh : string) :
  Laws.verifies_own_hash B ->
  usecase.Register (repository.Postgres.NewPostgresUserRepository ILIKE) B
    passwordHasher now uuid salt req w = (Ok resp, w1) ->
  exists login,
    fst (usecase.Login (repository.Postgres.NewPostgresUserRepository ILIKE) B
           passwordHasher L jwtManager now' jtiAccess jtiRefresh
           (dto.mkLoginRequest (dto.reg_Email req) (dto.reg_Password req)) w1)
      = Ok login /\
    dto.User login = resp /\
    dto.ID resp = uuid /\ dto.Email resp = dto.reg_Email req /\
    dto.Role resp = constants.RoleUser /\ dto.Status resp = constants.UserStatusActive.
Proof.
  intros Hlaw Hreg.
  apply CreateFacts.Register_ok_trace in Hreg
    as (hashed & _ & _ & Hhash & Hcreate & -> & _).
  cbn [repository.Create repository.Postgres.NewPostgresUserRepository] in Hcreate.
  apply CreateFacts.Create_then_lookup in Hcreate as (_ & Hget & _).
  set (user := entity.NewUser now uuid (dto.reg_Email req) (dto.reg_Username req) hashed
                 (dto.reg_FullName req) constants.RoleUser) in *.
  destruct (Login_success (repository.Postgres.NewPostgresUserRepository ILIKE) B
              passwordHasher L jwtManager now' jtiAccess jtiRefresh
              (dto.mkLoginRequest (dto.reg_Email req) (dto.reg_Password req)) w1 user)
    as (a & r & _ & _ & Hlogin).
  - exact Hget.
  - reflexivity.
  - exact (CreateFacts.Hash_IsValid _ _ _ _ _ Hlaw Hhash).
  - eexists. split; [exact Hlogin|]. done.
Qed.

(** X8 at the sample data: a user registers beside [alice] and logs
    in. *)
Lemma X8_witness :
  is_ok (fst (usecase.Login Sample.userRepo Reference.bcrypt Sample.hasher Reference.lib
                Sample.manager 1001 "jti-a" "jti-r"
                (dto.mkLoginRequest "b@x.com" "Abcdef1!")
                (snd (usecase.Register Sample.userRepo Reference.bcrypt Sample.hasher 1000
                        "u2" "salt"
                        (dto.mkRegisterRequest "b@x.com" "bob" "Abcdef1!" "Bob B")
                        (Sample.world [Sample.alice] ∅))))) = true.
Proof.
  pose proof (X8_register_then_login Reference.ILIKE Reference.bcrypt Sample.hasher
                Reference.lib Sample.manager 1000 "u2" "salt"
                (dto.mkRegisterRequest "b@x.com" "bob" "Abcdef1!" "Bob B")
                (Sample.world [Sample.alice] ∅)) as Hthen.
  destruct (usecase.Register Sample.userRepo Reference.bcrypt Sample.hasher 1000 "u2"
              "salt" (dto.mkRegisterRequest "b@x.com" "bob" "Abcdef1!" "Bob B")
              (Sample.world [Sample.alice] ∅)) as [[resp|e] w1] eqn:Hfirst.
  - destruct (Hthen w1 resp 1001 "jti-a" "jti-r") as (login & Hlogin & _).
    + apply ReferenceLaws.bcrypt_verifies_own_hash.
    + exact Hfirst.
    + cbn [snd dto.reg_Email dto.reg_Password] in *. unfold Sample.userRepo.
      by rewrite Hlogin.
  - vm_compute in Hfirst. discriminate Hfirst.
Defined.

(** ** Tokens of the login and of the refresh *)

Section TokenFlow.
Context {DB : Type}.
Variable userRepo : repository.UserRepository DB.
Variable B : crypto.Bcrypt.
Variable passwordHasher : crypto.PasswordHasher.
Variable L : Jwt.Library.
Variable jwtManager : Jwt.Manager.

Lemma ValidateAccessToken_own_expired now jti userID email role t now' :
  Jwt.reads_back L ->
  Jwt.GenerateAccessToken L jwtManager now jti userID email role = Ok t ->
  now + Jwt.accessTokenDuration jwtManager <= now' ->
  Jwt.ValidateAccessToken L jwtManager now' t = Err Jwt.ErrExpiredToken.
Proof.
  intros Hrb Hgen Hwin. unfold Jwt.GenerateAccessToken in Hgen.
  unfold Jwt.ValidateAccessToken.
  rewrite (ParseWithClaims_own_token L _ _ jwtManager now' _ _ t Hrb Hgen
             (JwtFacts.unmarshal_Claims_of_Claims _)).
  destruct (validate_expired now'
              (Jwt.Registered (Jwt.access_claims jwtManager now jti userID email role))
              (now + Jwt.accessTokenDuration jwtManager)) as [rest ->];
    [reflexivity|done|].
  reflexivity.
Qed.

(** The answer of a successful [Login]. *)
Lemma Login_ok_response now jtiAccess jtiRefresh req w login w' :
  usecase.Login userRepo B passwordHasher L jwtManager now jtiAccess jtiRefresh req w
    = (Ok login, w') ->
  exists user accessToken refreshToken,
    repository.GetByEmail userRepo (dto.login_Email req) (usecase.db w) = Ok user /\
    entity.IsActive user = true /\
    Jwt.GenerateAccessToken L jwtManager now jtiAccess
      (entity.ID user) (entity.Email user) (entity.Role user) = Ok accessToken /\
    Jwt.GenerateRefreshToken L jwtManager now jtiRefresh (entity.ID user)
      = Ok refreshToken /\
    login = {| dto.User := usecase.toUserResponse user;
               dto.AccessToken := accessToken; dto.RefreshToken := refreshToken;
               dto.TokenType := "Bearer"; dto.ExpiresIn := 900 |} /\
    usecase.db w' = usecase.db w /\ usecase.cache w' = usecase.cache w.
Proof.
  unfold usecase.Login, usecase.bind, usecase.userRepo_GetByEmail.
  destruct (repository.GetByEmail userRepo _ _) as [user|err] eqn:Hget.
  - destruct (entity.IsActive user) eqn:Hact; [|done].
    destruct (crypto.IsValid _ _ _ _); [|done]. cbn [negb].
    destruct (Jwt.GenerateAccessToken _ _ _ _ _ _ _) as [a|] eqn:Ha; [|done].
    destruct (Jwt.GenerateRefreshToken _ _ _ _ _) as [r|] eqn:Hr; [|done].
    intros [= <- <-]. by exists user, a, r.
  - by destruct (Is err _).
Qed.

(** The answer of a successful [RefreshToken]. *)
Lemma RefreshToken_ok_response now jtiAccess jtiRefresh req w resp w' :
  usecase.RefreshToken userRepo L jwtManager now jtiAccess jtiRefresh req w
    = (Ok resp, w') ->
  exists userID user accessToken refreshToken,
    Jwt.ValidateRefreshToken L jwtManager now (dto.req_RefreshToken req) = Ok userID /\
    repository.GetByID userRepo userID (usecase.db w) = Ok user /\
    entity.IsActive user = true /\
    Jwt.GenerateAccessToken L jwtManager now jtiAccess
      (entity.ID user) (entity.Email user) (entity.Role user) = Ok accessToken /\
    Jwt.GenerateRefreshToken L jwtManager now jtiRefresh (entity.ID user)
      = Ok refreshToken /\
    resp = {| dto.new_AccessToken := accessToken; dto.new_RefreshToken := refreshToken;
              dto.new_TokenType := "Bearer"; dto.new_ExpiresIn := 900 |} /\
    usecase.db w' = usecase.db w /\ usecase.cache w' = usecase.cache w.
Proof.
  unfold usecase.RefreshToken, usecase.bind, usecase.userRepo_GetByID.
  destruct (Jwt.ValidateRefreshToken _ _ _ _) as [userID|] eqn:Hv; [|done].
  destruct (repository.GetByID userRepo _ _) as [user|err] eqn:Hget.
  - destruct (entity.IsActive user) eqn:Hact; [|done]. cbn [negb].
    destruct (Jwt.GenerateAccessToken _ _ _ _ _ _ _) as [a|] eqn:Ha; [|done].
    destruct (Jwt.GenerateRefreshToken _ _ _ _ _) as [r|] eqn:Hr; [|done].
    intros [= <- <-]. by exists userID, user, a, r.
  - by destruct (Is err _).
Qed.

(** The user id a token validates to does not depend on the time of the
    validation. *)
Lemma ValidateRefreshToken_same_subject now now' t userID userID' :
  Jwt.ValidateRefreshToken L jwtManager now t = Ok userID ->
  Jwt.ValidateRefreshToken L jwtManager now' t = Ok userID' ->
  userID = userID'.
Proof.
  unfold Jwt.ValidateRefreshToken, Jwt.ParseWithClaims.
  destruct (Jwt.split_token L t) as [seg|]; [|done].
  destruct (Jwt.unmarshal_RegisteredClaims _) as [claims|]; [|done].
  destruct (Jwt.member "alg" _) as [[alg|]|]; [|done|done].
  destruct (Jwt.GetSigningMethod alg) as [method|]; [|done].
  destruct (Jwt.keyFunc jwtManager method) as [key|e];
    [|cbn [Is existsb]; by destruct (Is e _)].
  destruct (Jwt.Verify L method _ _ key); [|done].
  destruct (Jwt.validate now claims) as [|e1 r1]; [|by destruct (Is _ _)].
  destruct (Jwt.validate now' claims) as [|e2 r2]; [|by destruct (Is _ _)].
  cbn. congruence.
Qed.

End TokenFlow.

(** X9: the tokens a successful [Login] returns are those of the user
    the store returned for the email. The access token validates, under the
    same manager, to claims with that user's id, email and role from the
    time of the login until that time plus the manager's access-token
    lifetime, and is refused as expired from then on; the refresh token
    validates to the user's id during the refresh-token lifetime. The
    answer says "Bearer" and [expires_in] 900, whatever lifetime the
    manager has. [Login] changes neither the store nor the cache. *)
Theorem X9_login_tokens_validate
    {DB : Type} (userRepo : repository.UserRepository DB)
    (B : crypto.Bcrypt) (passwordHasher : crypto.PasswordHasher)
    (L : Jwt.Library) (jwtManager : Jwt.Manager)
    (now : Z) (jtiAccess jtiRefresh : string) (req : dto.LoginRequest)
    (w w' : usecase.World DB) (login : dto.LoginResponse) :
  Jwt.reads_back L ->
  usecase.Login userRepo B passwordHasher L jwtManager now jtiAccess jtiRefresh req w
    = (Ok login, w') ->
  exists user,
    repository.GetByEmail userRepo (dto.login_Email req) (usecase.db w) = Ok user /\
    dto.User login = usecase.toUserResponse user /\
    (forall now', now <= now' < now + Jwt.accessTokenDuration jwtManager ->
       Jwt.ValidateAccessToken L jwtManager now' (dto.AccessToken login)
         = Ok (Jwt.access_claims jwtManager now jtiAccess
                 (entity.ID user) (entity.Email user) (entity.Role user))) /\
    (forall now', now + Jwt.accessTokenDuration jwtManager <= now' ->
       Jwt.ValidateAccessToken L jwtManager now' (dto.AccessToken login)
         = Err Jwt.ErrExpiredToken) /\
    (forall now', now <= now' < now + Jwt.refreshTokenDuration jwtManager ->
       Jwt.ValidateRefreshToken L jwtManager now' (dto.RefreshToken login)
         = Ok (entity.ID user)) /\
    dto.TokenType login = "Bearer" /\ dto.ExpiresIn login = 900 /\
    usecase.db w' = usecase.db w /\ usecase.cache w' = usecase.cache w.
Proof.
  intros Hrb Hlogin.
  apply Login_ok_response in Hlogin
    as (user & a & r & Hget & _ & Ha & Hr & -> & Hdb & Hcache).
  exists user. cbn [dto.User dto.AccessToken dto.RefreshToken dto.TokenType dto.ExpiresIn].
  split; [done|]. split; [done|].
  split.
  { intros now' Hwin.
    exact (ValidateAccessToken_access_token L jwtManager now jtiAccess _ _ _ a now'
             Hrb Ha Hwin). }
  split.
  { intros now' Hwin.
    exact (ValidateAccessToken_own_expired L jwtManager now jtiAccess _ _ _ a now'
             Hrb Ha Hwin). }
  split.
  { intros now' Hwin.
    exact (ValidateRefreshToken_refresh_token L jwtManager now jtiRefresh _ r now'
             Hrb Hr Hwin). }
  done.
Qed.

(** X9 at the sample data: [alice] logs in at second 1000 with a manager
    whose access tokens live 900 seconds. *)
Lemma X9_witness :
  exists login,
    fst (usecase.Login Sample.userRepo Reference.bcrypt Sample.hasher Reference.lib
           Sample.manager 1000 "jti-a" "jti-r" (dto.mkLoginRequest "a@x.com" "Abcdef1!")
           (Sample.world [Sample.alice] ∅)) = Ok login /\
    Jwt.ValidateRefreshToken Reference.lib Sample.manager 1500 (dto.RefreshToken login)
      = Ok "u1" /\
    Jwt.ValidateAccessToken Reference.lib Sample.manager 1900 (dto.AccessToken login)
      = Err Jwt.ErrExpiredToken.
Proof.
  pose proof (X9_login_tokens_validate Sample.userRepo Reference.bcrypt Sample.hasher
                Reference.lib Sample.manager 1000 "jti-a" "jti-r"
                (dto.mkLoginRequest "a@x.com" "Abcdef1!")
                (Sample.world [Sample.alice] ∅)) as Hthen.
  destruct (usecase.Login Sample.userRepo Reference.bcrypt Sample.hasher Reference.lib
              Sample.manager 1000 "jti-a" "jti-r" (dto.mkLoginRequest "a@x.com" "Abcdef1!")
              (Sample.world [Sample.alice] ∅)) as [[login|e] w1] eqn:Hlogin.
  - destruct (Hthen w1 login ReferenceFacts.lib_reads_back eq_refl)
      as (user & Hget & _ & _ & Hexpired & Hrefresh & _).
    vm_compute in Hget. injection Hget as <-.
    exists login. split; [done|]. split.
    + apply Hrefresh. simpl. lia.
    + apply Hexpired. simpl. lia.
  - vm_compute in Hlogin. discriminate Hlogin.
Defined.

(** X10: [RefreshToken] neither rotates nor revokes. A successful
    [RefreshToken] leaves the store and the cache as they were, and the
    token it was given is accepted again, at any later time at which it
    still validates; so is, during its lifetime, the refresh token it
    returned, when the store returns users under the id asked for. *)
Theorem X10_refresh_token_is_reusable
    {DB : Type} (userRepo : repository.UserRepository DB)
    (L : Jwt.Library) (jwtManager : Jwt.Manager)
    (now : Z) (jtiAccess jtiRefresh : string) (req : dto.RefreshTokenRequest)
    (w w1 : usecase.World DB) (resp : dto.RefreshTokenResponse) :
  usecase.RefreshToken userRepo L jwtManager now jtiAccess jtiRefresh req w
    = (Ok resp, w1) ->
  usecase.db w1 = usecase.db w /\ usecase.cache w1 = usecase.cache w /\
  (forall now' jtiAccess' jtiRefresh' userID,
     Jwt.ValidateRefreshToken L jwtManager now' (dto.req_RefreshToken req) = Ok userID ->
     is_ok (fst (usecase.RefreshToken userRepo L jwtManager now' jtiAccess' jtiRefresh'
                   req w1)) = true) /\
  (Jwt.reads_back L ->
   (forall id d u, repository.GetByID userRepo id d = Ok u -> entity.ID u = id) ->
   forall now' jtiAccess' jtiRefresh',
     now <= now' < now + Jwt.refreshTokenDuration jwtManager ->
     is_ok (fst (usecase.RefreshToken userRepo L jwtManager now' jtiAccess' jtiRefresh'
                   (dto.mkRefreshTokenRequest (dto.new_RefreshToken resp)) w1)) = true).
Proof.
  intros Href.
  apply RefreshToken_ok_response in Href
    as (userID & user & a & r & Hv & Hget & Hact & _ & Hr & -> & Hdb & Hcache).
  split; [done|]. split; [done|]. split.
  - intros now' jtiAccess' jtiRefresh' userID' Hv'.
    rewrite (ValidateRefreshToken_same_subject L jwtManager _ _ _ _ _ Hv' Hv) in Hv'.
    destruct req as [t]. cbn [dto.req_RefreshToken] in *.
    apply RefreshToken_active_user with userID user; [done| |done]. by rewrite Hdb.
  - intros Hrb Hid now' jtiAccess' jtiRefresh' Hwin. cbn [dto.new_RefreshToken].
    apply RefreshToken_active_user with (entity.ID user) user; [| |done].
    + exact (ValidateRefreshToken_refresh_token L jwtManager now jtiRefresh _ r now'
               Hrb Hr Hwin).
    + by rewrite Hdb, (Hid _ _ _ Hget).
Qed.

(** X10 at the sample data: [alice] refreshes twice with one token. *)
Lemma X10_witness :
  is_ok (fst (usecase.RefreshToken Sample.userRepo Reference.lib Sample.manager 2000
                "jti-c" "jti-d" (dto.mkRefreshTokenRequest Sample.refresh_token)
                (snd (usecase.RefreshToken Sample.userRepo Reference.lib Sample.manager
                        1500 "jti-a2" "jti-r2"
                        (dto.mkRefreshTokenRequest Sample.refresh_token)
                        (Sample.world [Sample.alice] ∅))))) = true.
Proof.
  pose proof (X10_refresh_token_is_reusable Sample.userRepo Reference.lib Sample.manager
                1500 "jti-a2" "jti-r2" (dto.mkRefreshTokenRequest Sample.refresh_token)
                (Sample.world [Sample.alice] ∅)) as Hthen.
  destruct (usecase.RefreshToken Sample.userRepo Reference.lib Sample.manager 1500
              "jti-a2" "jti-r2" (dto.mkRefreshTokenRequest Sample.refresh_token)
              (Sample.world [Sample.alice] ∅)) as [[resp|e] w1] eqn:Hfirst.
  - destruct (Hthen w1 resp eq_refl) as (_ & _ & Hagain & _).
    apply (Hagain 2000 "jti-c" "jti-d" "u1"). reflexivity.
  - vm_compute in Hfirst. discriminate Hfirst.
Defined.


(** ** The repository: update *)

Module UpdateFacts.
Import entity repository repository.Postgres.

Lemma filter_map_In {A : Type} (p : A -> bool) (f : A -> A) (l : list A) :
  (forall x, In x l -> p (f x) = p x) ->
  List.filter p (map f l) = map f (List.filter p l).
Proof.
  induction l as [|a l IH]; [done|]. intros H. cbn [map List.filter].
  rewrite (H a) by (by left). rewrite IH by (intros x Hx; apply H; by right).
  by destruct (p a).
Qed.

Lemma QueryRow_In where_ db u :
  QueryRow where_ db = Ok u ->
  unreachable db = false /\ In u (users db) /\ where_ u = true /\
  exists rest, List.filter where_ (users db) = u :: rest.
Proof.
  unfold QueryRow. destruct (unreachable db); [done|].
  destruct (List.filter where_ (users db)) as [|r rest] eqn:Hf; [done|].
  intros [= ->]. split; [done|].
  assert (In u (List.filter where_ (users db))) as Hin by (rewrite Hf; by left).
  apply filter_In in Hin as [? ?]. eauto.
Qed.

Lemma QueryRow_found where_ db u :
  unreachable db = false -> In u (users db) -> where_ u = true ->
  exists u', QueryRow where_ db = Ok u'.
Proof.
  intros Hup Hin Hw. unfold QueryRow. rewrite Hup.
  destruct (List.filter where_ (users db)) as [|r rest] eqn:Hf; [|eauto].
  assert (In u (List.filter where_ (users db))) as Hu by (by apply filter_In).
  by rewrite Hf in Hu.
Qed.

(** A one-user query after every row went through [f], when [f] does
    not change what the query looks at. *)
Lemma QueryRow_map where_ (f : User -> User) db :
  (forall u, In u (users db) -> where_ (f u) = where_ u) ->
  QueryRow where_ (with_users db (map f (users db))) =
    match QueryRow where_ db with
    | Ok u => Ok (f u)
    | Err e => Err e
    end.
Proof.
  intros H. unfold QueryRow. cbn [unreachable users with_users].
  destruct (unreachable db); [done|]. rewrite (filter_map_In _ _ _ H).
  by destruct (List.filter where_ (users db)).
Qed.

Section Update.
Variable user : User.

Local Abbreviation hit := (Rows.targeted user).
Local Abbreviation rewritten := (Rows.after_update user).

Lemma Update_ok_inv db db' :
  Update user db = (None, db') ->
  exists old,
    unreachable db = false /\
    List.filter hit (users db) = [old] /\
    db' = with_users db (map rewritten (users db)).
Proof.
  unfold Update. destruct (unreachable db); [done|]. cbv zeta.
  change (fun u => String.eqb (ID u) (ID user) && live u) with (Rows.targeted user).
  destruct (List.filter hit (users db)) as [|old [|]] eqn:Hhit; [done| |done].
  destruct (refused _ _); [done|]. intros [= <-]. by exists old.
Qed.

Lemma rewritten_ID u : ID (rewritten u) = ID u.
Proof. unfold Rows.after_update. by destruct (Rows.targeted user u). Qed.

Lemma rewritten_live u : live (rewritten u) = live u.
Proof. unfold Rows.after_update. by destruct (Rows.targeted user u). Qed.

Lemma rewritten_other u : ID u <> ID user -> rewritten u = u.
Proof.
  intros Hne. unfold Rows.after_update, Rows.targeted. apply String.eqb_neq in Hne. by rewrite Hne.
Qed.

(** After a successful [Update], [GetByID] returns what it returned
    before, rewritten. *)
Lemma GetByID_after_Update db db' id :
  Update user db = (None, db') ->
  GetByID id db' =
    match GetByID id db with
    | Ok u => Ok (rewritten u)
    | Err e => Err e
    end.
Proof.
  intros Hup. apply Update_ok_inv in Hup as (old & _ & _ & ->).
  unfold GetByID. rewrite QueryRow_map.
  - destruct (QueryRow _ db) as [u|e]; [done|]. by destruct (Is e _).
  - intros u _. by rewrite rewritten_ID, rewritten_live.
Qed.

(** The same for [GetByEmail], when the email is not changed. *)
Lemma GetByEmail_after_Update db db' old email :
  Update user db = (None, db') ->
  List.filter hit (users db) = [old] -> Email user = Email old ->
  GetByEmail email db' =
    match GetByEmail email db with
    | Ok u => Ok (rewritten u)
    | Err e => Err e
    end.
Proof.
  intros Hup Hold Hsame. apply Update_ok_inv in Hup as (old' & _ & _ & ->).
  unfold GetByEmail. rewrite QueryRow_map.
  - destruct (QueryRow _ db) as [u|e]; [done|]. by destruct (Is e _).
  - intros u Hu. rewrite rewritten_live. f_equal. unfold Rows.after_update.
    destruct (hit u) eqn:Hhit; [|done].
    rewrite (ConstraintFacts.filter_singleton_In hit _ old u Hold Hu Hhit).
    cbn [updated_row Email]. by rewrite Hsame.
Qed.

End Update.

(** The user a use case read by id is the row its [Update] rewrites. *)
Lemma GetByID_is_hit db userID user0 user db' :
  GetByID userID db = Ok user0 -> ID user = ID user0 ->
  Update user db = (None, db') ->
  ID user0 = userID /\ In user0 (users db) /\ live user0 = true /\
  List.filter (Rows.targeted user) (users db) = [user0].
Proof.
  intros Hget Hid Hup. unfold GetByID in Hget.
  destruct (QueryRow _ db) as [u|e] eqn:Hq; [|by destruct (Is e _)].
  injection Hget as ->. apply QueryRow_In in Hq as (_ & Hin & Hw & rest & Hf).
  apply andb_true_iff in Hw as [Hw Hlive]. apply String.eqb_eq in Hw.
  apply Update_ok_inv in Hup as (old & _ & Hhit & _).
  split; [done|]. split; [done|]. split; [done|].
  assert (Hsame : List.filter (Rows.targeted user) (users db) =
                  List.filter (fun u => String.eqb (ID u) userID && live u) (users db)).
  { apply filter_ext. intros u. unfold Rows.targeted. by rewrite Hid, Hw. }
  rewrite Hsame in Hhit. rewrite Hf in Hhit. injection Hhit as <- ->.
  by rewrite Hsame, Hf.
Qed.

End UpdateFacts.

(** ** Changing the password and the profile *)

Section ProfileChanges.
Context {DB : Type}.
Variable userRepo : repository.UserRepository DB.
Variable B : crypto.Bcrypt.
Variable passwordHasher : crypto.PasswordHasher.

(** What a successful [ChangePassword] found and did. *)
Lemma ChangePassword_ok_inv now salt userID req w w' :
  usecase.ChangePassword userRepo B passwordHasher now salt userID req w = (None, w') ->
  exists user0 hashedPassword,
    repository.GetByID userRepo userID (usecase.db w) = Ok user0 /\
    crypto.IsValid B passwordHasher (entity.Password user0) (dto.OldPassword req) = true /\
    crypto.Hash B passwordHasher salt (dto.NewPassword req) = Ok hashedPassword /\
    repository.Update userRepo (entity.UpdatePassword now hashedPassword user0)
      (usecase.db w) = (None, usecase.db w') /\
    usecase.cache w' = usecase.cache w /\
    usecase.calls w' =
      (usecase.calls w ++
       [usecase.Repo_GetByID userID;
        usecase.Repo_Update (entity.UpdatePassword now hashedPassword user0)])%list.
Proof.
  unfold usecase.ChangePassword, usecase.bind, usecase.userRepo_GetByID,
    usecase.userRepo_Update.
  destruct (repository.GetByID userRepo userID (usecase.db w)) as [user0|err];
    [|by destruct (Is err _)].
  destruct (crypto.IsValid _ _ _ _) eqn:Hold; [|done]. cbn [negb].
  destruct (crypto.Hash _ _ _ _) as [hashed|]; [|done].
  cbn [usecase.logged usecase.db usecase.cache usecase.calls].
  destruct (repository.Update userRepo _ _) as [[e|] d] eqn:Hup; [done|].
  unfold usecase.logged, usecase.ret. cbn [usecase.db usecase.cache usecase.calls].
  intros [= <-]. exists user0, hashed. cbn. by rewrite <- app_assoc.
Qed.

Lemma ChangePassword_wrong_old now salt userID req w user0 :
  repository.GetByID userRepo userID (usecase.db w) = Ok user0 ->
  crypto.IsValid B passwordHasher (entity.Password user0) (dto.OldPassword req) = false ->
  usecase.ChangePassword userRepo B passwordHasher now salt userID req w =
    (Some errors.ErrInvalidPassword,
     usecase.mkWorld (usecase.db w) (usecase.cache w)
       (usecase.calls w ++ [usecase.Repo_GetByID userID])).
Proof.
  intros Hget Hold.
  unfold usecase.ChangePassword, usecase.bind, usecase.userRepo_GetByID.
  by rewrite Hget, Hold.
Qed.

End ProfileChanges.

(** X11: changing the password on the Postgres repository. A wrong old
    password is answered "invalid password" after the one query that read
    the user, and nothing is written. After a successful [ChangePassword]
    the row of the user holds the hash of the new password and the time of
    the change, and is otherwise as before; the cache is left alone; and on
    a table with unique emails a [Login] with the user's email succeeds
    exactly when the user is active and the password verifies against the
    new hash. *)
Theorem X11_change_password_replaces_the_hash
    (ILIKE : string -> string -> bool) (B : crypto.Bcrypt)
    (passwordHasher : crypto.PasswordHasher)
    (now : Z) (salt userID : string) (req : dto.ChangePasswordRequest)
    (w : usecase.World repository.Database) :
  (forall user0,
     repository.Postgres.GetByID userID (usecase.db w) = Ok user0 ->
     crypto.IsValid B passwordHasher (entity.Password user0) (dto.OldPassword req)
       = false ->
     usecase.ChangePassword (repository.Postgres.NewPostgresUserRepository ILIKE) B
       passwordHasher now salt userID req w =
       (Some errors.ErrInvalidPassword,
        usecase.mkWorld (usecase.db w) (usecase.cache w)
          (usecase.calls w ++ [usecase.Repo_GetByID userID]))) /\
  (forall w',
     usecase.ChangePassword (repository.Postgres.NewPostgresUserRepository ILIKE) B
       passwordHasher now salt userID req w = (None, w') ->
     exists user0 hashedPassword,
       repository.Postgres.GetByID userID (usecase.db w) = Ok user0 /\
       crypto.IsValid B passwordHasher (entity.Password user0) (dto.OldPassword req)
         = true /\
       crypto.Hash B passwordHasher salt (dto.NewPassword req) = Ok hashedPassword /\
       repository.Postgres.GetByID userID (usecase.db w')
         = Ok (entity.UpdatePassword now hashedPassword user0) /\
       usecase.cache w' = usecase.cache w /\
       (Spec.constrained (usecase.db w) ->
        forall L jwtManager now' jtiAccess jtiRefresh password,
          is_ok (fst (usecase.Login (repository.Postgres.NewPostgresUserRepository ILIKE)
                        B passwordHasher L jwtManager now' jtiAccess jtiRefresh
                        (dto.mkLoginRequest (entity.Email user0) password) w'))
          = entity.IsActive user0 &&
            crypto.IsValid B passwordHasher hashedPassword password)).
Proof.
  split.
  - intros user0 Hget Hold. by apply ChangePassword_wrong_old with user0.
  - intros w' Hchange.
    apply ChangePassword_ok_inv in Hchange
      as (user0 & hashed & Hget & Hold & Hhash & Hup & Hcache & _).
    cbn [repository.GetByID repository.Update
         repository.Postgres.NewPostgresUserRepository] in *.
    exists user0, hashed.
    destruct (UpdateFacts.GetByID_is_hit _ userID user0
                (entity.UpdatePassword now hashed user0) _ Hget eq_refl Hup)
      as (Hid & Hin & Hlive & Hhit).
    assert (Hnew : Rows.after_update (entity.UpdatePassword now hashed user0) user0
                   = entity.UpdatePassword now hashed user0).
    { unfold Rows.after_update, Rows.targeted. cbn [entity.UpdatePassword entity.ID].
      by rewrite String.eqb_refl, Hlive. }
    split; [done|]. split; [done|]. split; [done|]. split.
    { by rewrite (UpdateFacts.GetByID_after_Update _ _ _ _ Hup), Hget, Hnew. }
    split; [done|].
    intros (_ & Hemail & _) L jwtManager now' jtiAccess jtiRefresh password.
    assert (Hmail : repository.Postgres.GetByEmail (entity.Email user0) (usecase.db w')
                    = Ok (entity.UpdatePassword now hashed user0)).
    { rewrite (UpdateFacts.GetByEmail_after_Update _ _ _ user0 _ Hup Hhit eq_refl).
      unfold repository.Postgres.GetByEmail.
      destruct (repository.QueryRow _ (usecase.db w)) as [u1|e] eqn:Hq.
      - apply UpdateFacts.QueryRow_In in Hq as (_ & Hin1 & Hw1 & _).
        apply andb_true_iff in Hw1 as [Hw1 _]. apply String.eqb_eq in Hw1.
        by rewrite (PostgresFacts.NoDup_map_eq entity.Email _ u1 user0 Hemail Hin1 Hin Hw1),
          Hnew.
      - apply UpdateFacts.Update_ok_inv in Hup as (old & Hreach & _ & _).
        destruct (UpdateFacts.QueryRow_found
                    (fun u => String.eqb (entity.Email u) (entity.Email user0)
                              && repository.live u) (usecase.db w) user0)
          as [u' Hu']; [done|done|by rewrite String.eqb_refl, Hlive|].
        by rewrite Hu' in Hq. }
    unfold usecase.Login, usecase.bind, usecase.userRepo_GetByEmail.
    cbn [repository.GetByEmail repository.Postgres.NewPostgresUserRepository
         dto.login_Email dto.login_Password].
    rewrite Hmail.
    change (entity.IsActive (entity.UpdatePassword now hashed user0))
      with (entity.IsActive user0).
    cbn [entity.UpdatePassword entity.Password entity.ID entity.Email entity.Role].
    destruct (entity.IsActive user0); [|done]. cbn [negb andb].
    destruct (crypto.IsValid B passwordHasher hashed password); [|done]. cbn [negb].
    destruct (GenerateAccessToken_ok L jwtManager now' jtiAccess
                (entity.ID user0) (entity.Email user0) (entity.Role user0)) as [a Ha].
    destruct (GenerateRefreshToken_ok L jwtManager now' jtiRefresh (entity.ID user0))
      as [r Hr].
    by rewrite Ha, Hr.
Qed.

(** X11 at the sample data: [alice] changes her password at second
    1100; the old password no longer logs in. *)
Lemma X11_witness :
  is_ok (fst (usecase.Login Sample.userRepo Reference.bcrypt Sample.hasher Reference.lib
                Sample.manager 1200 "jti-a" "jti-r"
                (dto.mkLoginRequest "a@x.com" "Abcdef1!")
                (snd (usecase.ChangePassword Sample.userRepo Reference.bcrypt
                        Sample.hasher 1100 "pepper" "u1"
                        (dto.mkChangePasswordRequest "Abcdef1!" "Newpass1!")
                        (Sample.world [Sample.alice] ∅))))) = false.
Proof.
  destruct (X11_change_password_replaces_the_hash Reference.ILIKE Reference.bcrypt
              Sample.hasher 1100 "pepper" "u1"
              (dto.mkChangePasswordRequest "Abcdef1!" "Newpass1!")
              (Sample.world [Sample.alice] ∅)) as [_ Hchanged].
  destruct (usecase.ChangePassword Sample.userRepo Reference.bcrypt Sample.hasher 1100
              "pepper" "u1" (dto.mkChangePasswordRequest "Abcdef1!" "Newpass1!")
              (Sample.world [Sample.alice] ∅)) as [[e|] w1] eqn:Hchange.
  - vm_compute in Hchange. discriminate Hchange.
  - destruct (Hchanged w1 Hchange) as (user0 & hashed & Hget & _ & Hhash & _ & _ & Hlogin).
    vm_compute in Hget. injection Hget as <-.
    vm_compute in Hhash. injection Hhash as <-.
    cbn [snd]. unfold Sample.userRepo. rewrite Hlogin; [reflexivity|].
    repeat split; repeat constructor; intros Hin; inversion Hin.
Defined.

Section ProfileUpdate.
Context {DB : Type}.
Variable userRepo : repository.UserRepository DB.
Variable cacheReachable : bool.

(** What a successful [UpdateProfile] found, did and answered. *)
Lemma UpdateProfile_ok_trace now userID req w resp w' :
  usecase.UpdateProfile userRepo cacheReachable now userID req w = (Ok resp, w') ->
  exists user0,
    repository.GetByID userRepo userID (usecase.db w) = Ok user0 /\
    repository.Update userRepo (entity.UpdateProfile now (dto.upd_FullName req) user0)
      (usecase.db w) = (None, usecase.db w') /\
    resp = usecase.toUserResponse
             (entity.UpdateProfile now (dto.upd_FullName req) user0).
Proof.
  unfold usecase.UpdateProfile, usecase.bind, usecase.userRepo_GetByID,
    usecase.userRepo_Update, usecase.cache_Delete.
  destruct (repository.GetByID userRepo userID (usecase.db w)) as [user0|err].
  - cbn [usecase.logged usecase.db usecase.cache usecase.calls].
    destruct (repository.Update userRepo _ _) as [[e|] d] eqn:Hup; [done|].
    unfold usecase.logged, usecase.ret. cbn [usecase.db usecase.cache usecase.calls].
    intros [= <- <-]. by exists user0.
  - by destruct (Is err _).
Qed.

End ProfileUpdate.

(** X12: updating the profile on the Postgres repository. After a
    successful [UpdateProfile] the row of the user holds the new full name,
    or the old one when the request's name is empty, and the time of the
    update, and is otherwise as before; the answer shows that row, and so
    does a [GetProfile] that follows; a query for any other id answers as
    before. *)
Theorem X12_update_profile_is_read_back
    (ILIKE : string -> string -> bool) (cacheReachable : bool)
    (now : Z) (userID : string) (req : dto.UpdateProfileRequest)
    (w w' : usecase.World repository.Database) (resp : dto.UserResponse) :
  usecase.UpdateProfile (repository.Postgres.NewPostgresUserRepository ILIKE)
    cacheReachable now userID req w = (Ok resp, w') ->
  exists user0,
    repository.Postgres.GetByID userID (usecase.db w) = Ok user0 /\
    resp = usecase.toUserResponse (entity.UpdateProfile now (dto.upd_FullName req) user0) /\
    dto.FullName resp =
      (if String.eqb (dto.upd_FullName req) "" then entity.FullName user0
       else dto.upd_FullName req) /\
    dto.UpdatedAt resp = now /\
    repository.Postgres.GetByID userID (usecase.db w')
      = Ok (entity.UpdateProfile now (dto.upd_FullName req) user0) /\
    (forall id, id <> userID ->
       repository.Postgres.GetByID id (usecase.db w')
       = repository.Postgres.GetByID id (usecase.db w)) /\
    (forall reachable encodes,
       fst (usecase.GetProfile (repository.Postgres.NewPostgresUserRepository ILIKE)
              reachable encodes userID w') = Ok resp).
Proof.
  intros Hupdate.
  apply UpdateProfile_ok_trace in Hupdate as (user0 & Hget & Hup & ->).
  cbn [repository.GetByID repository.Update
       repository.Postgres.NewPostgresUserRepository] in *.
  exists user0.
  destruct (UpdateFacts.GetByID_is_hit _ userID user0
              (entity.UpdateProfile now (dto.upd_FullName req) user0) _ Hget eq_refl Hup)
    as (Hid & Hin & Hlive & Hhit).
  assert (Hnew : Rows.after_update (entity.UpdateProfile now (dto.upd_FullName req) user0)
                   user0
                 = entity.UpdateProfile now (dto.upd_FullName req) user0).
  { unfold Rows.after_update, Rows.targeted. cbn [entity.UpdateProfile entity.ID].
    by rewrite String.eqb_refl, Hlive. }
  assert (Hafter : repository.Postgres.GetByID userID (usecase.db w')
                   = Ok (entity.UpdateProfile now (dto.upd_FullName req) user0)).
  { by rewrite (UpdateFacts.GetByID_after_Update _ _ _ _ Hup), Hget, Hnew. }
  split; [done|]. split; [done|]. split; [done|]. split; [done|]. split; [done|].
  split.
  - intros id Hne. rewrite (UpdateFacts.GetByID_after_Update _ _ _ _ Hup).
    destruct (repository.Postgres.GetByID id (usecase.db w)) as [u|e] eqn:Hu; [|done].
    f_equal. apply UpdateFacts.rewritten_other.
    unfold repository.Postgres.GetByID in Hu.
    destruct (repository.QueryRow _ _) as [u'|e] eqn:Hq; [|by destruct (Is e _)].
    injection Hu as ->. apply UpdateFacts.QueryRow_In in Hq as (_ & _ & Hw & _).
    apply andb_true_iff in Hw as [Hw _]. apply String.eqb_eq in Hw.
    cbn [entity.UpdateProfile entity.ID]. congruence.
  - intros reachable encodes.
    unfold usecase.GetProfile, usecase.bind, usecase.userRepo_GetByID.
    cbn [repository.GetByID repository.Postgres.NewPostgresUserRepository].
    by rewrite Hafter.
Qed.

(** X12 at the sample data: [alice] changes her name. *)
Lemma X12_witness :
  exists resp,
    fst (usecase.GetProfile Sample.userRepo true true "u1"
           (snd (usecase.UpdateProfile Sample.userRepo true 1100 "u1"
                   (dto.mkUpdateProfileRequest "Alice B")
                   (Sample.world [Sample.alice] ∅)))) = Ok resp /\
    dto.FullName resp = "Alice B".
Proof.
  pose proof (X12_update_profile_is_read_back Reference.ILIKE true 1100 "u1"
                (dto.mkUpdateProfileRequest "Alice B") (Sample.world [Sample.alice] ∅))
    as Hthen.
  destruct (usecase.UpdateProfile Sample.userRepo true 1100 "u1"
              (dto.mkUpdateProfileRequest "Alice B") (Sample.world [Sample.alice] ∅))
    as [[resp|e] w1] eqn:Hupdate.
  - destruct (Hthen w1 resp Hupdate) as (user0 & _ & _ & Hname & _ & _ & _ & Hprofile).
    exists resp. split; [apply Hprofile|]. by rewrite Hname.
  - vm_compute in Hupdate. discriminate Hupdate.
Defined.

(** ** After the deletion of a user *)

Module DeleteFacts.
Import entity repository repository.Postgres.

(** A successful [Delete] found a live row with the id. *)
Lemma Delete_ok_inv id db db' :
  Delete id db = (None, db') ->
  exists u,
    unreachable db = false /\ In u (users db) /\ ID u = id /\ DeletedAt u = None /\
    db' = with_users db (map (after_delete id (NOW db)) (users db)).
Proof.
  unfold Delete. destruct (unreachable db); [done|].
  destruct (List.filter _ (users db)) as [|u rest] eqn:Hf; [done|].
  intros [= <-]. exists u.
  assert (In u (List.filter (fun u => String.eqb (ID u) id && live u) (users db)))
    as Hin by (rewrite Hf; by left).
  apply filter_In in Hin as [Hin Hw]. apply andb_true_iff in Hw as [Hid Hlive].
  apply String.eqb_eq in Hid. unfold live in Hlive. apply bool_decide_eq_true in Hlive.
  done.
Qed.

Lemma DeleteUser_ok_trace {DB : Type} (userRepo : UserRepository DB) cacheReachable
    userID w w' :
  usecase.DeleteUser userRepo cacheReachable userID w = (None, w') ->
  repository.Delete userRepo userID (usecase.db w) = (None, usecase.db w').
Proof.
  unfold usecase.DeleteUser, usecase.bind, usecase.userRepo_Delete, usecase.cache_Delete.
  destruct (repository.Delete userRepo userID (usecase.db w)) as [[e|] d].
  - by destruct (Is e _).
  - unfold usecase.logged, usecase.ret. cbn [usecase.db usecase.cache usecase.calls].
    by intros [= <-].
Qed.

End DeleteFacts.

(** X13: on the Postgres repository, once [DeleteUser] has succeeded for
    an id, the use cases treat the user as absent: [GetProfile],
    [UpdateProfile], [ChangePassword] and a second [DeleteUser] answer
    "user not found", and [RefreshToken] answers "unauthorized" to every
    refresh token of that user, however long the token is still valid. *)
Theorem X13_deleted_user_is_absent_to_the_use_cases
    (ILIKE : string -> string -> bool) (cacheReachable : bool) (userID : string)
    (w w' : usecase.World repository.Database) :
  usecase.DeleteUser (repository.Postgres.NewPostgresUserRepository ILIKE)
    cacheReachable userID w = (None, w') ->
  (forall reachable encodes,
     fst (usecase.GetProfile (repository.Postgres.NewPostgresUserRepository ILIKE)
            reachable encodes userID w') = Err errors.ErrUserNotFound) /\
  (forall reachable now req,
     fst (usecase.UpdateProfile (repository.Postgres.NewPostgresUserRepository ILIKE)
            reachable now userID req w') = Err errors.ErrUserNotFound) /\
  (forall B passwordHasher now salt req,
     fst (usecase.ChangePassword (repository.Postgres.NewPostgresUserRepository ILIKE)
            B passwordHasher now salt userID req w') = Some errors.ErrUserNotFound) /\
  (forall reachable,
     fst (usecase.DeleteUser (repository.Postgres.NewPostgresUserRepository ILIKE)
            reachable userID w') = Some errors.ErrUserNotFound) /\
  (forall L jwtManager now jtiAccess jtiRefresh t,
     Jwt.ValidateRefreshToken L jwtManager now t = Ok userID ->
     fst (usecase.RefreshToken (repository.Postgres.NewPostgresUserRepository ILIKE)
            L jwtManager now jtiAccess jtiRefresh (dto.mkRefreshTokenRequest t) w')
     = Err errors.ErrUnauthorized).
Proof.
  intros Hdelete. apply DeleteFacts.DeleteUser_ok_trace in Hdelete.
  cbn [repository.Delete repository.Postgres.NewPostgresUserRepository] in Hdelete.
  apply DeleteFacts.Delete_ok_inv in Hdelete as (u & Hup & Hin & <- & Hlive & Hdb).
  assert (Hget : repository.Postgres.GetByID (entity.ID u) (usecase.db w')
                 = Err errors.ErrUserNotFound).
  { rewrite Hdb. by apply SoftDelete.GetByID_after. }
  assert (Hdel : repository.Postgres.Delete (entity.ID u) (usecase.db w')
                 = (Some errors.ErrUserNotFound, usecase.db w')).
  { rewrite Hdb. by apply SoftDelete.Delete_after. }
  split; [|split; [|split; [|split]]].
  - intros reachable encodes.
    unfold usecase.GetProfile, usecase.bind, usecase.userRepo_GetByID.
    cbn [repository.GetByID repository.Postgres.NewPostgresUserRepository].
    by rewrite Hget.
  - intros reachable now req.
    unfold usecase.UpdateProfile, usecase.bind, usecase.userRepo_GetByID.
    cbn [repository.GetByID repository.Postgres.NewPostgresUserRepository].
    by rewrite Hget.
  - intros B passwordHasher now salt req.
    unfold usecase.ChangePassword, usecase.bind, usecase.userRepo_GetByID.
    cbn [repository.GetByID repository.Postgres.NewPostgresUserRepository].
    by rewrite Hget.
  - intros reachable.
    unfold usecase.DeleteUser, usecase.bind, usecase.userRepo_Delete.
    cbn [repository.Delete repository.Postgres.NewPostgresUserRepository].
    by rewrite Hdel.
  - intros L jwtManager now jtiAccess jtiRefresh t Hv.
    unfold usecase.RefreshToken, usecase.bind, usecase.userRepo_GetByID.
    cbn [dto.req_RefreshToken repository.GetByID
         repository.Postgres.NewPostgresUserRepository].
    by rewrite Hv, Hget.
Qed.

(** X13 at the sample data: [alice] is deleted and her refresh token,
    valid for a week, is presented. *)
Lemma X13_witness :
  fst (usecase.RefreshToken Sample.userRepo Reference.lib Sample.manager 1500
         "jti-a2" "jti-r2" (dto.mkRefreshTokenRequest Sample.refresh_token)
         (snd (usecase.DeleteUser Sample.userRepo true "u1"
                 (Sample.world [Sample.alice] ∅))))
  = Err errors.ErrUnauthorized.
Proof.
  pose proof (X13_deleted_user_is_absent_to_the_use_cases Reference.ILIKE true "u1"
                (Sample.world [Sample.alice] ∅)) as Hthen.
  destruct (usecase.DeleteUser Sample.userRepo true "u1" (Sample.world [Sample.alice] ∅))
    as [[e|] w1] eqn:Hdelete.
  - vm_compute in Hdelete. discriminate Hdelete.
  - destruct (Hthen w1 Hdelete) as (_ & _ & _ & _ & Hrefresh).
    apply Hrefresh. reflexivity.
Defined.

(** ** Listing users *)

Module ListFacts.
Import entity repository repository.Postgres.

#[local] Instance newer_first_total : Total newer_first.
Proof. intros a b. unfold newer_first. lia. Qed.

#[local] Instance newer_first_trans : Transitive newer_first.
Proof. intros a b c. unfold newer_first. lia. Qed.

Lemma page_sorted (n k : nat) (l : list User) :
  StronglySorted newer_first (take n (drop k (merge_sort newer_first l))).
Proof.
  pose proof (StronglySorted_merge_sort newer_first l) as Hs.
  rewrite <- (take_drop k (merge_sort newer_first l)) in Hs.
  apply StronglySorted_app_1_r in Hs.
  rewrite <- (take_drop n (drop k (merge_sort newer_first l))) in Hs.
  by apply StronglySorted_app_1_l in Hs.
Qed.

Lemma page_In (n k : nat) (l : list User) u :
  In u (take n (drop k (merge_sort newer_first l))) -> In u l.
Proof.
  intros Hin. apply list_elem_of_In in Hin.
  apply subseteq_take, subseteq_drop in Hin.
  rewrite merge_sort_Permutation in Hin. by apply list_elem_of_In.
Qed.

Lemma page_length (n k : nat) (l : list User) :
  length (take n (drop k (merge_sort newer_first l))) = (n `min` (length l - k))%nat.
Proof.
  by rewrite length_take, length_drop, (Permutation_length (merge_sort_Permutation _ l)).
Qed.

Section Where.
Variable ILIKE : string -> string -> bool.

Lemma list_where_inv search role status u :
  list_where ILIKE search role status u = true ->
  DeletedAt u = None /\ (role <> "" -> Role u = role) /\
  (status <> "" -> Status u = status).
Proof.
  unfold list_where. rewrite !andb_true_iff. intros [[[Hlive _] Hrole] Hstatus].
  unfold live in Hlive. apply bool_decide_eq_true in Hlive. split; [done|]. split.
  - intros Hne. apply String.eqb_neq in Hne. rewrite Hne in Hrole.
    by apply String.eqb_eq.
  - intros Hne. apply String.eqb_neq in Hne. rewrite Hne in Hstatus.
    by apply String.eqb_eq.
Qed.

Lemma List_ok_inv page pageSize search role status db us total :
  List ILIKE page pageSize search role status db = Ok (us, total) ->
  unreachable db = false /\
  total = Z.of_nat (length (List.filter (list_where ILIKE search role status) (users db))) /\
  (((pageSize < 0 \/ wrap64 ((page - 1) * pageSize) < 0) /\ us = []) \/
   (0 <= pageSize /\ 0 <= wrap64 ((page - 1) * pageSize) /\
    us = take (Z.to_nat pageSize)
           (drop (Z.to_nat (wrap64 ((page - 1) * pageSize)))
              (merge_sort newer_first
                 (List.filter (list_where ILIKE search role status) (users db)))))).
Proof.
  unfold List. destruct (unreachable db); [done|].
  destruct (Z.ltb_spec pageSize 0); cbn [orb].
  - intros [= <- <-]. split; [done|]. split; [done|]. left. split; [by left|done].
  - destruct (Z.ltb_spec (wrap64 ((page - 1) * pageSize)) 0); intros [= <- <-].
    + split; [done|]. split; [done|]. left. split; [by right|done].
    + split; [done|]. split; [done|]. by right.
Qed.

End Where.
End ListFacts.

(** X14: a page of [List] on the Postgres repository. The query fails
    only when the server cannot be reached. With a negative page size or a
    negative offset [(page - 1) * pageSize], computed in 64 bits, the
    answer is an empty page, the total and no error: the code does not see
    that the server refused the statement. Otherwise the page holds
    [pageSize] users, or what is left after the offset if that is fewer.
    Every user on a page is a row of the table that is not soft-deleted and
    has the role and the status asked for, if any; the page is ordered
    newest first; and the total counts the rows that match, whatever page
    was asked for. *)
Theorem X14_list_returns_a_page_of_the_live_matches
    (ILIKE : string -> string -> bool) (page pageSize : Z) (search role status : string)
    (db : repository.Database) :
  is_ok (repository.Postgres.List ILIKE page pageSize search role status db)
    = negb (repository.unreachable db) /\
  (forall us total,
     repository.Postgres.List ILIKE page pageSize search role status db = Ok (us, total) ->
     (pageSize < 0 \/ repository.wrap64 ((page - 1) * pageSize) < 0 -> us = []) /\
     (0 <= pageSize -> 0 <= repository.wrap64 ((page - 1) * pageSize) ->
      Z.of_nat (length us)
        = Z.min pageSize (Z.max 0 (total - repository.wrap64 ((page - 1) * pageSize)))) /\
     (forall u, In u us ->
        In u (repository.users db) /\ entity.DeletedAt u = None /\
        (role <> "" -> entity.Role u = role) /\
        (status <> "" -> entity.Status u = status)) /\
     StronglySorted repository.newer_first us /\
     (forall page' pageSize' us' total',
        repository.Postgres.List ILIKE page' pageSize' search role status db
          = Ok (us', total') -> total' = total)).
Proof.
  split.
  - unfold repository.Postgres.List. destruct (repository.unreachable db); [done|].
    by destruct (_ || _).
  - intros us total HList.
    apply ListFacts.List_ok_inv in HList
      as (_ & -> & [[Hneg ->]|(Hsize & Hoff & ->)]).
    + split; [done|]. split; [lia|]. split; [by intros u []|].
      split; [constructor|].
      intros page' pageSize' us' total' HList'.
      by apply ListFacts.List_ok_inv in HList' as (_ & -> & _).
    + split; [lia|]. split; [|split; [|split]].
      * intros _ _. rewrite ListFacts.page_length. lia.
      * intros u Hin. apply ListFacts.page_In, filter_In in Hin as [Hin Hw].
        split; [done|]. by apply ListFacts.list_where_inv with ILIKE search.
      * apply ListFacts.page_sorted.
      * intros page' pageSize' us' total' HList'.
        by apply ListFacts.List_ok_inv in HList' as (_ & -> & _).
Qed.

(** X14 at the sample data: a table with two live users and a deleted
    one; page 2 of size 1, and a page of size -1. *)
Lemma X14_witness :
  match repository.Postgres.List Reference.ILIKE 2 1 "" "" ""
          (Sample.server [Sample.alice; Sample.rival;
                          repository.Postgres.deleted_row 990 Sample.banned_alice]) with
  | Ok (us, total) => length us = 1%nat /\ forall u, In u us -> entity.DeletedAt u = None
  | Err _ => False
  end /\
  repository.Postgres.List Reference.ILIKE 1 (-1) "" "" ""
    (Sample.server [Sample.alice; Sample.rival;
                    repository.Postgres.deleted_row 990 Sample.banned_alice])
  = Ok ([], 2).
Proof.
  split.
  - destruct (repository.Postgres.List Reference.ILIKE 2 1 "" "" ""
                (Sample.server [Sample.alice; Sample.rival;
                                repository.Postgres.deleted_row 990 Sample.banned_alice]))
      as [[us total]|e] eqn:HList.
    + destruct (proj2 (X14_list_returns_a_page_of_the_live_matches Reference.ILIKE 2 1
                         "" "" "" _) us total HList) as (_ & _ & Hrows & _).
      split.
      * vm_compute in HList. injection HList as <- <-. reflexivity.
      * intros u Hu. by destruct (Hrows u Hu) as (_ & ? & _).
    + vm_compute in HList. discriminate HList.
  - destruct (repository.Postgres.List Reference.ILIKE 1 (-1) "" "" ""
                (Sample.server [Sample.alice; Sample.rival;
                                repository.Postgres.deleted_row 990 Sample.banned_alice]))
      as [[us total]|e] eqn:HList.
    + destruct (proj2 (X14_list_returns_a_page_of_the_live_matches Reference.ILIKE 1 (-1)
                         "" "" "" _) us total HList) as (Hempty & _).
      rewrite Hempty in HList |- * by (left; lia).
      vm_compute in HList. injection HList as <-. reflexivity.
    + vm_compute in HList. discriminate HList.
Defined.

(** ** The methods of the entity *)

Module MethodFacts.
Import entity Methods.

Lemma call_keeps u m :
  ID (call u m) = ID u /\ Email (call u m) = Email u /\
  Username (call u m) = Username u /\ Role (call u m) = Role u /\
  CreatedAt (call u m) = CreatedAt u /\
  (DeletedAt u <> None -> DeletedAt (call u m) <> None).
Proof. by destruct m. Qed.

Lemma calls_keep ms u :
  ID (calls ms u) = ID u /\ Email (calls ms u) = Email u /\
  Username (calls ms u) = Username u /\ Role (calls ms u) = Role u /\
  CreatedAt (calls ms u) = CreatedAt u /\
  (DeletedAt u <> None -> DeletedAt (calls ms u) <> None).
Proof.
  revert u. induction ms as [|m ms IH]; intros u; [done|].
  unfold calls. cbn [fold_left]. fold (calls ms (call u m)).
  destruct (IH (call u m)) as (-> & -> & -> & -> & -> & Hdel).
  destruct (call_keeps u m) as (-> & -> & -> & -> & -> & Hdel').
  auto 10.
Qed.

End MethodFacts.

(** X15: what the methods of the entity keep. Whatever sequence of
    [MarkAsDeleted], [UpdateProfile], [UpdatePassword] and [ChangeStatus]
    is called on a user, its id, email, username, role (and so [IsAdmin])
    and creation time stay as they were; and a deletion is final: once the
    user has a deletion time, and so after [MarkAsDeleted], no sequence of
    calls makes [IsActive] true again, not even [ChangeStatus] with
    "active". *)
Theorem X15_entity_methods_keep_identity_and_deletion
    (ms : list Methods.Mutation) (u : entity.User) :
  entity.ID (Methods.calls ms u) = entity.ID u /\
  entity.Email (Methods.calls ms u) = entity.Email u /\
  entity.Username (Methods.calls ms u) = entity.Username u /\
  entity.Role (Methods.calls ms u) = entity.Role u /\
  entity.IsAdmin (Methods.calls ms u) = entity.IsAdmin u /\
  entity.CreatedAt (Methods.calls ms u) = entity.CreatedAt u /\
  (entity.DeletedAt u <> None -> entity.IsActive (Methods.calls ms u) = false) /\
  (forall now, entity.IsActive (Methods.calls ms (entity.MarkAsDeleted now u)) = false).
Proof.
  destruct (MethodFacts.calls_keep ms u) as (Hid & Hemail & Hname & Hrole & Hcreated & Hdel).
  assert (Hfinal : forall v, entity.DeletedAt v <> None ->
            entity.IsActive (Methods.calls ms v) = false).
  { intros v Hv. destruct (MethodFacts.calls_keep ms v) as (_ & _ & _ & _ & _ & Hd).
    unfold entity.IsActive. rewrite bool_decide_false by auto. apply andb_false_r. }
  split; [done|]. split; [done|]. split; [done|]. split; [done|].
  split; [unfold entity.IsAdmin; by rewrite Hrole|]. split; [done|].
  split; [apply Hfinal|]. intros now. by apply Hfinal.
Qed.

(** X15 at the sample data: a deleted user whose status is set back to
    "active". *)
Lemma X15_witness :
  entity.IsActive
    (Methods.calls [Methods.CallChangeStatus 960 "active";
                    Methods.CallUpdateProfile 970 "Alice B"]
       (entity.MarkAsDeleted 950 Sample.alice)) = false.
Proof.
  destruct (X15_entity_methods_keep_identity_and_deletion
              [Methods.CallChangeStatus 960 "active";
               Methods.CallUpdateProfile 970 "Alice B"]
              (entity.MarkAsDeleted 950 Sample.alice)) as (_ & _ & _ & _ & _ & _ & Hfinal & _).
  apply Hfinal. discriminate.
Defined.

(** ** internal/shared/utils *)

Module UtilsFacts.
Import utils.

Lemma append_nil_r s : s ++ "" = s.
Proof. induction s as [|a s IH]; [done|]. by rewrite append_cons, IH. Qed.

Lemma bytes_to_length n s :
  String.length (substr.upto n s) = (n `min` String.length s)%nat.
Proof.
  revert s. induction n as [|n IH]; intros [|a s]; cbn; try done. by rewrite IH.
Qed.

Lemma bytes_to_prefix n s : exists rest, s = substr.upto n s ++ rest.
Proof.
  revert s. induction n as [|n IH]; intros [|a s]; cbn; eauto.
  destruct (IH s) as [rest Hrest]. exists rest. by rewrite append_cons, <- Hrest.
Qed.

Lemma slice_to_Some s hi r :
  slice_to s hi = Some r ->
  0 <= hi <= Z.of_nat (String.length s) /\ r = substr.upto (Z.to_nat hi) s.
Proof.
  unfold slice_to. destruct (Z.ltb_spec hi 0); [done|].
  destruct (Z.ltb_spec (Z.of_nat (String.length s)) hi); [done|].
  intros [= <-]. split; [lia|done].
Qed.

Lemma slice_to_None s hi :
  slice_to s hi = None <-> hi < 0 \/ Z.of_nat (String.length s) < hi.
Proof.
  unfold slice_to. destruct (Z.ltb_spec hi 0); [cbn; split; [lia|done]|].
  destruct (Z.ltb_spec (Z.of_nat (String.length s)) hi); cbn; split; try done; lia.
Qed.

End UtilsFacts.

(** X16: [TruncateString] on a string of bytes. It panics exactly when
    [maxLen] is negative. Otherwise the result has [maxLen] bytes, or all
    the bytes of the string if these are not more: a string that fits is
    returned as it is, a longer one is cut to a prefix of [maxLen - 3]
    bytes followed by "...", and, when [maxLen] is at most 3, to a prefix
    of [maxLen] bytes with no dots. *)
Theorem X16_TruncateString_fits_the_limit (s : string) (maxLen : Z) :
  (utils.TruncateString s maxLen = None <-> maxLen < 0) /\
  (forall r,
     utils.TruncateString s maxLen = Some r ->
     Z.of_nat (String.length r) = Z.min (Z.of_nat (String.length s)) maxLen /\
     (Z.of_nat (String.length s) <= maxLen -> r = s) /\
     (maxLen < Z.of_nat (String.length s) ->
        exists kept rest,
          s = kept ++ rest /\
          r = kept ++ (if maxLen <=? 3 then "" else "..."))).
Proof.
  unfold utils.TruncateString.
  destruct (Z.leb_spec (Z.of_nat (String.length s)) maxLen) as [Hfits|Hlong].
  - split; [split; [done|lia]|]. intros r [= <-]. split; [lia|]. split; [done|lia].
  - destruct (Z.leb_spec maxLen 3) as [Hsmall|Hbig].
    + split; [rewrite UtilsFacts.slice_to_None; lia|].
      intros r Hr. apply UtilsFacts.slice_to_Some in Hr as [Hrange ->].
      split; [rewrite UtilsFacts.bytes_to_length; lia|]. split; [lia|]. intros _.
      destruct (UtilsFacts.bytes_to_prefix (Z.to_nat maxLen) s) as [rest Hrest].
      exists (substr.upto (Z.to_nat maxLen) s), rest. split; [done|].
      by rewrite UtilsFacts.append_nil_r.
    + destruct (utils.slice_to s (maxLen - 3)) as [kept|] eqn:Hkept.
      * split; [split; [done|lia]|]. intros r [= <-].
        apply UtilsFacts.slice_to_Some in Hkept as [Hrange ->].
        split; [rewrite length_append, UtilsFacts.bytes_to_length; cbn; lia|].
        split; [lia|]. intros _.
        destruct (UtilsFacts.bytes_to_prefix (Z.to_nat (maxLen - 3)) s) as [rest Hrest].
        by exists (substr.upto (Z.to_nat (maxLen - 3)) s), rest.
      * apply UtilsFacts.slice_to_None in Hkept. lia.
Qed.

(** X16 at a sample: a string of eleven bytes cut to eight. *)
Lemma X16_witness :
  match utils.TruncateString "hello world" 8 with
  | Some r => String.length r = 8%nat
  | None => False
  end.
Proof.
  destruct (utils.TruncateString "hello world" 8) as [r|] eqn:Hr.
  - destruct (proj2 (X16_TruncateString_fits_the_limit "hello world" 8) r Hr)
      as (Hlen & _).
    cbn in Hlen. lia.
  - apply (proj1 (X16_TruncateString_fits_the_limit "hello world" 8)) in Hr. lia.
Defined.

Module DedupFacts.
Import utils.

Lemma SliceContains_In slice item : SliceContains slice item = true <-> In item slice.
Proof.
  induction slice as [|s rest IH]; [done|]. cbn.
  destruct (String.eqb_spec s item) as [->|Hne]; [by split; [left|]|].
  rewrite IH. split; [by right|]. by intros [?|?].
Qed.

Lemma SliceContains_app l1 l2 item :
  SliceContains (l1 ++ l2) item = SliceContains l1 item || SliceContains l2 item.
Proof.
  induction l1 as [|s l1 IH]; [done|]. cbn. by destruct (String.eqb s item).
Qed.

(** The loop, started with the keys of what it has built, appends the
    strings it has not yet seen, in the order of their first occurrence. *)
Lemma RemoveDuplicates_from_spec slice :
  forall keys result,
    (forall x, is_Some (keys !! x) <-> In x result) ->
    RemoveDuplicates_from slice keys result =
      (result ++ List.filter (fun y => negb (SliceContains result y))
                   (RemoveDuplicates slice))%list.
Proof.
  induction slice as [|entry rest IH]; intros keys result Hkeys.
  { cbn. by rewrite app_nil_r. }
  assert (Hone : forall x, is_Some ((<[entry := true]> (∅ : gmap string bool)) !! x)
                           <-> In x [entry]).
  { intros x. destruct (decide (entry = x)) as [->|Hne].
    - rewrite lookup_insert_eq. split; [by left|eauto].
    - rewrite lookup_insert_ne, lookup_empty by done. split; [by intros [? ?]|].
      by intros [?|[]]. }
  unfold RemoveDuplicates. cbn [RemoveDuplicates_from app]. rewrite lookup_empty.
  rewrite (IH _ [entry] Hone). cbn [app List.filter].
  destruct (keys !! entry) as [b|] eqn:Hentry.
  - assert (In entry result) as Hin by (apply Hkeys; eauto).
    apply SliceContains_In in Hin. rewrite Hin. cbn [negb].
    rewrite (IH _ _ Hkeys). f_equal. clear IH.
    induction (RemoveDuplicates rest) as [|y l IHl]; [done|].
    cbn [List.filter SliceContains].
    destruct (String.eqb_spec entry y) as [<-|Hne]; cbn [negb List.filter].
    + by rewrite Hin.
    + by rewrite IHl.
  - assert (SliceContains result entry = false) as Hout.
    { destruct (SliceContains result entry) eqn:Hc; [|done].
      apply SliceContains_In, Hkeys in Hc as [b Hb]. congruence. }
    rewrite Hout. cbn [negb]. rewrite IH.
    + rewrite <- app_assoc. cbn [app]. do 2 f_equal. clear IH.
      induction (RemoveDuplicates rest) as [|y l IHl]; [done|].
      cbn [List.filter SliceContains]. rewrite SliceContains_app. cbn [SliceContains].
      destruct (String.eqb entry y); cbn [negb List.filter].
      * by rewrite orb_true_r.
      * rewrite orb_false_r, IHl. by destruct (SliceContains result y).
    + intros x. rewrite in_app_iff. destruct (decide (entry = x)) as [->|Hne].
      * rewrite lookup_insert_eq. split; [right; by left|eauto].
      * rewrite lookup_insert_ne by done. rewrite Hkeys. split; [by left|].
        by intros [?|[?|[]]].
Qed.

(** The first string is kept, and the strings equal to it are dropped
    from what the rest gives. *)
Lemma RemoveDuplicates_cons x l :
  RemoveDuplicates (x :: l) =
    x :: List.filter (fun y => negb (String.eqb x y)) (RemoveDuplicates l).
Proof.
  unfold RemoveDuplicates at 1. cbn [RemoveDuplicates_from app]. rewrite lookup_empty.
  rewrite RemoveDuplicates_from_spec.
  - cbn [app]. f_equal. apply filter_ext. intros y. cbn. by destruct (String.eqb x y).
  - intros y. destruct (decide (x = y)) as [->|Hne].
    + rewrite lookup_insert_eq. split; [by left|eauto].
    + rewrite lookup_insert_ne, lookup_empty by done. split; [by intros [? ?]|].
      by intros [?|[]].
Qed.

Lemma RemoveDuplicates_In l y : In y (RemoveDuplicates l) <-> In y l.
Proof.
  induction l as [|x l IH]; [done|]. rewrite RemoveDuplicates_cons. cbn [In].
  rewrite filter_In, IH. destruct (String.eqb_spec x y) as [->|Hne]; cbn [negb].
  - split; by left.
  - split; [intros [?|[? _]]; auto|intros [?|?]; auto].
Qed.

Lemma filter_sublist {A} (p : A -> bool) (l : list A) : sublist (List.filter p l) l.
Proof.
  induction l as [|a l IH]; [constructor|]. cbn. destruct (p a); by constructor.
Qed.

Lemma filter_all {A} (p : A -> bool) (l : list A) :
  (forall x, In x l -> p x = true) -> List.filter p l = l.
Proof.
  induction l as [|a l IH]; [done|]. intros H. cbn. rewrite (H a) by (by left).
  f_equal. apply IH. intros x Hx. apply H. by right.
Qed.

Lemma RemoveDuplicates_NoDup l : NoDup (RemoveDuplicates l).
Proof.
  induction l as [|x l IH]; [constructor|]. rewrite RemoveDuplicates_cons.
  apply NoDup_cons. split.
  - rewrite list_elem_of_In, filter_In, String.eqb_refl. by intros [_ ?].
  - by apply NoDup_ListNoDup, List.NoDup_filter, NoDup_ListNoDup.
Qed.

Lemma RemoveDuplicates_fixed l : NoDup l -> RemoveDuplicates l = l.
Proof.
  induction l as [|x l IH]; [done|]. rewrite NoDup_cons, list_elem_of_In.
  intros [Hx Hl]. rewrite RemoveDuplicates_cons, (IH Hl). f_equal.
  apply filter_all. intros y Hy. destruct (String.eqb_spec x y) as [->|]; done.
Qed.

End DedupFacts.

(** X17: [RemoveDuplicates] keeps the first occurrence of every string.
    The first string of the slice is kept and the strings equal to it are
    dropped from what the rest of the slice gives. So the result has no
    string twice, holds exactly the strings of the slice (as
    [SliceContains] finds them, which finds a string exactly when it is in
    the slice), keeps them in the order of the slice, is the slice itself
    when the slice has no string twice, and is not changed by a second
    [RemoveDuplicates]. *)
Theorem X17_RemoveDuplicates_keeps_first_occurrences (slice : list string) :
  (forall x l,
     utils.RemoveDuplicates (x :: l) =
       x :: List.filter (fun y => negb (String.eqb x y)) (utils.RemoveDuplicates l)) /\
  NoDup (utils.RemoveDuplicates slice) /\
  (forall item,
     utils.SliceContains (utils.RemoveDuplicates slice) item
     = utils.SliceContains slice item) /\
  (forall item, utils.SliceContains slice item = true <-> In item slice) /\
  sublist (utils.RemoveDuplicates slice) slice /\
  (NoDup slice -> utils.RemoveDuplicates slice = slice) /\
  utils.RemoveDuplicates (utils.RemoveDuplicates slice) = utils.RemoveDuplicates slice.
Proof.
  split; [apply DedupFacts.RemoveDuplicates_cons|].
  split; [apply DedupFacts.RemoveDuplicates_NoDup|].
  split.
  { intros item. apply eq_true_iff_eq.
    by rewrite !DedupFacts.SliceContains_In, DedupFacts.RemoveDuplicates_In. }
  split; [apply DedupFacts.SliceContains_In|].
  split.
  { induction slice as [|x l IH]; [constructor|].
    rewrite DedupFacts.RemoveDuplicates_cons. constructor.
    etrans; [apply DedupFacts.filter_sublist|done]. }
  split; [apply DedupFacts.RemoveDuplicates_fixed|].
  apply DedupFacts.RemoveDuplicates_fixed, DedupFacts.RemoveDuplicates_NoDup.
Qed.

(** X17 at a sample. *)
Lemma X17_witness :
  utils.RemoveDuplicates ["b"; "a"; "b"; "c"; "a"] = ["b"; "a"; "c"] /\
  utils.RemoveDuplicates ["b"; "a"; "c"] = ["b"; "a"; "c"].
Proof.
  split; [reflexivity|].
  destruct (X17_RemoveDuplicates_keeps_first_occurrences ["b"; "a"; "c"])
    as (_ & _ & _ & _ & _ & Hfixed & _).
  apply Hfixed.
  repeat constructor; rewrite list_elem_of_In; cbn; intuition discriminate.
Defined.

Module PageFacts.

Lemma wrap64_small z : - 2 ^ 63 <= z < 2 ^ 63 -> repository.wrap64 z = z.
Proof.
  intros H. unfold repository.wrap64. rewrite Z.mod_small; lia.
Qed.

(** The number of pages the code computes: the quotient, and one more
    when the division leaves a rest. *)
Lemma total_pages total pageSize :
  1 <= pageSize -> 0 <= total < 2 ^ 63 ->
  exists n,
    (if negb (Z.rem total pageSize =? 0)
     then repository.wrap64 (repository.wrap64 (Z.quot total pageSize) + 1)
     else repository.wrap64 (Z.quot total pageSize)) = n /\
    0 <= n /\ (n - 1) * pageSize < total <= n * pageSize.
Proof.
  intros Hsize Htotal.
  pose proof (Z.quot_rem' total pageSize) as Hqr.
  pose proof (Z.rem_bound_pos total pageSize ltac:(lia) ltac:(lia)) as Hr.
  assert (0 <= Z.quot total pageSize <= total) as Hq.
  { split; [apply Z.quot_pos; lia|]. nia. }
  rewrite (wrap64_small (Z.quot total pageSize)) by lia.
  destruct (Z.eqb_spec (Z.rem total pageSize) 0) as [Hzero|Hrest]; cbn [negb].
  - eexists. split; [reflexivity|]. split; [lia|]. nia.
  - assert (2 <= pageSize) by lia.
    rewrite wrap64_small by nia.
    eexists. split; [reflexivity|]. split; [lia|]. nia.
Qed.

End PageFacts.

(** X18: the page arithmetic. [NewMeta] divides by the page size: with
    the size 0 it panics, and with a size of at least 1 and a count that is
    not negative it gives the least number of pages that hold the count.
    [Paginate] first puts 1 in place of a page below 1 and 20 in place of a
    size below 1, so it never divides by zero, and gives the same number of
    pages for the size it uses and, short of an overflow, the offset of the
    page. A page of [List] on the Postgres repository has a user on it
    exactly when its number is at most the number of pages that [NewMeta]
    reports for the total of that query. *)
Theorem X18_total_pages_is_the_number_of_pages :
  (forall page totalItems, body.NewMeta page 0 totalItems = None) /\
  (forall page pageSize totalItems,
     1 <= pageSize -> 0 <= totalItems < 2 ^ 63 ->
     exists m,
       body.NewMeta page pageSize totalItems = Some m /\
       body.Page m = page /\ body.PageSize m = pageSize /\
       body.TotalItems m = totalItems /\ 0 <= body.TotalPages m /\
       (body.TotalPages m - 1) * pageSize < totalItems <= body.TotalPages m * pageSize) /\
  (forall page pageSize total,
     0 <= total < 2 ^ 63 ->
     exists offset limit totalPages,
       utils.Paginate page pageSize total = (offset, limit, totalPages) /\
       limit = (if pageSize <? 1 then 20 else pageSize) /\ 1 <= limit /\
       0 <= totalPages /\ (totalPages - 1) * limit < total <= totalPages * limit /\
       ((Z.max 1 page - 1) * limit < 2 ^ 63 -> offset = (Z.max 1 page - 1) * limit)) /\
  (forall ILIKE page pageSize search role status db us total m,
     1 <= page -> 1 <= pageSize -> (page - 1) * pageSize < 2 ^ 63 -> total < 2 ^ 63 ->
     repository.Postgres.List ILIKE page pageSize search role status db = Ok (us, total) ->
     body.NewMeta page pageSize total = Some m ->
     (us <> [] <-> page <= body.TotalPages m)).
Proof.
  split; [done|]. split; [|split].
  - intros page pageSize totalItems Hsize Htotal. unfold body.NewMeta.
    destruct (Z.eqb_spec pageSize 0); [lia|].
    destruct (PageFacts.total_pages totalItems pageSize Hsize Htotal) as (k & -> & Hk).
    eexists. split; [reflexivity|]. cbn. done.
  - intros page pageSize total Htotal. unfold utils.Paginate.
    set (limit := if pageSize <? 1 then 20 else pageSize).
    assert (1 <= limit) as Hlimit.
    { unfold limit. destruct (Z.ltb_spec pageSize 1); lia. }
    destruct (PageFacts.total_pages total limit Hlimit Htotal) as (k & -> & Hk).
    eexists _, limit, k. split; [reflexivity|]. split; [done|]. split; [done|].
    split; [lia|]. split; [lia|]. intros Hfits.
    replace (if page <? 1 then 1 else page) with (Z.max 1 page)
      by (destruct (Z.ltb_spec page 1); lia).
    apply PageFacts.wrap64_small. nia.
  - intros ILIKE page pageSize search role status db us total m Hpage Hsize Hfits
      Hcount HList Hmeta.
    apply ListFacts.List_ok_inv in HList as (_ & Htotal & Hpage').
    rewrite PageFacts.wrap64_small in Hpage' by nia.
    destruct Hpage' as [[Hneg _]|(_ & _ & ->)]; [nia|].
    assert (0 <= total) as Hpos by (rewrite Htotal; apply Nat2Z.is_nonneg).
    unfold body.NewMeta in Hmeta. destruct (Z.eqb_spec pageSize 0); [lia|].
    destruct (PageFacts.total_pages total pageSize Hsize (conj Hpos Hcount))
      as (k & Hk & Hk0 & Hceil).
    rewrite Hk in Hmeta. injection Hmeta as <-. cbn [body.TotalPages].
    set (kept := List.filter _ _) in *.
    assert (Hlen : Z.of_nat (length (take (Z.to_nat pageSize)
                     (drop (Z.to_nat ((page - 1) * pageSize))
                        (merge_sort repository.newer_first kept))))
                   = Z.min pageSize (Z.max 0 (total - (page - 1) * pageSize))).
    { rewrite ListFacts.page_length.
      assert (0 <= (page - 1) * pageSize) as Hoff by nia.
      revert Hoff. generalize ((page - 1) * pageSize). intros offset Hoff. lia. }
    split.
    + intros Hne.
      destruct (take _ _) as [|u rest]; [done|]. cbn [length] in Hlen. nia.
    + intros Hle Hnil. rewrite Hnil in Hlen. cbn [length] in Hlen. nia.
Qed.

(** X18 at the sample data: three live users, pages of two. *)
Lemma X18_witness :
  exists m,
    body.NewMeta 2 2 3 = Some m /\ body.TotalPages m = 2 /\
    fst (fst (utils.Paginate 0 (-5) 41)) = 0 /\ snd (utils.Paginate 0 (-5) 41) = 3.
Proof.
  destruct X18_total_pages_is_the_number_of_pages as (_ & Hmeta & _ & _).
  destruct (Hmeta 2 2 3) as (m & Hm & _ & _ & _ & Hpos & Hceil); [lia|lia|].
  exists m. split; [done|]. split; [lia|]. split; reflexivity.
Defined.

(** ** Runes and regular expressions *)

Module Utf8Facts.
Import utf8.

Lemma byte_range a : 0 <= byte a < 256.
Proof.
  unfold byte. pose proof (N_ascii_bounded a) as H. lia.
Qed.

Lemma byte_inj a b : byte a = byte b -> a = b.
Proof.
  unfold byte. intros H. apply N2Z.inj in H.
  rewrite <- (ascii_N_embedding a), H. apply ascii_N_embedding.
Qed.

Lemma skip_length n s : String.length (substr.from n s) = (String.length s - n)%nat.
Proof.
  revert s. induction n as [|n IH]; intros [|a s]; cbn; by try lia.
Qed.

Lemma bytes_to_skip n s : substr.upto n s ++ substr.from n s = s.
Proof.
  revert s. induction n as [|n IH]; intros [|a s]; cbn; try done.
  by rewrite append_cons, IH.
Qed.

Lemma first_Some s0 sz lo hi :
  first s0 = Some (sz, lo, hi) ->
  (2 <= sz <= 4)%nat /\ 128 <= lo /\ hi <= 191 /\
  ((sz = 2%nat /\ 194 <= s0 <= 223) \/
   (sz = 3%nat /\ s0 = 224 /\ lo = 160) \/
   (sz = 3%nat /\ 225 <= s0 <= 239) \/
   (sz = 4%nat /\ s0 = 240 /\ lo = 144) \/
   (sz = 4%nat /\ 241 <= s0 <= 244)).
Proof.
  unfold first.
  repeat match goal with
         | |- context [if ?c then _ else _] => destruct c eqn:?
         end; intros [= <- <- <-]; lia.
Qed.

(** The first rune of a string that is not empty: a byte below 128
    stands for itself; otherwise the rune is at least 128, and so is every
    byte it is read from. *)
Lemma decode_cases a rest r w :
  DecodeRuneInString (String a rest) = (r, w) ->
  (byte a < 128 /\ r = byte a /\ w = 1%nat) \/
  (128 <= byte a /\ 128 <= r /\ (1 <= w <= String.length (String a rest))%nat /\
   Forall (fun b => 128 <= byte b) (list_ascii_of_string (substr.upto w (String a rest)))).
Proof.
  cbn [DecodeRuneInString]. cbv zeta. unfold RuneSelf, RuneError, continuation.
  pose proof (byte_range a) as Ha.
  destruct (Z.ltb_spec (byte a) 128) as [Hlow|Hhigh]; cbv iota;
    [intros [= <- <-]; by left|].
  intros Hd. right. split; [done|]. revert Hd.
  assert (Hone : forall r' w', (65533, 1%nat) = (r', w') ->
            128 <= r' /\ (1 <= w' <= String.length (String a rest))%nat /\
            Forall (fun b => 128 <= byte b)
              (list_ascii_of_string (substr.upto w' (String a rest)))).
  { intros r' w' [= <- <-]. split; [lia|]. split; [cbn; lia|].
    cbn. destruct rest; by repeat constructor. }
  destruct (first (byte a)) as [[[sz lo] hi]|] eqn:Hfirst; [|exact (Hone r w)].
  apply first_Some in Hfirst as (Hsz & Hlo & Hhi & Hs0).
  destruct rest as [|a1 r1]; [exact (Hone r w)|].
  pose proof (byte_range a1) as Ha1.
  destruct (Z.ltb_spec (byte a1) lo); cbv iota; [exact (Hone r w)|].
  destruct (Z.ltb_spec hi (byte a1)); cbn [orb]; cbv iota; [exact (Hone r w)|].
  destruct (Nat.leb_spec sz 2); cbv iota.
  { intros [= <- <-]. split; [Z.to_euclidean_division_equations; lia|]. split; [cbn; lia|].
    cbn. destruct r1; repeat constructor; lia. }
  destruct r1 as [|a2 r2]; [exact (Hone r w)|].
  pose proof (byte_range a2) as Ha2.
  destruct (Z.leb_spec 128 (byte a2)); cbn [andb negb]; cbv iota; [|exact (Hone r w)].
  destruct (Z.leb_spec (byte a2) 191); cbn [andb negb]; cbv iota; [|exact (Hone r w)].
  destruct (Nat.leb_spec sz 3); cbv iota.
  { intros [= <- <-]. split; [Z.to_euclidean_division_equations; lia|]. split; [cbn; lia|].
    cbn. destruct r2; repeat constructor; lia. }
  destruct r2 as [|a3 r3]; [exact (Hone r w)|].
  pose proof (byte_range a3) as Ha3.
  destruct (Z.leb_spec 128 (byte a3)); cbn [andb negb]; cbv iota; [|exact (Hone r w)].
  destruct (Z.leb_spec (byte a3) 191); cbn [andb negb]; cbv iota; [|exact (Hone r w)].
  intros [= <- <-]. split; [Z.to_euclidean_division_equations; lia|]. split; [cbn; lia|].
  cbn. destruct r3; repeat constructor; lia.
Qed.

Lemma decode_width a rest :
  (1 <= snd (DecodeRuneInString (String a rest)) <= String.length (String a rest))%nat.
Proof.
  destruct (DecodeRuneInString (String a rest)) as [r w] eqn:Hd.
  apply decode_cases in Hd as [(_ & _ & ->)|(_ & _ & Hw & _)]; cbn [snd]; [cbn; lia|done].
Qed.

End Utf8Facts.

Module RegexpFacts.
Import regexp.

(** The backtracking finds only matches. *)
Lemma backtrack_sound (re : Regexp) :
  forall (R : Type) (k : bool -> string -> option R) bot s x,
    backtrack re k bot s = Some x ->
    exists bot' s', Matches re (bot, s) (bot', s') /\ k bot' s' = Some x.
Proof.
  induction re as [negated ranges| | |r1 IH1 r2 IH2|greedy r1 IH1]; intros R k bot s x.
  - cbn [backtrack]. destruct s as [|a rest]; [done|].
    destruct (utf8.DecodeRuneInString (String a rest)) as [r w] eqn:Hd.
    destruct (in_class negated ranges r) eqn:Hc; [|done]. intros Hk.
    exists false, (substr.from w (String a rest)). split; [|done]. by econstructor.
  - cbn [backtrack]. destruct bot; [|done]. intros Hk. exists true, s. split; [constructor|done].
  - cbn [backtrack]. destruct s; [|done]. intros Hk. exists bot, "". split; [constructor|done].
  - cbn [backtrack]. intros H. apply IH1 in H as (b1 & s1 & M1 & H).
    apply IH2 in H as (b2 & s2 & M2 & H). exists b2, s2. split; [|done].
    by econstructor.
  - cbn [backtrack]. generalize (String.length s). intros n. revert bot s x.
    induction n as [|n IHn]; intros bot s x; cbn [iterate]; cbv zeta.
    + destruct greedy; intros Hk; exists bot, s; (split; [constructor|]);
        revert Hk; by destruct (k bot s).
    + assert (Hmore : forall y,
                backtrack r1 (fun bot' s' =>
                          if (String.length s' <? String.length s)%nat
                          then iterate (backtrack r1) greedy k n bot' s' else None) bot s
                  = Some y ->
                exists bot' s', Matches (Star greedy r1) (bot, s) (bot', s') /\
                                k bot' s' = Some y).
      { intros y Hy. apply IH1 in Hy as (b1 & s1 & M1 & Hy).
        destruct (Nat.ltb_spec (String.length s1) (String.length s)); [|done].
        apply IHn in Hy as (b2 & s2 & M2 & Hy). exists b2, s2. split; [|done].
        by econstructor. }
      assert (Hstop : forall y, k bot s = Some y ->
                exists bot' s', Matches (Star greedy r1) (bot, s) (bot', s') /\
                                k bot' s' = Some y).
      { intros y Hy. exists bot, s. split; [constructor|done]. }
      destruct greedy.
      * destruct (backtrack r1 _ bot s) as [y|] eqn:Hy.
        -- intros [= <-]. by apply Hmore.
        -- apply Hstop.
      * destruct (k bot s) as [y|] eqn:Hy.
        -- intros [= <-]. by apply Hstop.
        -- apply Hmore.
Qed.

(** The backtracking finds a match when there is one. *)
Lemma backtrack_complete (re : Regexp) :
  forall (R : Type) (k : bool -> string -> option R) st st',
    Matches re st st' -> is_Some (k (fst st') (snd st')) ->
    is_Some (backtrack re k (fst st) (snd st)).
Proof.
  induction re as [negated ranges| | |r1 IH1 r2 IH2|greedy r1 IH1]; intros R k st st' HM Hk.
  - inversion HM as [? ? bot a rest r w Hd Hc| | | | |]; subst. cbn [backtrack fst snd] in *.
    by rewrite Hd, Hc.
  - inversion HM; subst. done.
  - inversion HM; subst. done.
  - inversion HM as [| | |? ? ? st1 ? M1 M2| |]; subst. cbn [backtrack].
    apply (IH1 _ _ _ st1 M1). by apply (IH2 _ _ _ _ M2).
  - cbn [backtrack].
    assert (Hloop : forall n st, (String.length (snd st) <= n)%nat ->
              Matches (Star greedy r1) st st' ->
              is_Some (iterate (backtrack r1) greedy k n (fst st) (snd st))).
    { clear st HM. induction n as [|n IHn]; intros st Hn HM; cbn [iterate]; cbv zeta.
      - inversion HM as [| | | |? ? ?|? ? ? st1 ? M1 Hlt M2]; subst.
        + destruct greedy; by destruct Hk as [y ->].
        + lia.
      - inversion HM as [| | | |? ? ?|? ? ? st1 ? M1 Hlt M2]; subst.
        + destruct greedy.
          * destruct (backtrack r1 _ _ _); [done|]. by destruct Hk as [y ->].
          * by destruct Hk as [y ->].
        + assert (is_Some (backtrack r1 (fun bot' s' =>
                     if (String.length s' <? String.length (snd st))%nat
                     then iterate (backtrack r1) greedy k n bot' s' else None)
                     (fst st) (snd st))) as [y Hy].
          { apply (IH1 _ _ _ st1 M1).
            destruct (Nat.ltb_spec (String.length (snd st1)) (String.length (snd st)));
              [|lia].
            apply IHn; [lia|done]. }
          rewrite Hy. destruct greedy; [done|]. by destruct (k (fst st) (snd st)). }
    by apply Hloop.
Qed.

End RegexpFacts.

(** *** Classes of ASCII characters *)

Module AsciiClass.
Import regexp.

(** The bytes of a string are all in a class. *)
Abbreviation all_in ranges m :=
  (Forall (fun a => in_class false ranges (utf8.byte a) = true) (list_ascii_of_string m)).

Lemma in_class_below ranges r :
  Forall (fun range => snd range < 128) ranges ->
  in_class false ranges r = true -> r < 128.
Proof.
  unfold in_class. cbn [xorb]. intros Hall Hin.
  apply existsb_exists in Hin as ([lo hi] & Hrange & Hr).
  rewrite Forall_forall in Hall. apply list_elem_of_In, Hall in Hrange.
  cbn [fst snd] in *. lia.
Qed.

Lemma decode_ascii a rest :
  utf8.byte a < 128 -> utf8.DecodeRuneInString (String a rest) = (utf8.byte a, 1%nat).
Proof.
  intros Ha. cbn [utf8.DecodeRuneInString]. cbv zeta. unfold utf8.RuneSelf.
  by destruct (Z.ltb_spec (utf8.byte a) 128); [|lia].
Qed.

(** A class of ASCII characters reads one byte, which is in the
    class. *)
Lemma Matches_class_inv ranges st st' :
  Forall (fun range => snd range < 128) ranges ->
  Matches (Class false ranges) st st' ->
  exists a, snd st = String a (snd st') /\ in_class false ranges (utf8.byte a) = true /\
            fst st' = false.
Proof.
  intros Hascii HM. inversion HM as [? ? bot a rest r w Hd Hc| | | | |]; subst.
  pose proof (in_class_below _ _ Hascii Hc) as Hr.
  apply Utf8Facts.decode_cases in Hd as [(_ & -> & ->)|(_ & ? & _)]; [|lia].
  exists a. by cbn.
Qed.

Lemma Matches_class_intro ranges bot a rest :
  Forall (fun range => snd range < 128) ranges ->
  in_class false ranges (utf8.byte a) = true ->
  Matches (Class false ranges) (bot, String a rest) (false, rest).
Proof.
  intros Hascii Hc. pose proof (in_class_below _ _ Hascii Hc) as Hr.
  change rest with (substr.from 1 (String a rest)) at 2.
  econstructor; [by apply decode_ascii|done].
Qed.

(** The repetition of a class of ASCII characters reads bytes of the
    class. *)
Lemma Matches_star_inv greedy ranges st st' :
  Forall (fun range => snd range < 128) ranges ->
  Matches (Star greedy (Class false ranges)) st st' ->
  exists m, snd st = m ++ snd st' /\ all_in ranges m /\ (m = "" -> fst st' = fst st).
Proof.
  intros Hascii HM. remember (Star greedy (Class false ranges)) as re eqn:Hre.
  induction HM as [| | | |g r st|g r st st1 st2 M1 _ Hlt M2 IH2]; try done.
  - exists "". by repeat constructor.
  - injection Hre as -> ->. destruct (IH2 eq_refl) as (m & Hm & Hall & _).
    apply (Matches_class_inv _ _ _ Hascii) in M1 as (a & Ha & Hc & _).
    exists (String a m). rewrite Ha, Hm. split; [done|]. split; [|done].
    cbn. by constructor.
Qed.

Lemma Matches_star_intro greedy ranges m :
  Forall (fun range => snd range < 128) ranges -> all_in ranges m ->
  forall bot rest,
    exists bot', Matches (Star greedy (Class false ranges)) (bot, m ++ rest) (bot', rest).
Proof.
  intros Hascii. induction m as [|a m IH]; intros Hall bot rest.
  - exists bot. constructor.
  - cbn in Hall. apply Forall_cons in Hall as [Ha Hall].
    destruct (IH Hall false rest) as [bot' HM]. exists bot'.
    rewrite append_cons.
    eapply Matches_Star_more; [by apply Matches_class_intro| |exact HM].
    cbn. lia.
Qed.

End AsciiClass.

(** *** Searching *)

Module SearchFacts.
Import regexp.

Lemma match_here_spec re bot s :
  (forall rest, match_here re bot s = Some rest ->
     exists bot', Matches re (bot, s) (bot', rest)) /\
  (match_here re bot s = None -> forall st', ~ Matches re (bot, s) st').
Proof.
  unfold match_here. split.
  - intros rest H. apply RegexpFacts.backtrack_sound in H as (bot' & s' & HM & [= ->]). eauto.
  - intros Hnone st' HM.
    destruct (RegexpFacts.backtrack_complete re _ (fun _ rest => Some rest) _ _ HM) as [x Hx];
      [done|]. cbn [fst snd] in Hx. congruence.
Qed.

(** An expression anchored at the beginning of the text matches nowhere
    else. *)
Lemma find_anchored_later fuel r s : find fuel (Cat BeginText r) false s = None.
Proof.
  revert s. induction fuel as [|fuel IH]; intros s; cbn [find match_here backtrack].
  - done.
  - destruct s; [done|]. by rewrite IH.
Qed.

Lemma MatchString_anchored r s :
  MatchString (Cat BeginText r) s = true <-> exists st', Matches r (true, s) st'.
Proof.
  unfold MatchString.
  destruct (String.length s) as [|fuel]; cbn [find].
  - change (match_here (Cat BeginText r) true s) with (match_here r true s).
    destruct (match_here r true s) as [rest|] eqn:Hm.
    + apply (proj1 (match_here_spec r true s)) in Hm as [bot' HM]. split; eauto.
    + split; [done|]. intros [st' HM].
      by destruct (proj2 (match_here_spec r true s) Hm st').
  - change (match_here (Cat BeginText r) true s) with (match_here r true s).
    destruct (match_here r true s) as [rest|] eqn:Hm.
    + apply (proj1 (match_here_spec r true s)) in Hm as [bot' HM]. split; eauto.
    + destruct s as [|a s'].
      * split; [done|]. intros [st' HM].
        by destruct (proj2 (match_here_spec r true "") Hm st').
      * rewrite find_anchored_later. split; [done|]. intros [st' HM].
        by destruct (proj2 (match_here_spec r true _) Hm st').
Qed.

(** A class of ASCII characters is found in a string exactly when one
    of the bytes of the string is in it. *)
Lemma find_ascii_class ranges :
  Forall (fun range => snd range < 128) ranges ->
  forall fuel bot s,
    (String.length s <= fuel)%nat ->
    is_Some (find fuel (Class false ranges) bot s) <->
    exists a, In a (list_ascii_of_string s) /\
              in_class false ranges (utf8.byte a) = true.
Proof.
  intros Hascii. induction fuel as [|fuel IH]; intros bot s Hfuel.
  { destruct s; [|cbn in Hfuel; lia]. cbn. split; [by intros [? ?]|by intros (? & [] & _)]. }
  destruct s as [|a rest].
  { cbn. split; [by intros [? ?]|by intros (? & [] & _)]. }
  cbn [find match_here backtrack].
  destruct (utf8.DecodeRuneInString (String a rest)) as [r w] eqn:Hd. cbn [snd].
  pose proof (Utf8Facts.decode_cases _ _ _ _ Hd) as Hcases.
  destruct (in_class false ranges r) eqn:Hc.
  - split; [intros _|by eauto].
    pose proof (AsciiClass.in_class_below _ _ Hascii Hc) as Hr.
    destruct Hcases as [(_ & -> & _)|(_ & ? & _)]; [|lia].
    exists a. split; [by left|done].
  - assert (Hrest : (String.length (substr.from w (String a rest)) <= fuel)%nat).
    { rewrite Utf8Facts.skip_length. destruct Hcases as [(_ & _ & ->)|(_ & _ & ? & _)];
        cbn in *; lia. }
    specialize (IH false _ Hrest).
    assert (Hsplit : forall b, In b (list_ascii_of_string (String a rest)) <->
              In b (list_ascii_of_string (substr.upto w (String a rest))) \/
              In b (list_ascii_of_string (substr.from w (String a rest)))).
    { intros b. rewrite <- (Utf8Facts.bytes_to_skip w (String a rest)) at 1.
      generalize (substr.upto w (String a rest)) (substr.from w (String a rest)).
      intros m1 m2. induction m1 as [|c m1 IHm]; [cbn; tauto|].
      rewrite append_cons. cbn [list_ascii_of_string In]. rewrite IHm. tauto. }
    assert (Hskipped : forall b,
              In b (list_ascii_of_string (substr.upto w (String a rest))) ->
              in_class false ranges (utf8.byte b) = false).
    { intros b Hb. destruct Hcases as [(_ & -> & ->)|(_ & _ & _ & Hhigh)].
      - cbn in Hb. destruct Hb as [<-|[]]. done.
      - rewrite Forall_forall in Hhigh. apply list_elem_of_In, Hhigh in Hb.
        destruct (in_class false ranges (utf8.byte b)) eqn:Hcb; [|done].
        apply (AsciiClass.in_class_below _ _ Hascii) in Hcb. lia. }
    destruct (find fuel (Class false ranges) false (substr.from w (String a rest)))
      as [[n rest']|] eqn:Hfind.
    + split; [intros _|by eauto].
      destruct (proj1 IH) as (b & Hb & Hcb); [by eauto|].
      exists b. split; [|done]. apply Hsplit. by right.
    + split; [by intros [? ?]|]. intros (b & Hb & Hcb).
      apply Hsplit in Hb as [Hb|Hb].
      * rewrite (Hskipped b Hb) in Hcb. done.
      * destruct (proj2 IH) as [? ?]; [|done]. eauto.
Qed.

Lemma MatchString_ascii_class ranges s :
  Forall (fun range => snd range < 128) ranges ->
  MatchString (Class false ranges) s = true <->
  exists a, In a (list_ascii_of_string s) /\ in_class false ranges (utf8.byte a) = true.
Proof.
  intros Hascii. rewrite <- (find_ascii_class ranges Hascii (String.length s) true s)
    by done.
  unfold MatchString. destruct (find _ _ _ _); split; try done; by eauto.
Qed.

End SearchFacts.

(** *** The expressions of the program *)

Module PatternFacts.
Import regexp.

Lemma in_class_app ranges1 ranges2 r :
  in_class false (ranges1 ++ ranges2) r
  = in_class false ranges1 r || in_class false ranges2 r.
Proof. unfold in_class. cbn [xorb]. by rewrite existsb_app. Qed.

Lemma in_class_cons range ranges r :
  in_class false (range :: ranges) r
  = ((fst range <=? r) && (r <=? snd range)) || in_class false ranges r.
Proof. done. Qed.

Lemma in_class_range lo hi r :
  in_class false [range lo hi] r = true <-> utf8.byte lo <= r <= utf8.byte hi.
Proof.
  unfold in_class, range. cbn [xorb existsb fst snd].
  rewrite orb_false_r, andb_true_iff, !Z.leb_le. done.
Qed.

Lemma in_class_chars str a :
  in_class false (chars str) (utf8.byte a) = true <-> In a (list_ascii_of_string str).
Proof.
  induction str as [|c str IH]; [done|].
  cbn [chars list_ascii_of_string In]. rewrite in_class_cons, orb_true_iff, IH.
  cbn [fst snd]. rewrite andb_true_iff, !Z.leb_le. split.
  - intros [[? ?]|?]; [left|by right]. apply Utf8Facts.byte_inj. lia.
  - intros [->|?]; [left; lia|by right].
Qed.

Lemma ascii_chars str : Forall (fun range : Z * Z => snd range < 128) (chars str) ->
  Forall (fun c => utf8.byte c < 128) (list_ascii_of_string str).
Proof.
  induction str as [|c str IH]; [constructor|]. cbn. rewrite !Forall_cons.
  intros [? ?]. auto.
Qed.

Lemma Matches_Cat_inv r1 r2 st st2 :
  Matches (Cat r1 r2) st st2 -> exists st1, Matches r1 st st1 /\ Matches r2 st1 st2.
Proof. intros HM. inversion HM; subst. eauto. Qed.

Lemma Matches_EndText_inv st st' : Matches EndText st st' -> snd st = "" /\ snd st' = "".
Proof. intros HM. by inversion HM; subst. Qed.

Section Ascii.
Variable ranges : list (Z * Z).
Hypothesis ascii : Forall (fun range => snd range < 128) ranges.

Lemma Matches_plus_inv st st' :
  Matches (Plus (Class false ranges)) st st' ->
  exists m, snd st = m ++ snd st' /\ m <> "" /\ AsciiClass.all_in ranges m.
Proof.
  intros HM. apply Matches_Cat_inv in HM as (st1 & M1 & M2).
  apply (AsciiClass.Matches_class_inv _ _ _ ascii) in M1 as (a & Ha & Hc & _).
  apply (AsciiClass.Matches_star_inv _ _ _ _ ascii) in M2 as (m & Hm & Hall & _).
  exists (String a m). rewrite Ha, Hm. split; [done|]. split; [done|].
  cbn. by constructor.
Qed.

Lemma Matches_plus_intro m bot rest :
  m <> "" -> AsciiClass.all_in ranges m ->
  exists bot', Matches (Plus (Class false ranges)) (bot, m ++ rest) (bot', rest).
Proof.
  destruct m as [|a m]; [done|]. intros _ Hall. cbn in Hall.
  apply Forall_cons in Hall as [Ha Hall].
  destruct (AsciiClass.Matches_star_intro true ranges m ascii Hall false rest)
    as [bot' HM].
  exists bot'. rewrite append_cons. econstructor; [|exact HM].
  by apply AsciiClass.Matches_class_intro.
Qed.

Lemma Matches_atleast2_inv st st' :
  Matches (AtLeast2 (Class false ranges)) st st' ->
  exists m, snd st = m ++ snd st' /\ (2 <= String.length m)%nat /\
            AsciiClass.all_in ranges m.
Proof.
  intros HM. apply Matches_Cat_inv in HM as (st1 & M1 & M2).
  apply (AsciiClass.Matches_class_inv _ _ _ ascii) in M1 as (a & Ha & Hc & _).
  apply Matches_plus_inv in M2 as (m & Hm & Hne & Hall).
  exists (String a m). rewrite Ha, Hm. split; [done|]. split.
  - destruct m; [done|]. cbn. lia.
  - cbn. by constructor.
Qed.

Lemma Matches_atleast2_intro m bot rest :
  (2 <= String.length m)%nat -> AsciiClass.all_in ranges m ->
  exists bot', Matches (AtLeast2 (Class false ranges)) (bot, m ++ rest) (bot', rest).
Proof.
  destruct m as [|a m]; [cbn; lia|]. intros Hlen Hall. cbn in Hall.
  apply Forall_cons in Hall as [Ha Hall].
  destruct (Matches_plus_intro m false rest) as [bot' HM]; [|done|].
  { destruct m; [cbn in Hlen; lia|done]. }
  exists bot'. rewrite append_cons. econstructor; [|exact HM].
  by apply AsciiClass.Matches_class_intro.
Qed.

End Ascii.

Lemma all_in_forall ranges m :
  AsciiClass.all_in ranges m <->
  forall a, In a (list_ascii_of_string m) -> in_class false ranges (utf8.byte a) = true.
Proof. rewrite Forall_forall. by setoid_rewrite list_elem_of_In. Qed.

End PatternFacts.

(** X19: the two custom validators. [validatePassword] accepts exactly
    the strings of at least 8 bytes that hold an upper-case letter of
    ASCII, a lower-case one, a digit, and one of the 20 characters of its
    last class. [validateUsername] accepts exactly the strings of 3 to 30
    bytes made of ASCII letters, digits, underscores and hyphens only. *)
Theorem X19_custom_validators :
  (forall password,
     validator.validatePassword password = true <->
     (8 <= String.length password)%nat /\
     Chars.some Chars.upper password /\ Chars.some Chars.lower password /\
     Chars.some Chars.digit password /\
     Chars.some (fun a => Chars.among "!@#$%^&*(),.?:{}|<>" a \/ utf8.byte a = 34)
       password) /\
  (forall username,
     validator.validateUsername username = true <->
     (3 <= String.length username <= 30)%nat /\
     Chars.all (fun a => Chars.alphanumeric a \/ Chars.among "_-" a) username).
Proof.
  unfold Chars.some, Chars.all, Chars.among, Chars.alphanumeric, Chars.letter,
    Chars.upper, Chars.lower, Chars.digit.
  split.
  - intros password. unfold validator.validatePassword.
    destruct (Nat.ltb_spec (String.length password) 8) as [Hshort|Hlong].
    { split; [done|]. intros [? _]. lia. }
    cbv zeta. rewrite !andb_true_iff.
    rewrite !SearchFacts.MatchString_ascii_class
      by (repeat constructor; reflexivity).
    setoid_rewrite PatternFacts.in_class_range.
    assert (Hspecial : forall a,
              regexp.in_class false
                (regexp.chars "!@#$%^&*(),.?" ++ [(34, 34)] ++ regexp.chars ":{}|<>")
                (utf8.byte a) = true <->
              In a (list_ascii_of_string "!@#$%^&*(),.?:{}|<>") \/ utf8.byte a = 34).
    { intros a. rewrite !PatternFacts.in_class_app, !orb_true_iff,
        !PatternFacts.in_class_chars.
      change (regexp.in_class false [(34, 34)] (utf8.byte a))
        with ((34 <=? utf8.byte a) && (utf8.byte a <=? 34) || false).
      rewrite orb_false_r, andb_true_iff, !Z.leb_le.
      change (list_ascii_of_string "!@#$%^&*(),.?:{}|<>")
        with (list_ascii_of_string "!@#$%^&*(),.?" ++ list_ascii_of_string ":{}|<>")%list.
      rewrite in_app_iff. intuition lia. }
    setoid_rewrite Hspecial. tauto.
  - intros username. unfold validator.validateUsername.
    destruct (Nat.ltb_spec (String.length username) 3) as [Hshort|Hlong]; cbn [orb].
    { split; [done|]. intros [? _]. lia. }
    destruct (Nat.ltb_spec 30 (String.length username)) as [Hbig|Hsmall].
    { split; [done|]. intros [? _]. lia. }
    set (ranges := ([regexp.range "a" "z"; regexp.range "A" "Z"; regexp.range "0" "9"]
                    ++ regexp.chars "_-")%list).
    assert (Hascii : Forall (fun range : Z * Z => snd range < 128) ranges)
      by (repeat constructor; reflexivity).
    assert (Hclass : forall a,
              regexp.in_class false ranges (utf8.byte a) = true <->
              ((utf8.byte "a" <= utf8.byte a <= utf8.byte "z" \/
                utf8.byte "A" <= utf8.byte a <= utf8.byte "Z") \/
               utf8.byte "0" <= utf8.byte a <= utf8.byte "9") \/
              In a (list_ascii_of_string "_-")).
    { intros a. unfold ranges.
      rewrite PatternFacts.in_class_app, !PatternFacts.in_class_cons, !orb_true_iff,
        PatternFacts.in_class_chars, !andb_true_iff, !Z.leb_le.
      cbn [regexp.range fst snd regexp.in_class existsb xorb].
      intuition (auto; try done). }
    change (regexp.Seq _ _)
      with (regexp.Cat regexp.BeginText
              (regexp.Cat (regexp.Plus (regexp.Class false ranges)) regexp.EndText)).
    rewrite SearchFacts.MatchString_anchored. split.
    + intros [st' HM]. split; [lia|].
      apply PatternFacts.Matches_Cat_inv in HM as (st1 & M1 & M2).
      apply (PatternFacts.Matches_plus_inv _ Hascii) in M1 as (m & Hm & _ & Hall).
      apply PatternFacts.Matches_EndText_inv in M2 as [Hend _].
      cbn [snd] in Hm. rewrite Hend, UtilsFacts.append_nil_r in Hm. subst m.
      intros a Ha. apply Hclass. by apply PatternFacts.all_in_forall with username.
    + intros [_ Hall].
      destruct (PatternFacts.Matches_plus_intro ranges Hascii username true "")
        as [bot' HM].
      * destruct username; [cbn in Hlong; lia|done].
      * apply PatternFacts.all_in_forall. intros a Ha. by apply Hclass, Hall.
      * rewrite UtilsFacts.append_nil_r in HM. eexists.
        econstructor; [exact HM|constructor].
Qed.

(** X19 at a sample: a user name with a space is refused. *)
Lemma X19_witness : validator.validateUsername "bob smith" = false.
Proof.
  destruct (validator.validateUsername "bob smith") eqn:Hv; [|done].
  apply (proj2 X19_custom_validators) in Hv as [_ Hall].
  destruct (Hall " "%char) as [[[[? ?]|[? ?]]|[? ?]]|[?|[?|[]]]]; cbn in *;
    try lia; try done.
  tauto.
Defined.

Module EmailFacts.
Import regexp.

Lemma Matches_Lit_inv c st st' :
  utf8.byte c < 128 ->
  Matches (Lit c) st st' -> snd st = String c (snd st') /\ fst st' = false.
Proof.
  intros Hc HM.
  apply AsciiClass.Matches_class_inv in HM as (a & Ha & Hin & Hbot);
    [|repeat constructor; done].
  unfold in_class in Hin. cbn [xorb existsb fst snd] in Hin.
  rewrite orb_false_r, andb_true_iff, !Z.leb_le in Hin.
  assert (a = c) as -> by (apply Utf8Facts.byte_inj; lia). done.
Qed.

Lemma Matches_Lit_intro c bot rest :
  utf8.byte c < 128 -> Matches (Lit c) (bot, String c rest) (false, rest).
Proof.
  intros Hc. apply AsciiClass.Matches_class_intro; [repeat constructor; done|].
  unfold in_class. cbn [xorb existsb fst snd]. rewrite orb_false_r, andb_true_iff, !Z.leb_le.
  lia.
Qed.

End EmailFacts.

(** X20: [IsValidEmail] accepts exactly the strings that are a local
    part, an at sign, a domain, a dot and a last label, where the local
    part is one or more ASCII letters, digits or characters of "._%+-",
    the domain one or more ASCII letters, digits, dots or hyphens, and the
    last label two or more ASCII letters. So an accepted address has one at
    sign and no byte outside ASCII, while a domain may begin with a dot or
    a hyphen or hold two dots in a row. *)
Theorem X20_IsValidEmail_accepts (email : string) :
  utils.IsValidEmail email = true <->
  exists local domain label,
    email = local ++ "@" ++ domain ++ "." ++ label /\
    local <> "" /\
    Chars.all (fun a => Chars.alphanumeric a \/ Chars.among "._%+-" a) local /\
    domain <> "" /\
    Chars.all (fun a => Chars.alphanumeric a \/ Chars.among ".-" a) domain /\
    (2 <= String.length label)%nat /\ Chars.all Chars.letter label.
Proof.
  unfold Chars.all, Chars.among, Chars.alphanumeric, Chars.letter,
    Chars.upper, Chars.lower, Chars.digit.
  set (L := ([regexp.range "a" "z"; regexp.range "A" "Z"; regexp.range "0" "9"]
             ++ regexp.chars "._%+-")%list).
  set (D := ([regexp.range "a" "z"; regexp.range "A" "Z"; regexp.range "0" "9"]
             ++ regexp.chars ".-")%list).
  set (T := [regexp.range "a" "z"; regexp.range "A" "Z"]).
  assert (HL : Forall (fun range : Z * Z => snd range < 128) L)
    by (repeat constructor; reflexivity).
  assert (HD : Forall (fun range : Z * Z => snd range < 128) D)
    by (repeat constructor; reflexivity).
  assert (HT : Forall (fun range : Z * Z => snd range < 128) T)
    by (repeat constructor; reflexivity).
  assert (HLc : forall a,
            regexp.in_class false L (utf8.byte a) = true <->
            ((utf8.byte "a" <= utf8.byte a <= utf8.byte "z" \/
              utf8.byte "A" <= utf8.byte a <= utf8.byte "Z") \/
             utf8.byte "0" <= utf8.byte a <= utf8.byte "9") \/
            In a (list_ascii_of_string "._%+-")).
  { intros a. unfold L.
    rewrite PatternFacts.in_class_app, !PatternFacts.in_class_cons, !orb_true_iff,
      PatternFacts.in_class_chars, !andb_true_iff, !Z.leb_le.
    cbn [regexp.range fst snd regexp.in_class existsb xorb].
    intuition (auto; try done). }
  assert (HDc : forall a,
            regexp.in_class false D (utf8.byte a) = true <->
            ((utf8.byte "a" <= utf8.byte a <= utf8.byte "z" \/
              utf8.byte "A" <= utf8.byte a <= utf8.byte "Z") \/
             utf8.byte "0" <= utf8.byte a <= utf8.byte "9") \/
            In a (list_ascii_of_string ".-")).
  { intros a. unfold D.
    rewrite PatternFacts.in_class_app, !PatternFacts.in_class_cons, !orb_true_iff,
      PatternFacts.in_class_chars, !andb_true_iff, !Z.leb_le.
    cbn [regexp.range fst snd regexp.in_class existsb xorb].
    intuition (auto; try done). }
  assert (HTc : forall a,
            regexp.in_class false T (utf8.byte a) = true <->
            (utf8.byte "a" <= utf8.byte a <= utf8.byte "z" \/
             utf8.byte "A" <= utf8.byte a <= utf8.byte "Z")).
  { intros a. unfold T.
    rewrite !PatternFacts.in_class_cons, !orb_true_iff, !andb_true_iff, !Z.leb_le.
    cbn [regexp.range fst snd regexp.in_class existsb xorb].
    intuition (auto; try done). }
  unfold utils.IsValidEmail.
  change utils.emailRegex
    with (regexp.Cat regexp.BeginText
            (regexp.Cat (regexp.Plus (regexp.Class false L))
               (regexp.Cat (regexp.Lit "@")
                  (regexp.Cat (regexp.Plus (regexp.Class false D))
                     (regexp.Cat (regexp.Lit ".")
                        (regexp.Cat (regexp.AtLeast2 (regexp.Class false T))
                           regexp.EndText)))))).
  rewrite SearchFacts.MatchString_anchored. split.
  - intros [st' HM].
    apply PatternFacts.Matches_Cat_inv in HM as (st1 & M1 & HM).
    apply PatternFacts.Matches_Cat_inv in HM as (st2 & M2 & HM).
    apply PatternFacts.Matches_Cat_inv in HM as (st3 & M3 & HM).
    apply PatternFacts.Matches_Cat_inv in HM as (st4 & M4 & HM).
    apply PatternFacts.Matches_Cat_inv in HM as (st5 & M5 & M6).
    apply (PatternFacts.Matches_plus_inv _ HL) in M1 as (local & H1 & Hne1 & Hall1).
    apply EmailFacts.Matches_Lit_inv in M2 as [H2 _]; [|reflexivity].
    apply (PatternFacts.Matches_plus_inv _ HD) in M3 as (domain & H3 & Hne3 & Hall3).
    apply EmailFacts.Matches_Lit_inv in M4 as [H4 _]; [|reflexivity].
    apply (PatternFacts.Matches_atleast2_inv _ HT) in M5 as (label & H5 & Hlen & Hall5).
    apply PatternFacts.Matches_EndText_inv in M6 as [H6 _].
    cbn [snd] in H1. rewrite H6, UtilsFacts.append_nil_r in H5.
    exists local, domain, label.
    split; [by rewrite H1, H2, H3, H4, H5|].
    split; [done|]. split.
    { intros a Ha. apply HLc. by apply PatternFacts.all_in_forall with local. }
    split; [done|]. split.
    { intros a Ha. apply HDc. by apply PatternFacts.all_in_forall with domain. }
    split; [done|].
    intros a Ha. apply HTc. by apply PatternFacts.all_in_forall with label.
  - intros (local & domain & label & -> & Hne1 & Hall1 & Hne3 & Hall3 & Hlen & Hall5).
    destruct (PatternFacts.Matches_plus_intro L HL local true
                ("@" ++ domain ++ "." ++ label) Hne1) as [b1 M1].
    { apply PatternFacts.all_in_forall. intros a Ha. by apply HLc, Hall1. }
    destruct (PatternFacts.Matches_plus_intro D HD domain false ("." ++ label) Hne3)
      as [b3 M3].
    { apply PatternFacts.all_in_forall. intros a Ha. by apply HDc, Hall3. }
    destruct (PatternFacts.Matches_atleast2_intro T HT label false "" Hlen) as [b5 M5].
    { apply PatternFacts.all_in_forall. intros a Ha. by apply HTc, Hall5. }
    rewrite UtilsFacts.append_nil_r in M5.
    eexists.
    econstructor; [exact M1|].
    econstructor; [apply (EmailFacts.Matches_Lit_intro "@"); reflexivity|].
    econstructor; [exact M3|].
    econstructor; [apply (EmailFacts.Matches_Lit_intro "."); reflexivity|].
    econstructor; [exact M5|constructor].
Qed.

(** X20 at two samples: a domain of two dots is accepted, a last label
    of one letter is not. *)
Lemma X20_witness :
  utils.IsValidEmail "a@..com" = true /\ utils.IsValidEmail "a@b.c" = false.
Proof.
  split.
  - apply X20_IsValidEmail_accepts. exists "a", ".", "com".
    unfold Chars.all, Chars.among, Chars.alphanumeric, Chars.letter, Chars.lower,
      Chars.upper, Chars.digit.
    cbn. repeat split; try done; try lia.
    + intros a [<-|[]]. left; left; left. by vm_compute.
    + intros a [<-|[]]. right. by left.
    + intros a [<-|[<-|[<-|[]]]]; left; by vm_compute.
  - reflexivity.
Defined.

(** ** Sanitize *)

Module TextFacts.

Lemma append_nil_l (s : string) : "" ++ s = s.
Proof. done. Qed.

Lemma bytes_app (x y : string) :
  list_ascii_of_string (x ++ y) = (list_ascii_of_string x ++ list_ascii_of_string y)%list.
Proof. induction x as [|a x IH]; [done|]. rewrite append_cons. cbn. by rewrite IH. Qed.

Lemma from_app (x y : string) : substr.from (String.length x) (x ++ y) = y.
Proof. induction x as [|a x IH]; [by destruct y|]. by rewrite append_cons. Qed.

Lemma upto_app (x y : string) : substr.upto (String.length x) (x ++ y) = x.
Proof.
  induction x as [|a x IH]; [by destruct y|]. rewrite append_cons. cbn. by rewrite IH.
Qed.

Lemma upto_length n s :
  (n <= String.length s)%nat -> String.length (substr.upto n s) = n.
Proof.
  revert s. induction n as [|n IH]; intros [|a s]; cbn; try done; try lia.
  intros H. rewrite IH; lia.
Qed.

Lemma upto_add n k s :
  substr.upto (n + k) s = substr.upto n s ++ substr.upto k (substr.from n s).
Proof.
  revert s. induction n as [|n IH]; intros s; [by destruct s, k|].
  destruct s as [|a s]; [by destruct k|]. cbn. by rewrite append_cons, IH.
Qed.

Lemma from_add n k s : substr.from (n + k) s = substr.from k (substr.from n s).
Proof.
  revert s. induction n as [|n IH]; intros s; [by destruct s, k|].
  destruct s as [|a s]; [by destruct k|]. cbn. by rewrite IH.
Qed.

(** A string is cut at the first place of a byte in one way only. *)
Lemma first_place a (x y x' y' : string) :
  x ++ String a y = x' ++ String a y' ->
  ~ In a (list_ascii_of_string x) -> ~ In a (list_ascii_of_string x') ->
  x = x' /\ y = y'.
Proof.
  revert x'.
  induction x as [|c x IH]; intros [|c' x']; rewrite ?append_cons, ?append_nil_l; cbn.
  - by intros [= ->].
  - intros [= <- _] _ H. tauto.
  - intros [= -> _] H. tauto.
  - intros [= <- Heq] H H'. destruct (IH x' Heq) as [-> ->]; tauto.
Qed.

(** A string that holds the byte [b] has a first one. *)
Lemma next_place b (m rest : string) :
  exists m' rest',
    m ++ String b rest = m' ++ String b rest' /\ ~ In b (list_ascii_of_string m').
Proof.
  induction m as [|c m (m' & rest' & Heq & Hnot)].
  - exists "", rest. split; [done|intros []].
  - destruct (ascii_dec c b) as [->|Hc].
    + exists "", (m ++ String b rest). split; [done|intros []].
    + exists (String c m'), rest'. rewrite !append_cons, Heq. split; [done|].
      cbn. tauto.
Qed.

Lemma follows_app a b (x t : string) :
  Chars.follows a b (x ++ t) -> In a (list_ascii_of_string x) \/ Chars.follows a b t.
Proof.
  intros (x0 & y & z & Heq). revert x0 Heq.
  induction x as [|c x IH]; intros x0 Heq.
  - right. rewrite append_nil_l in Heq. by exists x0, y, z.
  - destruct x0 as [|c0 x0]; rewrite ?append_cons, ?append_nil_l in Heq.
    + injection Heq as -> _. left. by left.
    + injection Heq as _ Heq. destruct (IH _ Heq); [left; by right|by right].
Qed.

Lemma follows_from a b n (s : string) :
  Chars.follows a b (substr.from n s) -> Chars.follows a b s.
Proof.
  intros (x & y & z & Heq). exists (substr.upto n s ++ x), y, z.
  by rewrite append_assoc, <- Heq, Utf8Facts.bytes_to_skip.
Qed.

Lemma follows_tail a b c (r : string) :
  Chars.follows a b (String c r) -> exists m z, r = m ++ String b z.
Proof.
  intros ([|c' x] & y & z & Heq); rewrite ?append_cons, ?append_nil_l in Heq;
    injection Heq as _ ->.
  - by exists y, z.
  - exists (x ++ String a y), z. by rewrite append_assoc, append_cons.
Qed.

Lemma follows_nil a b : ~ Chars.follows a b "".
Proof. by intros ([|c x] & y & z & Heq). Qed.

Lemma from_app_le w (m t : string) :
  (w <= String.length m)%nat -> substr.from w (m ++ t) = substr.from w m ++ t.
Proof.
  revert m. induction w as [|w IH]; intros [|a m]; cbn; try done; try lia.
  intros H. rewrite append_cons. apply IH. lia.
Qed.

Lemma In_from w (s : string) c :
  In c (list_ascii_of_string (substr.from w s)) -> In c (list_ascii_of_string s).
Proof.
  revert s. induction w as [|w IH]; intros [|a s]; cbn; try done.
  intros H. right. by apply IH.
Qed.

(** A prefix whose bytes all satisfy [P] ends before a byte that does
    not. *)
Lemma upto_all_stop (P : ascii -> Prop) w (m : string) c z :
  Forall P (list_ascii_of_string (substr.upto w (m ++ String c z))) -> ~ P c ->
  (w <= String.length m)%nat.
Proof.
  revert w. induction m as [|a m IH]; intros [|w]; rewrite ?append_cons, ?append_nil_l;
    cbn; try lia.
  - rewrite Forall_cons. tauto.
  - rewrite Forall_cons. intros [_ H] Hc. specialize (IH _ H Hc). lia.
Qed.

End TextFacts.

Module TagFacts.
Import regexp.

Local Abbreviation bytes := list_ascii_of_string.
Local Abbreviation not_gt := (Class true (chars ">")).

Lemma Matches_suffix re st st' : Matches re st st' -> exists m, snd st = m ++ snd st'.
Proof.
  induction 1 as [neg ranges bot a rest r w Hd Hc|s|bot
                 |r1 r2 st st1 st2 _ [m1 H1] _ [m2 H2]
                 |g r st|g r st st1 st2 _ [m1 H1] _ _ [m2 H2]]; cbn [snd] in *.
  - exists (substr.upto w (String a rest)). by rewrite Utf8Facts.bytes_to_skip.
  - by exists "".
  - by exists "".
  - exists (m1 ++ m2). by rewrite append_assoc, <- H2.
  - by exists "".
  - exists (m1 ++ m2). by rewrite append_assoc, <- H2.
Qed.

(** An expression that begins with [<] and ends with [>] reads both. *)
Lemma Matches_bracket r rs st st' :
  Matches (Seq (Lit "<") (r :: rs ++ [Lit ">"])) st st' ->
  exists m, snd st = String "<" (m ++ String ">" (snd st')).
Proof.
  cbn [Seq app]. intros HM. apply PatternFacts.Matches_Cat_inv in HM as (st1 & M1 & HM).
  apply EmailFacts.Matches_Lit_inv in M1 as [-> _]; [|reflexivity].
  enough (exists m, snd st1 = m ++ String ">" (snd st')) as [m ->] by eauto.
  clear st. revert r st1 HM.
  induction rs as [|r' rs IH]; intros r st1 HM; cbn [Seq app] in HM;
    apply PatternFacts.Matches_Cat_inv in HM as (st2 & M1 & M2);
    apply Matches_suffix in M1 as [m1 ->].
  - apply EmailFacts.Matches_Lit_inv in M2 as [-> _]; [|reflexivity]. by exists m1.
  - apply IH in M2 as [m2 ->]. exists (m1 ++ m2). by rewrite append_assoc.
Qed.

Lemma scriptRegex_bracket :
  exists r rs, utils.scriptRegex = Seq (Lit "<") (r :: rs ++ [Lit ">"]).
Proof.
  exists (FoldLit "s"),
    (map FoldLit (list_ascii_of_string "cript") ++
     [Star true not_gt; Lit ">"; Star false (Class true [(10, 10)]); Lit "<"; Lit "/"] ++
     map FoldLit (list_ascii_of_string "script"))%list.
  reflexivity.
Qed.

(** A rune other than [>] is read from bytes other than [>]. *)
Lemma Matches_not_gt_inv st st' :
  Matches not_gt st st' ->
  exists m, snd st = m ++ snd st' /\ ~ In ">"%char (bytes m).
Proof.
  inversion 1 as [? ? bot a rest r w Hd Hc| | | | |]; subst. cbn [snd].
  exists (substr.upto w (String a rest)). split; [by rewrite Utf8Facts.bytes_to_skip|].
  apply Utf8Facts.decode_cases in Hd as [(Ha & -> & ->)|(Ha & Hr & Hw & Hall)].
  - cbn. intros [->|[]]. by vm_compute in Hc.
  - intros Hin. rewrite Forall_forall in Hall. apply list_elem_of_In, Hall in Hin.
    by vm_compute in Hin.
Qed.

Lemma Matches_tag_body_inv g st st' :
  Matches (Star g not_gt) st st' ->
  exists m, snd st = m ++ snd st' /\ ~ In ">"%char (bytes m).
Proof.
  intros HM. remember (Star g not_gt) as re eqn:Hre.
  induction HM as [| | | |g' r st|g' r st st1 st2 M1 _ Hlt M2 IH2]; try done.
  - exists "". split; [done|intros []].
  - injection Hre as -> ->. destruct (IH2 eq_refl) as (m2 & H2 & Hm2).
    apply Matches_not_gt_inv in M1 as (m1 & H1 & Hm1).
    exists (m1 ++ m2). rewrite append_assoc, <- H2. split; [done|].
    rewrite TextFacts.bytes_app, in_app_iff. tauto.
Qed.

Lemma in_not_gt r : r <> 62 -> in_class true (chars ">") r = true.
Proof.
  intros Hr. unfold in_class. cbn [chars existsb fst snd xorb]. 
  change (utf8.byte ">") with 62.
  destruct (Z.leb_spec 62 r), (Z.leb_spec r 62); cbn; try done. lia.
Qed.

Lemma Matches_tag_body_intro g (m : string) :
  ~ In ">"%char (bytes m) ->
  forall bot rest,
    exists bot', Matches (Star g not_gt) (bot, m ++ String ">" rest) (bot', String ">" rest).
Proof.
  remember (String.length m) as n eqn:Hn. revert m Hn.
  induction n as [n IH] using lt_wf_ind. intros [|a m] Hn Hnot bot rest.
  - exists bot. constructor.
  - rewrite append_cons.
    assert (String.length m < n)%nat as Hlt. { subst n. cbn. lia. }
    assert (~ In ">"%char (bytes m)) as Hnot' by (cbn in Hnot; tauto).
    destruct (utf8.DecodeRuneInString (String a (m ++ String ">" rest))) as [r w] eqn:Hd.
    pose proof Hd as Hcases.
    apply Utf8Facts.decode_cases in Hcases as [(Ha & -> & ->)|(Ha & Hr & Hw & Hall)].
    + destruct (IH (String.length m) Hlt m eq_refl Hnot' false rest) as [bot' HM].
      exists bot'.
      apply Matches_Star_more with (st1 := (false, m ++ String ">" rest));
        [|cbn; lia|exact HM].
      change (m ++ String ">" rest) with (substr.from 1 (String a (m ++ String ">" rest))) at 2.
      econstructor; [exact Hd|]. apply in_not_gt. intros Heq.
      apply Hnot. left. apply Utf8Facts.byte_inj. by rewrite Heq.
    + rewrite <- append_cons in Hall.
      assert (w <= String.length (String a m))%nat as Hle.
      { eapply TextFacts.upto_all_stop; [exact Hall|]. by vm_compute. }
      pose proof (Utf8Facts.skip_length w (String a m)) as Hlen.
      assert (String.length (substr.from w (String a m)) < n)%nat as Hlt'
        by (rewrite Hlen; subst n; cbn; lia).
      assert (~ In ">"%char (bytes (substr.from w (String a m)))) as Hnot''
        by (intros Hin; by apply Hnot, TextFacts.In_from with w).
      destruct (IH _ Hlt' _ eq_refl Hnot'' false rest) as [bot' HM].
      exists bot'.
      rewrite <- (TextFacts.from_app_le w (String a m) (String ">" rest) Hle) in HM.
      rewrite append_cons in HM.
      apply Matches_Star_more
        with (st1 := (false, substr.from w (String a (m ++ String ">" rest))));
        [|cbn [snd]; rewrite Utf8Facts.skip_length; cbn; lia|exact HM].
      econstructor; [exact Hd|]. apply in_not_gt. lia.
Qed.

Lemma tagRegex_bracket :
  utils.tagRegex = Seq (Lit "<") (Star true not_gt :: [] ++ [Lit ">"]).
Proof. reflexivity. Qed.

Lemma tag_match_inv st st' :
  Matches utils.tagRegex st st' ->
  exists m, snd st = String "<" (m ++ String ">" (snd st')) /\ ~ In ">"%char (bytes m).
Proof.
  intros HM. apply PatternFacts.Matches_Cat_inv in HM as (st1 & M1 & HM).
  apply PatternFacts.Matches_Cat_inv in HM as (st2 & M2 & M3).
  apply EmailFacts.Matches_Lit_inv in M1 as [-> _]; [|reflexivity].
  apply Matches_tag_body_inv in M2 as (m & -> & Hm).
  apply EmailFacts.Matches_Lit_inv in M3 as [-> _]; [|reflexivity].
  by exists m.
Qed.

Lemma tag_match_intro bot (m rest : string) :
  ~ In ">"%char (bytes m) ->
  exists bot', Matches utils.tagRegex (bot, String "<" (m ++ String ">" rest)) (bot', rest).
Proof.
  intros Hm. destruct (Matches_tag_body_intro true m Hm false rest) as [bot' HM].
  exists false. econstructor; [apply (EmailFacts.Matches_Lit_intro "<"); reflexivity|].
  econstructor; [exact HM|]. apply (EmailFacts.Matches_Lit_intro ">"). reflexivity.
Qed.

(** The tag expression matches at a [<] that a [>] follows, up to the
    first such [>]. *)
Lemma match_here_tag bot s rest :
  match_here utils.tagRegex bot s = Some rest <->
  exists m, s = String "<" (m ++ String ">" rest) /\ ~ In ">"%char (bytes m).
Proof.
  destruct (SearchFacts.match_here_spec utils.tagRegex bot s) as [Hsome Hnone]. split.
  - intros H. apply Hsome in H as [bot' HM]. by apply tag_match_inv in HM.
  - intros (m & -> & Hm). destruct (tag_match_intro bot m rest Hm) as [bot' HM].
    destruct (match_here utils.tagRegex bot _) as [rest'|] eqn:Hh.
    + destruct (Hsome rest' eq_refl) as [bot'' HM'].
      apply tag_match_inv in HM' as (m' & [= Heq] & Hm'). cbn [snd] in Heq.
      by destruct (TextFacts.first_place _ _ _ _ _ Heq Hm Hm') as [_ ->].
    + by destruct (Hnone eq_refl _ HM).
Qed.

Lemma match_here_tag_None bot (m rest : string) :
  match_here utils.tagRegex bot (String "<" (m ++ String ">" rest)) <> None.
Proof.
  destruct (TextFacts.next_place ">" m rest) as (m' & rest' & -> & Hm').
  intros Hnone. assert (match_here utils.tagRegex bot (String "<" (m' ++ String ">" rest'))
                        = Some rest') as H by (apply match_here_tag; eauto).
  congruence.
Qed.

Lemma match_here_tag_bot bot bot' s :
  match_here utils.tagRegex bot s = match_here utils.tagRegex bot' s.
Proof.
  destruct (match_here utils.tagRegex bot s) as [rest|] eqn:H.
  - symmetry. by apply match_here_tag, (match_here_tag bot).
  - destruct (match_here utils.tagRegex bot' s) as [rest|] eqn:H'; [|done].
    apply match_here_tag, (match_here_tag bot) in H'. congruence.
Qed.

(** *** The search and the replacement *)

Lemma from_0 s : substr.from 0 s = s.
Proof. by destruct s. Qed.

Lemma find_here fuel re bot s n rest :
  find fuel re bot s = Some (n, rest) ->
  (n <= String.length s)%nat /\
  exists bot', match_here re bot' (substr.from n s) = Some rest.
Proof.
  revert bot s n rest. induction fuel as [|fuel IH]; intros bot s n rest; cbn [find];
    destruct (match_here re bot s) as [rest0|] eqn:Hh; try done.
  - intros [= <- <-]. split; [lia|]. exists bot. by rewrite from_0.
  - intros [= <- <-]. split; [lia|]. exists bot. by rewrite from_0.
  - destruct s as [|a s]; [done|]. cbv zeta.
    pose proof (Utf8Facts.decode_width a s) as Hw.
    destruct (utf8.DecodeRuneInString (String a s)) as [r w] eqn:Hd. cbn [snd] in *.
    destruct (find fuel re false _) as [[n' rest']|] eqn:Hf; [|done].
    intros [= <- <-]. apply IH in Hf as [Hn' [bot' Hm]].
    rewrite Utf8Facts.skip_length in Hn'. split; [lia|].
    exists bot'. by rewrite TextFacts.from_add.
Qed.

(** Where an expression in brackets is found, a [<] stands before a
    [>]. *)
Lemma find_bracket fuel r rs bot s n rest :
  find fuel (Seq (Lit "<") (r :: rs ++ [Lit ">"])) bot s = Some (n, rest) ->
  (n <= String.length s)%nat /\
  exists m, substr.from n s = String "<" (m ++ String ">" rest).
Proof.
  intros Hf. apply find_here in Hf as [Hn [bot' Hm]]. split; [done|].
  apply SearchFacts.match_here_spec in Hm as [bot'' HM].
  by apply Matches_bracket in HM.
Qed.

Lemma find_bracket_follows fuel r rs bot s n rest :
  find fuel (Seq (Lit "<") (r :: rs ++ [Lit ">"])) bot s = Some (n, rest) ->
  Chars.follows "<" ">" s /\ (n + String.length rest < String.length s)%nat.
Proof.
  intros Hf. apply find_bracket in Hf as [Hn [m Hm]]. split.
  - apply TextFacts.follows_from with n. exists "", m, rest. by rewrite Hm.
  - pose proof (Utf8Facts.skip_length n s) as Hlen. rewrite Hm in Hlen.
    cbn [String.length] in Hlen. rewrite length_append in Hlen.
    cbn [String.length] in Hlen. lia.
Qed.

(** A text without a [<] before a [>] is left as it is by an
    expression in brackets. *)
Lemma replace_bracket_fixed fuel r rs repl bot adjacent s :
  ~ Chars.follows "<" ">" s ->
  replace_from fuel (Seq (Lit "<") (r :: rs ++ [Lit ">"])) repl bot adjacent s = s.
Proof.
  intros Hfree. destruct fuel as [|fuel]; [done|]. cbn [replace_from].
  destruct (find _ _ bot s) as [[n rest]|] eqn:Hf; [|done].
  by apply find_bracket_follows in Hf as [? _].
Qed.

Lemma find_tag_bot fuel bot bot' s :
  find fuel utils.tagRegex bot s = find fuel utils.tagRegex bot' s.
Proof.
  revert bot bot' s. induction fuel as [|fuel IH]; intros bot bot' s; cbn [find];
    by rewrite (match_here_tag_bot bot bot').
Qed.

(** Before the tag that is found there is no [<]. *)
Lemma find_tag_before fuel bot s n rest :
  find fuel utils.tagRegex bot s = Some (n, rest) ->
  ~ In "<"%char (bytes (substr.upto n s)).
Proof.
  revert bot s n rest. induction fuel as [|fuel IH]; intros bot s n rest; cbn [find];
    destruct (match_here utils.tagRegex bot s) as [rest0|] eqn:Hh; try done.
  - intros [= <- <-]. destruct s; intros [].
  - intros [= <- <-]. destruct s; intros [].
  - destruct s as [|a s]; [done|]. cbv zeta.
    destruct (utf8.DecodeRuneInString (String a s)) as [r w] eqn:Hd. cbn [snd].
    destruct (find fuel utils.tagRegex false _) as [[n' rest']|] eqn:Hf; [|done].
    intros [= <- <-]. rewrite TextFacts.upto_add, TextFacts.bytes_app, in_app_iff.
    intros [Hin|Hin]; [|by apply IH in Hf].
    apply Utf8Facts.decode_cases in Hd as [(Ha & -> & ->)|(Ha & Hr & Hw & Hall)].
    + cbn in Hin. destruct Hin as [->|[]].
      rewrite tagRegex_bracket in Hf. apply find_bracket in Hf as [_ [m Hm]].
      cbn [substr.from] in Hm.
      apply (match_here_tag_None bot (substr.upto n' s ++ String "<" m) rest').
      rewrite append_assoc, append_cons, <- Hm, Utf8Facts.bytes_to_skip. done.
    + rewrite Forall_forall in Hall. apply list_elem_of_In, Hall in Hin.
      by vm_compute in Hin.
Qed.

(** The search for a tag fails only in a text without one. *)
Lemma find_tag_None fuel bot s :
  (String.length s <= fuel)%nat -> find fuel utils.tagRegex bot s = None ->
  ~ Chars.follows "<" ">" s.
Proof.
  revert bot s. induction fuel as [|fuel IH]; intros bot s Hfuel; cbn [find];
    destruct (match_here utils.tagRegex bot s) as [rest0|] eqn:Hh; try done.
  - destruct s; [|cbn in Hfuel; lia]. intros _. apply TextFacts.follows_nil.
  - destruct s as [|a s]; [intros _; apply TextFacts.follows_nil|]. cbv zeta.
    pose proof (Utf8Facts.decode_width a s) as Hw.
    destruct (utf8.DecodeRuneInString (String a s)) as [r w] eqn:Hd. cbn [snd] in *.
    destruct (find fuel utils.tagRegex false _) as [[n' rest']|] eqn:Hf; [done|].
    intros _ Hfol. pose proof Hfol as Htail.
    rewrite <- (Utf8Facts.bytes_to_skip w (String a s)) in Hfol.
    apply TextFacts.follows_app in Hfol as [Hin|Hfol].
    + apply Utf8Facts.decode_cases in Hd as [(Ha & -> & ->)|(Ha & Hr & _ & Hall)].
      * cbn in Hin. destruct Hin as [->|[]].
        apply TextFacts.follows_tail in Htail as (m & z & ->).
        by apply (match_here_tag_None bot m z).
      * rewrite Forall_forall in Hall. apply list_elem_of_In, Hall in Hin.
        by vm_compute in Hin.
    + revert Hfol. apply (IH false); [|done].
      rewrite Utf8Facts.skip_length. cbn [String.length] in *. lia.
Qed.

(** The tag of a text whose first [<] is followed by a [>]. *)
Lemma find_tag_first fuel bot (text m rest : string) :
  let s := text ++ String "<" (m ++ String ">" rest) in
  ~ In "<"%char (bytes text) -> ~ In ">"%char (bytes m) ->
  (String.length s <= fuel)%nat ->
  find fuel utils.tagRegex bot s = Some (String.length text, rest).
Proof.
  intros s Htext Hm Hfuel.
  destruct (find fuel utils.tagRegex bot s) as [[n rest']|] eqn:Hf.
  - pose proof (find_tag_before _ _ _ _ _ Hf) as Hbefore.
    apply find_here in Hf as [Hn [bot' Hh]].
    apply match_here_tag in Hh as (m' & Hshape & Hm').
    assert (s = substr.upto n s ++ String "<" (m' ++ String ">" rest')) as Hs
      by (by rewrite <- Hshape, Utf8Facts.bytes_to_skip).
    unfold s in Hs at 1.
    destruct (TextFacts.first_place _ _ _ _ _ Hs Htext Hbefore) as [Hpre Hpost].
    destruct (TextFacts.first_place _ _ _ _ _ Hpost Hm Hm') as [_ <-].
    by rewrite Hpre, TextFacts.upto_length.
  - apply find_tag_None in Hf; [|done]. destruct Hf. by exists text, m, rest.
Qed.

(** The removal of the tags does not depend on the fuel beyond the
    length of the text, nor on where the text is cut from. *)
Lemma replace_tag_fuel fuel1 :
  forall fuel2 bot1 bot2 adjacent1 adjacent2 s,
    (String.length s < fuel1)%nat -> (String.length s < fuel2)%nat ->
    replace_from fuel1 utils.tagRegex "" bot1 adjacent1 s
    = replace_from fuel2 utils.tagRegex "" bot2 adjacent2 s.
Proof.
  induction fuel1 as [|fuel1 IH]; intros [|fuel2] bot1 bot2 adj1 adj2 s H1 H2; try lia.
  cbn [replace_from]. rewrite (find_tag_bot _ bot1 bot2).
  destruct (find _ utils.tagRegex bot2 s) as [[n rest]|] eqn:Hf; [|done]. cbv zeta.
  rewrite tagRegex_bracket in Hf. apply find_bracket_follows in Hf as [_ Hlt].
  apply Nat.ltb_lt in Hlt as Hlt'. rewrite Hlt'.
  f_equal. f_equal. apply IH; lia.
Qed.

Lemma replace_tag_free fuel :
  forall bot adjacent s,
    (String.length s < fuel)%nat ->
    ~ Chars.follows "<" ">" (replace_from fuel utils.tagRegex "" bot adjacent s).
Proof.
  induction fuel as [|fuel IH]; intros bot adj s Hfuel; [lia|].
  cbn [replace_from].
  destruct (find _ utils.tagRegex bot s) as [[n rest]|] eqn:Hf.
  - cbv zeta. pose proof (find_tag_before _ _ _ _ _ Hf) as Hbefore.
    rewrite tagRegex_bracket in Hf. apply find_bracket_follows in Hf as [_ Hlt].
    apply Nat.ltb_lt in Hlt as Hlt'. rewrite Hlt'.
    rewrite TextFacts.append_nil_l. intros Hfol.
    apply TextFacts.follows_app in Hfol as [Hin|Hfol]; [done|].
    revert Hfol. apply IH. lia.
  - by apply find_tag_None in Hf.
Qed.

End TagFacts.

(** X21: the first pass of [Sanitize] cuts out every stretch from a
    [<] to the next [>] and leaves a text in which no [<] stands before a
    [>]; on such a text the second pass, which is to remove script
    elements with their content, changes nothing. So [Sanitize] is the
    first pass followed by the trimming, and the content of a script
    element is kept. *)
Theorem X21_Sanitize_removes_tags_only (TrimSpace : string -> string) :
  let strip input := regexp.ReplaceAllString utils.tagRegex input "" in
  (forall input, ~ Chars.follows "<" ">" (strip input)) /\
  (forall s, ~ Chars.follows "<" ">" s ->
     regexp.ReplaceAllString utils.scriptRegex s "" = s /\ strip s = s) /\
  (forall text m rest,
     ~ Chars.among text "<" -> ~ Chars.among m ">" ->
     strip (text ++ String "<" (m ++ String ">" rest)) = text ++ strip rest) /\
  (forall input, utils.Sanitize TrimSpace input = TrimSpace (strip input)) /\
  (forall body,
     ~ Chars.among body "<" ->
     utils.Sanitize TrimSpace ("<script>" ++ body ++ "</script>") = TrimSpace body).
Proof.
  intros strip. unfold Chars.among.
  assert (Hfree : forall input, ~ Chars.follows "<" ">" (strip input)).
  { intros input. apply TagFacts.replace_tag_free. lia. }
  assert (Hfixed : forall s, ~ Chars.follows "<" ">" s ->
            regexp.ReplaceAllString utils.scriptRegex s "" = s /\ strip s = s).
  { intros s Hs. split.
    - destruct TagFacts.scriptRegex_bracket as (r & rs & ->).
      by apply TagFacts.replace_bracket_fixed.
    - unfold strip. rewrite TagFacts.tagRegex_bracket.
      by apply TagFacts.replace_bracket_fixed. }
  assert (Hstep : forall text m rest,
            ~ In "<"%char (list_ascii_of_string text) ->
            ~ In ">"%char (list_ascii_of_string m) ->
            strip (text ++ String "<" (m ++ String ">" rest)) = text ++ strip rest).
  { intros text m rest Htext Hm. set (out := strip rest).
    unfold strip, regexp.ReplaceAllString. cbn [regexp.replace_from].
    rewrite (TagFacts.find_tag_first _ true text m rest Htext Hm) by lia. cbv zeta.
    rewrite TextFacts.upto_app.
    assert ((String.length text + String.length rest
             <? String.length (text ++ String "<" (m ++ String ">" rest)))%nat = true) as ->.
    { apply Nat.ltb_lt. rewrite length_append. cbn [String.length].
      rewrite length_append. cbn [String.length]. lia. }
    rewrite TextFacts.append_nil_l. f_equal. apply TagFacts.replace_tag_fuel; [|lia].
    rewrite length_append. cbn [String.length].
    rewrite length_append. cbn [String.length]. lia. }
  assert (Hsan : forall input, utils.Sanitize TrimSpace input = TrimSpace (strip input)).
  { intros input. unfold utils.Sanitize. cbv zeta.
    destruct (Hfixed _ (Hfree input)) as [H _]. unfold strip in H |- *. by rewrite H. }
  repeat split; try done; try by apply Hfixed.
  intros body Hbody. rewrite Hsan. f_equal.
  change ("<script>" ++ body ++ "</script>")
    with ("" ++ String "<" ("script" ++ String ">" (body ++ String "<" ("/script" ++ ">")))).
  rewrite Hstep; [|intros []|by vm_compute; intuition discriminate].
  rewrite TextFacts.append_nil_l.
  change (String "<" ("/script" ++ ">")) with (String "<" ("/script" ++ String ">" "")).
  rewrite Hstep; [|done|by vm_compute; intuition discriminate].
  apply UtilsFacts.append_nil_r.
Qed.

(** X21 at a sample: of a script element the tags go and the code
    stays. *)
Lemma X21_witness :
  ~ Chars.among "alert(1)" "<" /\
  utils.Sanitize (fun s => s) "<script>alert(1)</script>" = "alert(1)".
Proof.
  assert (~ Chars.among "alert(1)" "<") as H by (vm_compute; intuition discriminate).
  split; [exact H|].
  destruct (X21_Sanitize_removes_tags_only (fun s => s)) as (_ & _ & _ & _ & Hbody).
  exact (Hbody "alert(1)" H).
Defined.

(** ** A refresh token on the protected routes *)

Module RouteFacts.
Import gin middleware.

(** The claims [ValidateAccessToken] reads from a refresh token name no
    user. *)
Lemma refresh_token_claims (L : Jwt.Library) (m : Jwt.Manager) (iat : Z)
    (jti userID t : string) (now : Z) :
  Jwt.reads_back L ->
  Jwt.GenerateRefreshToken L m iat jti userID = Ok t ->
  iat <= now < iat + Jwt.refreshTokenDuration m ->
  Jwt.ValidateAccessToken L m now t
    = Ok (Jwt.mkClaims "" "" "" (Jwt.refresh_claims m iat jti userID)).
Proof.
  intros Hrb Hgen Hwin. unfold Jwt.GenerateRefreshToken in Hgen.
  unfold Jwt.ValidateAccessToken.
  rewrite (ParseWithClaims_own_token L _ _ m now _ _ t Hrb Hgen
             (unmarshal_Claims_of_Registered _)).
  rewrite (validate_in_window now _ iat (iat + Jwt.refreshTokenDuration m));
    [reflexivity|reflexivity|reflexivity|done].
Qed.

(** The context a request has after a middleware that read no user
    from the token. *)
Local Abbreviation nobody c :=
  (Set_ constants.ContextKeyUserRole ""
     (Set_ constants.ContextKeyUserEmail "" (Set_ constants.ContextKeyUserID "" c))).

Lemma nobody_has_no_id c : GetString (nobody c) constants.ContextKeyUserID = "".
Proof.
  rewrite !MiddlewareFacts.GetString_Set_ne by done.
  apply MiddlewareFacts.GetString_Set_eq.
Qed.

Lemma nobody_has_no_role c : GetString (nobody c) constants.ContextKeyUserRole = "".
Proof. apply MiddlewareFacts.GetString_Set_eq. Qed.

Lemma RequireRole_nobody roles next c :
  GetString c constants.ContextKeyUserRole = "" ->
  RequireRole roles next c = Abort (response.Unauthorized "Unauthorized" c).
Proof. intros H. unfold RequireRole. by rewrite H. Qed.

(** The engine on a context that is past the chain after one more
    step. *)
Lemma run_done fuel handlers c :
  Z.of_nat (length handlers) <= index c + 1 -> run fuel handlers (advance c) = advance c.
Proof. intros H. apply MiddlewareFacts.run_past_the_end. cbn [advance index]. lia. Qed.

End RouteFacts.

(** X22: a refresh token opens no protected route. The middleware
    lets a request through that bears a refresh token of the manager, still
    within its lifetime, as if it were an access token; the context then
    names no user, and every route of the group [/users] answers 401
    "Unauthorized" without reaching what it serves: the profile routes by
    the check of the user id with which their handlers begin, the admin
    routes by [RequireRole]. *)
Theorem X22_refresh_token_opens_no_protected_route
    (L : Jwt.Library) (jwtManager : Jwt.Manager) (iat : Z) (jti userID t : string)
    (now : Z) (c : gin.Context) (fuel : nat) :
  Jwt.reads_back L ->
  Jwt.GenerateRefreshToken L jwtManager iat jti userID = Ok t ->
  iat <= now < iat + Jwt.refreshTokenDuration jwtManager ->
  gin.GetHeader c constants.HeaderAuthorization = "Bearer " ++ t ->
  (exists c', forall next, middleware.AuthMiddleware L jwtManager now next c = next c') /\
  (forall getProfile updateProfile changePassword h,
     In h [userHttp.GetProfile getProfile; userHttp.UpdateProfile updateProfile;
           userHttp.ChangePassword changePassword] ->
     gin.written (gin.handleHTTPRequest (S (S fuel))
                    (router.users_route L jwtManager now h) c)
     = (gin.written c ++
        [(401, {| gin.Success := false; gin.Message := "Unauthorized" |})])%list) /\
  (forall h,
     gin.written (gin.handleHTTPRequest (S (S fuel))
                    (router.users_admin_route L jwtManager now h) c)
     = (gin.written c ++
        [(401, {| gin.Success := false; gin.Message := "Unauthorized" |})])%list).
Proof.
  intros Hrb Hgen Hwin Hheader.
  pose proof (RouteFacts.refresh_token_claims L jwtManager iat jti userID t now
                Hrb Hgen Hwin) as Hclaims.
  split; [|split].
  - eexists. intros next.
    by apply MiddlewareFacts.AuthMiddleware_accepts with t.
  - intros getProfile updateProfile changePassword h Hh.
    unfold gin.handleHTTPRequest, gin.Next, router.users_route.
    rewrite (MiddlewareFacts.run_starts_handler (S fuel) _ _ 0
               (middleware.AuthMiddleware L jwtManager now)) by done.
    rewrite (MiddlewareFacts.AuthMiddleware_accepts L jwtManager now _
               (gin.advance (gin.reset c)) t _ Hheader Hclaims).
    cbn [Jwt.Role Jwt.Email Jwt.UserID].
    match goal with
    | |- context [gin.run (S fuel) ?hs (gin.advance (gin.Set_ ?k ?v ?c1))] =>
        rewrite (MiddlewareFacts.run_starts_handler fuel hs
                   (gin.advance (gin.Set_ k v c1)) 1 h) by reflexivity
    end.
    assert (forall next c0,
              gin.GetString c0 constants.ContextKeyUserID = "" ->
              h next c0 = response.Unauthorized "Unauthorized" c0) as Hguard.
    { intros next c0 Hid.
      destruct Hh as [<-|[<-|[<-|[]]]];
        unfold userHttp.GetProfile, userHttp.UpdateProfile, userHttp.ChangePassword;
        by rewrite Hid. }
    rewrite Hguard by apply RouteFacts.nobody_has_no_id.
    match goal with
    | |- context [gin.run fuel ?hs (gin.advance (response.Unauthorized ?m ?c1))] =>
        rewrite (RouteFacts.run_done fuel hs (response.Unauthorized m c1))
          by (vm_compute; discriminate)
    end.
    rewrite RouteFacts.run_done by (vm_compute; discriminate). reflexivity.
  - intros h.
    unfold gin.handleHTTPRequest, gin.Next, router.users_admin_route.
    rewrite (MiddlewareFacts.run_starts_handler (S fuel) _ _ 0
               (middleware.AuthMiddleware L jwtManager now)) by done.
    rewrite (MiddlewareFacts.AuthMiddleware_accepts L jwtManager now _
               (gin.advance (gin.reset c)) t _ Hheader Hclaims).
    cbn [Jwt.Role Jwt.Email Jwt.UserID].
    match goal with
    | |- context [gin.run (S fuel) ?hs (gin.advance (gin.Set_ ?k ?v ?c1))] =>
        rewrite (MiddlewareFacts.run_starts_handler fuel hs
                   (gin.advance (gin.Set_ k v c1)) 1
                   (middleware.RequireRole [constants.RoleAdmin])) by reflexivity
    end.
    rewrite RouteFacts.RequireRole_nobody by apply RouteFacts.nobody_has_no_role.
    match goal with
    | |- context [gin.run fuel ?hs (gin.advance (gin.Abort ?c1))] =>
        rewrite (RouteFacts.run_done fuel hs (gin.Abort c1))
          by (vm_compute; discriminate)
    end.
    rewrite RouteFacts.run_done by (vm_compute; discriminate). reflexivity.
Qed.

(** X22 at the sample data: the refresh token of [u1] on the profile
    route and on an admin route. *)
Lemma X22_witness :
  gin.written
    (gin.handleHTTPRequest 2
       (router.users_route Reference.lib Sample.manager 1001
          (userHttp.GetProfile (fun _ c => Sample.handler (fun c0 => c0) c)))
       (Sample.request (Some ("Bearer " ++ Sample.refresh_token))))
    = [(401, {| gin.Success := false; gin.Message := "Unauthorized" |})] /\
  gin.written
    (gin.handleHTTPRequest 2
       (router.users_admin_route Reference.lib Sample.manager 1001 Sample.handler)
       (Sample.request (Some ("Bearer " ++ Sample.refresh_token))))
    = [(401, {| gin.Success := false; gin.Message := "Unauthorized" |})].
Proof.
  destruct (X22_refresh_token_opens_no_protected_route Reference.lib Sample.manager
              1000 "jti-r" "u1" Sample.refresh_token 1001
              (Sample.request (Some ("Bearer " ++ Sample.refresh_token))) 0
              ReferenceFacts.lib_reads_back eq_refl ltac:(simpl; lia) eq_refl)
    as (_ & Hprofile & Hadmin).
  split.
  - apply (Hprofile (fun _ c => Sample.handler (fun c0 => c0) c)
             (fun _ c => c) (fun _ c => c)). by left.
  - apply Hadmin.
Defined.

(** ** C9: hashing a password and verifying it *)



